(** * Rendering core of the leaflet map server

    A shallow embedding of the rendering and validation code of
    [server/src/RenderEngine.cpp] and [server/src/HttpServer.cpp], and the
    properties the specification states about it.

    Conventions of the embedding

    - [int] values are integers of [Z]; where the source computes with them
      in a way that can leave the 32-bit range the wrap-around is written
      out ([int_wrap]); [size_t] arithmetic is taken modulo [2^64].
    - the code that computes with [double] is written once over an
      interface [DoubleArith].  It is instantiated with IEEE 754 binary64
      ([spec_float] with the operations of [SpecFloat], each rounded to
      the nearest double), which is what the program runs on and what
      the coordinate transform is verified in; with the rationals [Q],
      exact arithmetic, for the sample requests and for the properties
      that are stated of exact arithmetic; and with the reals [R], where
      the tile bounding box (which needs [atan] and [sinh]) lives.  A conversion
      [static_cast<int>] of a value whose truncation does not fit [int]
      is undefined behaviour in C++ and is kept apart from the defined
      results.
    - [std::string] is [string]; a byte of a pixel buffer is a [Z] in
      [0, 256).
    - a function that mutates a buffer passed by reference and may throw is
      a computation of the monad [Canvas]: buffer in, result or fault and
      buffer out. *)

From Stdlib Require Import ZArith QArith Reals Lra Lia List Ascii String Bool.
From Stdlib Require Import Qround Zfloor DecimalString DecimalN DecimalZ.
From Corelib Require Import SpecFloat.
From stdpp Require Import base option list gmap strings.
Import ListNotations.
Open Scope string_scope.
Open Scope list_scope.
Open Scope Z_scope.

(** ** Numbers *)

Definition INT_MIN : Z := -2147483648.
Definition INT_MAX : Z := 2147483647.

(** Two's-complement wrap-around of a 32-bit [int]. *)
Definition int_wrap (z : Z) : Z := (z + 2147483648) mod 4294967296 - 2147483648.

(** Arithmetic of [size_t] on a 64-bit target. *)
Definition size_wrap (z : Z) : Z := z mod 18446744073709551616.

(** [static_cast<uint8_t>] of an [int]. *)
Definition to_uint8 (z : Z) : Z := z mod 256.

(** The operations the code uses on [double]. *)
Class DoubleArith (D : Type) := {
  d_lit : Q -> D;          (* a literal of the source text, or an int converted *)
  d_sub : D -> D -> D;
  d_mul : D -> D -> D;
  d_div : D -> D -> D;
  d_ltb : D -> D -> bool;  (* operator< *)
  d_trunc : D -> Z         (* the integer part, rounding toward zero *)
}.

Definition d_of_int {D} `{DoubleArith D} (n : Z) : D := d_lit (inject_Z n).

(** [static_cast<int>(x)]: the truncated value when it is representable,
    undefined otherwise. *)
Definition static_cast_int {D} `{DoubleArith D} (x : D) : option Z :=
  let t := d_trunc x in
  if (INT_MIN <=? t) && (t <=? INT_MAX) then Some t else None.

Definition Qltb (a b : Q) : bool := (Qnum a * QDen b <? Qnum b * QDen a)%Z.
Definition Qtrunc (q : Q) : Z := Z.quot (Qnum q) (Zpos (Qden q)).

(** Exact arithmetic on the rationals: nothing is rounded, so that a
    result can differ from the one of binary64.  It serves for the sample
    requests and for what is stated of exact arithmetic. *)
#[export] Instance Q_double : DoubleArith Q := {|
  d_lit := fun q => q;
  d_sub := Qminus; d_mul := Qmult; d_div := Qdiv;
  d_ltb := Qltb;
  d_trunc := Qtrunc
|}.

Definition Rltb (a b : R) : bool := if Rlt_dec a b then true else false.
Definition Rtrunc (x : R) : Z := if Rle_dec 0 x then Zfloor x else Zceil x.

(** Exact arithmetic on the reals, for the tile bounding box. *)
#[export] Instance R_double : DoubleArith R := {|
  d_lit := Q2R;
  d_sub := Rminus; d_mul := Rmult; d_div := Rdiv;
  d_ltb := Rltb;
  d_trunc := Rtrunc
|}.

(** *** binary64

    The [double] of the targets the server is built for is IEEE 754
    binary64: 53 bits of precision, the infinities at exponent 1024, and
    every operation rounded to the nearest value, ties to even.  The
    values and the operations are those of [SpecFloat]. *)

Definition prec64 : Z := 53.
Definition emax64 : Z := 1024.

(** The conversion of an integer, exact for an [int]. *)
Definition b64_of_Z (n : Z) : spec_float := binary_normalize prec64 emax64 n 0 false.

(** A literal, rounded to the nearest double: an integer is converted
    as it is, a fraction is the quotient of its numerator and its
    denominator, both below 2^53. *)
Definition b64_lit (q : Q) : spec_float :=
  match Qden q with
  | xH => b64_of_Z (Qnum q)
  | d => SFdiv prec64 emax64 (b64_of_Z (Qnum q)) (b64_of_Z (Zpos d))
  end.

(** The value is a number: a zero or a finite value. *)
Definition is_number (x : spec_float) : bool :=
  match x with
  | S754_zero _ | S754_finite _ _ _ => true
  | S754_infinity _ | S754_nan => false
  end.

(** The rational number a double stands for, [m * 2^e] with its sign. *)
Definition SF2Q (x : spec_float) : Q :=
  match x with
  | S754_finite s m e =>
      let n := if s then Zneg m else Zpos m in
      match e with
      | Zneg p => n # (2 ^ p)
      | _ => inject_Z (n * 2 ^ e)
      end
  | _ => 0%Q
  end.

(** The integer part of a double.  An infinity and a NaN have none: they
    are given a magnitude no integer type holds, which makes their
    conversion undefined. *)
Definition b64_trunc (x : spec_float) : Z :=
  match x with
  | S754_nan => 2 ^ 1024
  | S754_infinity s => if s then - 2 ^ 1024 else 2 ^ 1024
  | _ => Qtrunc (SF2Q x)
  end.

#[export] Instance B64_double : DoubleArith spec_float := {|
  d_lit := b64_lit;
  d_sub := SFsub prec64 emax64;
  d_mul := SFmul prec64 emax64;
  d_div := SFdiv prec64 emax64;
  d_ltb := SFltb;
  d_trunc := b64_trunc
|}.

(** ** RenderEngine.h: BoundingBox *)

Record BoundingBox (D : Type) := mkBoundingBox {
  m_dMinX : D;
  m_dMinY : D;
  m_dMaxX : D;
  m_dMaxY : D
}.
Arguments mkBoundingBox {D} _ _ _ _.
Arguments m_dMinX {D} _.
Arguments m_dMinY {D} _.
Arguments m_dMaxX {D} _.
Arguments m_dMaxY {D} _.

(** What a call of [WorldToPixel] does: return [false] and leave the
    outputs alone, return [true] with both outputs written, or run into
    an undefined conversion. *)
Inductive PixelResult :=
| PixelFalse
| PixelTrue (nPixelX nPixelY : Z)
| PixelUndefined.

(** [std::max(0, std::min(n - 1, v))] *)
Definition clamp_pixel (n v : Z) : Z := Z.max 0 (Z.min (n - 1) v).

Section Geometry.
Context {D : Type} `{DoubleArith D}.

Definition IsValid (b : BoundingBox D) : bool :=
  d_ltb (m_dMinX b) (m_dMaxX b) && d_ltb (m_dMinY b) (m_dMaxY b).

Definition Width (b : BoundingBox D) : D := d_sub (m_dMaxX b) (m_dMinX b).
Definition Height (b : BoundingBox D) : D := d_sub (m_dMaxY b) (m_dMinY b).

(** RenderEngine.cpp, RenderEngine::WorldToPixel *)
Definition WorldToPixel (dWorldX dWorldY : D) (bbox : BoundingBox D)
    (nWidth nHeight : Z) : PixelResult :=
  if negb (IsValid bbox) || (nWidth <=? 0) || (nHeight <=? 0) then PixelFalse
  else
    let dXPercent := d_div (d_sub dWorldX (m_dMinX bbox)) (Width bbox) in
    let dYPercent := d_div (d_sub dWorldY (m_dMinY bbox)) (Height bbox) in
    match static_cast_int (d_mul dXPercent (d_of_int nWidth)),
          static_cast_int (d_mul (d_sub (d_lit 1) dYPercent) (d_of_int nHeight)) with
    | Some nPixelX, Some nPixelY =>
        PixelTrue (clamp_pixel nWidth nPixelX) (clamp_pixel nHeight nPixelY)
    | _, _ => PixelUndefined
    end.
End Geometry.

(** The formula of the specification, for comparison: the scaled value is
    rounded to the nearest integer (halves away from zero, as C's [round])
    before it is clamped. *)
Definition Qround_half_away (q : Q) : Z :=
  if Qltb q 0 then Qceiling (q - (1 # 2)) else Qfloor (q + (1 # 2)).

Definition WorldToPixel_spec (worldX worldY : Q) (bbox : BoundingBox Q)
    (width height : Z) : option (Z * Z) :=
  if IsValid bbox && (0 <? width) && (0 <? height) then
    let xPercent := ((worldX - m_dMinX bbox) / Width bbox)%Q in
    let yPercent := ((worldY - m_dMinY bbox) / Height bbox)%Q in
    Some (clamp_pixel width (Qround_half_away (xPercent * inject_Z width)),
          clamp_pixel height (Qround_half_away ((1 - yPercent) * inject_Z height)))
  else None.

(** The scaled coordinates [WorldToPixel] converts to [int]. *)
Definition scaledX (wx : Q) (bbox : BoundingBox Q) (w : Z) : Q :=
  ((wx - m_dMinX bbox) / Width bbox * inject_Z w)%Q.
Definition scaledY (wy : Q) (bbox : BoundingBox Q) (h : Z) : Q :=
  ((1 - (wy - m_dMinY bbox) / Height bbox) * inject_Z h)%Q.

Definition box_0_4 : BoundingBox Q := mkBoundingBox 0%Q 0%Q 4%Q 4%Q.

(** The same in binary64: the doubles [WorldToPixel] converts to [int],
    each operation rounded. *)
Definition scaledX64 (wx : spec_float) (bbox : BoundingBox spec_float) (w : Z)
    : spec_float :=
  d_mul (d_div (d_sub wx (m_dMinX bbox)) (Width bbox)) (d_of_int w).
Definition scaledY64 (wy : spec_float) (bbox : BoundingBox spec_float) (h : Z)
    : spec_float :=
  d_mul (d_sub (d_lit 1) (d_div (d_sub wy (m_dMinY bbox)) (Height bbox))) (d_of_int h).

(** The boxes (0,0,4,4) and (0,0,49,49) in binary64. *)
Definition box64_0_4 : BoundingBox spec_float :=
  mkBoundingBox (d_of_int 0) (d_of_int 0) (d_of_int 4) (d_of_int 4).
Definition box64_0_49 : BoundingBox spec_float :=
  mkBoundingBox (d_of_int 0) (d_of_int 0) (d_of_int 49) (d_of_int 49).
Definition box_0_49 : BoundingBox Q := mkBoundingBox 0%Q 0%Q 49%Q 49%Q.

(** ** Strings and [std::stoi] *)

Definition code (c : ascii) : Z := Z.of_N (N_of_ascii c).

(** [isspace] in the C locale. *)
Definition isspace (c : ascii) : bool :=
  (code c =? 32) || ((9 <=? code c) && (code c <=? 13)).

Definition hex_digit (c : ascii) : option Z :=
  let n := code c in
  if (48 <=? n) && (n <=? 57) then Some (n - 48)
  else if (97 <=? n) && (n <=? 102) then Some (n - 87)
  else if (65 <=? n) && (n <=? 70) then Some (n - 55)
  else None.

Definition is_hex (c : ascii) : bool :=
  match hex_digit c with Some _ => true | None => false end.

Fixpoint skip_space (s : list ascii) : list ascii :=
  match s with
  | c :: t => if isspace c then skip_space t else s
  | [] => []
  end.

(** The value of the longest prefix of hexadecimal digits, continuing
    from [acc]. *)
Fixpoint hex_run (acc : Z) (s : list ascii) : Z :=
  match s with
  | c :: t => match hex_digit c with
              | Some d => hex_run (16 * acc + d) t
              | None => acc
              end
  | [] => acc
  end.

Inductive exn := std_invalid_argument | std_out_of_range.

(** [std::stoi(s, nullptr, 16)]: white space is skipped, a sign and a
    [0x] prefix are accepted, the longest run of hexadecimal digits is
    converted; no digit at all throws [std::invalid_argument], a value
    outside [int] throws [std::out_of_range]. *)
Definition stoi16 (s : string) : Z + exn :=
  let s1 := skip_space (list_ascii_of_string s) in
  let '(neg, s2) :=
    match s1 with
    | c :: t => if (code c =? 45) then (true, t)
                else if (code c =? 43) then (false, t)
                else (false, s1)
    | [] => (false, s1)
    end in
  let s3 :=
    match s2 with
    | z :: x :: h :: t =>
        if (code z =? 48) && ((code x =? 120) || (code x =? 88)) && is_hex h
        then h :: t else s2
    | _ => s2
    end in
  match s3 with
  | c :: _ =>
      if is_hex c then
        let v := if neg then - hex_run 0 s3 else hex_run 0 s3 in
        if (INT_MIN <=? v) && (v <=? INT_MAX) then inl v else inr std_out_of_range
      else inr std_invalid_argument
  | [] => inr std_invalid_argument
  end.

(** [std::to_string] and [operator<<] on an [int]. *)
Definition string_of_int (z : Z) : string := NilZero.string_of_int (Z.to_int z).

(** [std::to_string] on a [size_t]. *)
Definition string_of_size (n : N) : string := NilZero.string_of_uint (N.to_uint n).

(** ** The state a render works on *)

(** The engine's error string together with the pixel buffer a member
    function receives by reference. *)
Record Frame := mkFrame {
  m_strError : string;
  vecImageData : list Z
}.

(** Why a call does not return: a C++ exception, or an access outside a
    vector. *)
Inductive fault := Throw (e : exn) | OutOfBounds.

Definition Canvas (A : Type) : Type := Frame -> (A + fault) * Frame.

Definition ret {A} (a : A) : Canvas A := fun fr => (inl a, fr).

Definition bind {A B} (m : Canvas A) (k : A -> Canvas B) : Canvas B :=
  fun fr =>
    match m fr with
    | (inl a, fr') => k a fr'
    | (inr f, fr') => (inr f, fr')
    end.

Notation "'let*' x ':=' m 'in' k" := (bind m (fun x => k))
  (at level 10, x name, m at level 100, k at level 200).

Definition raise {A} (e : exn) : Canvas A := fun fr => (inr (Throw e), fr).

(** [SetError(strError)] *)
Definition SetError (strError : string) : Canvas unit :=
  fun fr => (inl tt, mkFrame strError (vecImageData fr)).

(** [vecImageData.size()] *)
Definition vec_size : Canvas Z :=
  fun fr => (inl (Z.of_nat (length (vecImageData fr))), fr).

(** [vecImageData.data()], the bytes handed to the encoder. *)
Definition vec_data : Canvas (list Z) :=
  fun fr => (inl (vecImageData fr), fr).

(** The declaration of an empty local vector. *)
Definition vec_new : Canvas unit :=
  fun fr => (inl tt, mkFrame (m_strError fr) []).

(** [vecImageData.resize(n)]: new elements are zero. *)
Definition vec_resize (n : Z) : Canvas unit :=
  fun fr =>
    let v := vecImageData fr in
    (inl tt, mkFrame (m_strError fr)
               (take (Z.to_nat n) v ++ replicate (Z.to_nat n - length v) 0)).

(** [vecImageData[i] = b], an access outside the vector being a fault. *)
Definition vec_set (i b : Z) : Canvas unit :=
  fun fr =>
    let v := vecImageData fr in
    if (0 <=? i) && (i <? Z.of_nat (length v))
    then (inl tt, mkFrame (m_strError fr) (<[Z.to_nat i := b]> v))
    else (inr OutOfBounds, fr).

(** The four stores of one pixel, [vecImageData[i] = r] up to
    [vecImageData[i + 3] = a]. *)
Definition store_pixel (i r g b a : Z) : Canvas unit :=
  let* _ := vec_set i r in
  let* _ := vec_set (size_wrap (i + 1)) g in
  let* _ := vec_set (size_wrap (i + 2)) b in
  vec_set (size_wrap (i + 3)) a.

Fixpoint for_each {A} (l : list A) (body : A -> Canvas unit) : Canvas unit :=
  match l with
  | [] => ret tt
  | x :: t => let* _ := body x in for_each t body
  end.

(** The integers [lo, lo+1, ..., hi] of a loop [for (i = lo; i <= hi; ++i)]. *)
Definition int_range (lo hi : Z) : list Z :=
  map (fun k => lo + Z.of_nat k) (seq 0 (Z.to_nat (hi - lo + 1))).

(** The indices [0, 4, 8, ...] below [n] of a loop
    [for (i = 0; i < n; i += 4)]. *)
Definition stride4 (n : Z) : list Z :=
  map (fun k => 4 * Z.of_nat k) (seq 0 (Z.to_nat ((n + 3) / 4))).

(** The first character of a non-empty string is [#]. *)
Definition starts_with_hash (s : string) : bool :=
  match s with
  | String c _ => code c =? 35
  | EmptyString => false
  end.

(** [s.substr(1)] *)
Definition substr1 (s : string) : string :=
  match s with
  | String _ t => t
  | EmptyString => EmptyString
  end.

Definition strlen (s : string) : Z := Z.of_nat (String.length s).

(** ** Colour strings *)

(** [static_cast<uint8_t>(std::stoi(hex.substr(pos, 2), nullptr, 16))] *)
Definition hex_channel (hex : string) (pos : nat) : Z + exn :=
  match stoi16 (substring pos 2 hex) with
  | inl v => inl (to_uint8 v)
  | inr e => inr e
  end.

(** The colour parse of [CreateBlankImage]: opaque white unless the
    string starts with [#] and has six or eight characters after it; the
    conversions are made in the order r, g, b, a and the first one that
    throws ends the parse. *)
Definition background_rgba (strBgColor : string) : (Z * Z * Z * Z) + exn :=
  let hex := substr1 strBgColor in
  if starts_with_hash strBgColor && ((strlen hex =? 6) || (strlen hex =? 8)) then
    match hex_channel hex 0 with
    | inr e => inr e
    | inl r =>
    match hex_channel hex 2 with
    | inr e => inr e
    | inl g =>
    match hex_channel hex 4 with
    | inr e => inr e
    | inl b =>
        if strlen hex =? 8 then
          match hex_channel hex 6 with
          | inr e => inr e
          | inl a => inl (r, g, b, a)
          end
        else inl (r, g, b, 255)
    end end end
  else inl (255, 255, 255, 255).

(** The colour parse of [DrawFeatures]: the defaults are kept unless the
    string starts with [#] and has at least six characters after it. *)
Definition style_rgb (color : string) (r0 g0 b0 : Z) : (Z * Z * Z) + exn :=
  let hex := substr1 color in
  if starts_with_hash color && (6 <=? strlen hex) then
    match hex_channel hex 0 with
    | inr e => inr e
    | inl r =>
    match hex_channel hex 2 with
    | inr e => inr e
    | inl g =>
    match hex_channel hex 4 with
    | inr e => inr e
    | inl b => inl (r, g, b)
    end end end
  else inl (r0, g0, b0).

(** A value, or the exception thrown in its place. *)
Definition lift {A} (r : A + exn) : Canvas A :=
  match r with
  | inl a => ret a
  | inr e => raise e
  end.

Definition parses {A} (r : A + exn) : bool :=
  match r with inl _ => true | inr _ => false end.

(** ** RenderEngine.cpp: CreateBlankImage *)

Definition CreateBlankImage (nWidth nHeight : Z) (strBgColor : string) : Canvas bool :=
  if (nWidth <=? 0) || (nHeight <=? 0) then
    let* _ := SetError "Invalid image dimensions" in ret false
  else
    let* rgba := lift (background_rgba strBgColor) in
    let '(r, g, b, a) := rgba in
    let nDataSize := size_wrap (size_wrap (size_wrap nWidth * size_wrap nHeight) * 4) in
    let* _ := vec_resize nDataSize in
    let* _ := for_each (stride4 nDataSize) (fun i => store_pixel i r g b a) in
    ret true.

(** ** RenderEngine.h: LayerStyle *)

Record LayerStyle := mkLayerStyle {
  m_strFillColor : string;
  m_strStrokeColor : string;
  m_nStrokeWidth : Z;
  m_nOpacity : Z;
  m_nPointRadius : Z;
  m_strPointColor : string;
  m_strLineColor : string;
  m_nLineWidth : Z
}.

(** The member initialisers of [LayerStyle]. *)
Definition LayerStyle_default : LayerStyle :=
  mkLayerStyle "#cccccc" "#000000" 1 255 3 "#ff0000" "#0000ff" 2.

(** ** RenderEngine.cpp: DrawFeatures *)

(** [(static_cast<size_t>(y) * nWidth + x) * 4] *)
Definition pixel_index (y nWidth x : Z) : Z :=
  size_wrap (size_wrap (size_wrap y * size_wrap nWidth + size_wrap x) * 4).

(** The guarded store of one pixel:
    [if (index + 3 < vecImageData.size()) { ... }] *)
Definition put_pixel (index r g b a : Z) : Canvas unit :=
  let* n := vec_size in
  if size_wrap (index + 3) <? n then store_pixel index r g b a else ret tt.

(** The list of features is always empty at the call sites and is not
    consulted; [bbox] is received and not used. *)
Definition DrawFeatures {D} (style : LayerStyle) (nWidth nHeight : Z)
    (bbox : BoundingBox D) : Canvas bool :=
  let a := to_uint8 (m_nOpacity style) in
  let* fill := lift (style_rgb (m_strFillColor style) 255 0 0) in
  let '(r, g, b) := fill in
  let centerX := Z.quot nWidth 2 in
  let centerY := Z.quot nHeight 2 in
  let rectWidth := Z.quot nWidth 4 in
  let rectHeight := Z.quot nHeight 4 in
  let startX := int_wrap (centerX - Z.quot rectWidth 2) in
  let startY := int_wrap (centerY - Z.quot rectHeight 2) in
  let endX := int_wrap (startX + rectWidth) in
  let endY := int_wrap (startY + rectHeight) in
  let startX := Z.max 0 startX in
  let startY := Z.max 0 startY in
  let endX := Z.min (int_wrap (nWidth - 1)) endX in
  let endY := Z.min (int_wrap (nHeight - 1)) endY in
  let* _ := for_each (int_range startY endY) (fun y =>
              for_each (int_range startX endX) (fun x =>
                put_pixel (pixel_index y nWidth x) r g b a)) in
  let* stroke := lift (style_rgb (m_strStrokeColor style) 0 0 0) in
  let '(strokeR, strokeG, strokeB) := stroke in
  let strokeWidth := Z.max 1 (m_nStrokeWidth style) in
  let widths := int_range 0 (strokeWidth - 1) in
  (* top edge *)
  let* _ := for_each widths (fun w =>
              let y := int_wrap (startY + w) in
              if y <? nHeight then
                for_each (int_range startX endX) (fun x =>
                  put_pixel (pixel_index y nWidth x) strokeR strokeG strokeB a)
              else ret tt) in
  (* bottom edge *)
  let* _ := for_each widths (fun w =>
              let y := int_wrap (endY - w) in
              if 0 <=? y then
                for_each (int_range startX endX) (fun x =>
                  put_pixel (pixel_index y nWidth x) strokeR strokeG strokeB a)
              else ret tt) in
  (* left edge *)
  let* _ := for_each widths (fun w =>
              let x := int_wrap (startX + w) in
              if x <? nWidth then
                for_each (int_range startY endY) (fun y =>
                  put_pixel (pixel_index y nWidth x) strokeR strokeG strokeB a)
              else ret tt) in
  (* right edge *)
  let* _ := for_each widths (fun w =>
              let x := int_wrap (endX - w) in
              if 0 <=? x then
                for_each (int_range startY endY) (fun y =>
                  put_pixel (pixel_index y nWidth x) strokeR strokeG strokeB a)
              else ret tt) in
  ret true.

(** ** Config.h: ServerConfig *)

(** The limits the renderer and the validator read; the other fields of
    the structure (host, port, cache and log settings) play no part. *)
Record ServerConfig := mkServerConfig {
  m_nMaxImageWidth : Z;
  m_nMaxImageHeight : Z
}.

(** Config.cpp, GetDefaultConfig: the member initialisers. *)
Definition GetDefaultConfig : ServerConfig := mkServerConfig 4096 4096.

(** ** RenderEngine.h: MapRequest *)

Record MapRequest (D : Type) := mkMapRequest {
  m_bbox : BoundingBox D;
  m_nWidth : Z;
  m_nHeight : Z;
  m_vecLayers : list string;
  m_mapStyles : gmap string LayerStyle;
  m_strBackgroundColor : string;
  m_strFilter : string
}.
Arguments mkMapRequest {D} _ _ _ _ _ _ _.
Arguments m_bbox {D} _.
Arguments m_nWidth {D} _.
Arguments m_nHeight {D} _.
Arguments m_vecLayers {D} _.
Arguments m_mapStyles {D} _.
Arguments m_strBackgroundColor {D} _.
Arguments m_strFilter {D} _.

(** ** RenderEngine.cpp: MapRequest::GenerateCacheKey *)

Section CacheKey.
Context {D : Type}.
(** [operator<<] of an output stream on a [double], and
    [std::hash<std::string>]: both belong to the C++ library. *)
Variable fmt_double : D -> string.
Variable std_hash : string -> N.

(** What the loop over [m_vecLayers] appends to the stream. *)
Fixpoint layers_text (layers : list string) : string :=
  match layers with
  | [] => ""
  | layer :: t => ",layer:" +:+ layer +:+ layers_text t
  end.

(** [oss.str()] *)
Definition cache_key_text (r : MapRequest D) : string :=
  fmt_double (m_dMinX (m_bbox r)) +:+ "," +:+
  fmt_double (m_dMinY (m_bbox r)) +:+ "," +:+
  fmt_double (m_dMaxX (m_bbox r)) +:+ "," +:+
  fmt_double (m_dMaxY (m_bbox r)) +:+ "," +:+
  string_of_int (m_nWidth r) +:+ "x" +:+ string_of_int (m_nHeight r) +:+
  ",bg:" +:+ m_strBackgroundColor r +:+
  layers_text (m_vecLayers r).

Definition GenerateCacheKey (r : MapRequest D) : string :=
  string_of_size (std_hash (cache_key_text r)).
End CacheKey.

(** ** RenderEngine.cpp: RenderMap *)

(** The members of the engine [RenderMap] reads; [m_strError] is in the
    [Frame]. *)
Record RenderEngine := mkRenderEngine {
  m_config : ServerConfig;
  m_bInitialized : bool
}.

(** Both colours of a style parse without an exception. *)
Definition style_ok (style : LayerStyle) : bool :=
  parses (style_rgb (m_strFillColor style) 255 0 0) &&
  parses (style_rgb (m_strStrokeColor style) 0 0 0).

(** The style [RenderMap] builds when no layer is named. *)
Definition defaultStyle : LayerStyle :=
  mkLayerStyle "#cccccc" "#000000" 2 255 3 "#ff0000" "#0000ff" 2.

(** [style = it->second] when the name is found, a default-constructed
    [LayerStyle] otherwise. *)
Definition style_for (styles : gmap string LayerStyle) (layerName : string) : LayerStyle :=
  default LayerStyle_default (styles !! layerName).

Section Render.
Context {D : Type} `{DoubleArith D}.
(** PngEncoder::EncodeToMemory (libpng) and the error text of a newly
    constructed encoder. *)
Variable EncodeToMemory : list Z -> Z -> Z -> option (list Z).
Variable fresh_encoder_error : string.

(** The loop over the named layers, left at the first [false]. *)
Fixpoint draw_layers (request : MapRequest D) (layers : list string) : Canvas bool :=
  match layers with
  | [] => ret true
  | layerName :: t =>
      let style := style_for (m_mapStyles request) layerName in
      let* ok := DrawFeatures style (m_nWidth request) (m_nHeight request)
                   (m_bbox request) in
      if ok then draw_layers request t else ret false
  end.

(** The result is [Some png] for [true] with [vecPngData] written and
    [None] for [false].  The buffer of the frame is the local
    [vecImageData]: it starts empty, and the frame still shows it when
    the function is left. *)
Definition RenderMap (eng : RenderEngine) (request : MapRequest D)
    : Canvas (option (list Z)) :=
  if negb (m_bInitialized eng) then
    let* _ := SetError "RenderEngine not initialized" in ret None
  else if negb (IsValid (m_bbox request)) then
    let* _ := SetError "Invalid bounding box" in ret None
  else if (m_nWidth request <=? 0) || (m_nHeight request <=? 0) ||
          (m_nMaxImageWidth (m_config eng) <? m_nWidth request) ||
          (m_nMaxImageHeight (m_config eng) <? m_nHeight request) then
    let* _ := SetError "Invalid image dimensions" in ret None
  else
    let* _ := vec_new in
    let* created := CreateBlankImage (m_nWidth request) (m_nHeight request)
                      (m_strBackgroundColor request) in
    if negb created then ret None
    else
      let* drawn :=
        match m_vecLayers request with
        | [] => DrawFeatures defaultStyle (m_nWidth request) (m_nHeight request)
                  (m_bbox request)
        | _ :: _ => draw_layers request (m_vecLayers request)
        end in
      if negb drawn then ret None
      else
        let* pData := vec_data in
        match EncodeToMemory pData (m_nWidth request) (m_nHeight request) with
        | Some png => ret (Some png)
        | None =>
            let* _ := SetError ("Failed to encode PNG: " +:+ fresh_encoder_error) in
            ret None
        end.
End Render.

(** ** HttpServer.cpp: validation *)

(** [true], or [false] with the text stored in [strError]. *)
Inductive Validation := Valid | Invalid (strError : string).

Definition ValidateTileParameters (z x y : Z) : Validation :=
  if (z <? 0) || (20 <? z) then Invalid "Zoom level must be between 0 and 20"
  else
    let maxTile := int_wrap (Z.shiftl 1 z - 1) in
    if (x <? 0) || (maxTile <? x) then
      Invalid ("Tile X coordinate must be between 0 and " +:+ string_of_int maxTile)
    else if (y <? 0) || (maxTile <? y) then
      Invalid ("Tile Y coordinate must be between 0 and " +:+ string_of_int maxTile)
    else Valid.

(** A character a layer name may contain. *)
Definition layer_char (c : ascii) : bool :=
  let n := code c in
  ((97 <=? n) && (n <=? 122)) || ((65 <=? n) && (n <=? 90)) ||
  ((48 <=? n) && (n <=? 57)) || (n =? 95) || (n =? 45).

Fixpoint validate_layers (layers : list string) : Validation :=
  match layers with
  | [] => Valid
  | layer :: t =>
      if String.eqb layer "" then Invalid "Layer names cannot be empty"
      else if negb (forallb layer_char (list_ascii_of_string layer)) then
        Invalid ("Layer name '" +:+ layer +:+ "' contains invalid characters. " +:+
                 "Only letters, numbers, underscores and hyphens are allowed")
      else validate_layers t
  end.

Definition validate_background (color : string) : Validation :=
  if String.eqb color "" then Valid
  else if negb (starts_with_hash color) ||
          (negb (strlen color =? 7) && negb (strlen color =? 4)) then
    Invalid "Background color must be in format #RRGGBB or #RGB"
  else if negb (forallb is_hex (list_ascii_of_string (substr1 color))) then
    Invalid "Background color contains invalid hexadecimal characters"
  else Valid.

Section Validate.
Context {D : Type} `{DoubleArith D}.

Definition ValidateMapRequestParameters (config : ServerConfig)
    (request : MapRequest D) : Validation :=
  if negb (IsValid (m_bbox request)) then
    Invalid "Invalid bounding box. minX must be less than maxX and minY less than maxY"
  else
    let minX := m_dMinX (m_bbox request) in
    let minY := m_dMinY (m_bbox request) in
    let maxX := m_dMaxX (m_bbox request) in
    let maxY := m_dMaxY (m_bbox request) in
    if d_ltb minX (d_lit (-180)) || d_ltb (d_lit 180) maxX then
      Invalid "Longitude values must be between -180 and 180 degrees"
    else if d_ltb minY (d_lit (-90)) || d_ltb (d_lit 90) maxY then
      Invalid "Latitude values must be between -90 and 90 degrees"
    else if (m_nWidth request <=? 0) || (m_nHeight request <=? 0) then
      Invalid "Image width and height must be positive"
    else if m_nMaxImageWidth config <? m_nWidth request then
      Invalid ("Image width exceeds maximum allowed value of " +:+
               string_of_int (m_nMaxImageWidth config))
    else if m_nMaxImageHeight config <? m_nHeight request then
      Invalid ("Image height exceeds maximum allowed value of " +:+
               string_of_int (m_nMaxImageHeight config))
    else
      match validate_background (m_strBackgroundColor request) with
      | Invalid e => Invalid e
      | Valid => validate_layers (m_vecLayers request)
      end.
End Validate.

(** ** HttpServer.cpp: the request handlers *)

(** What [HandleGenerateRequest] answers once the body has been parsed
    into a request: an error document
    [GenerateErrorResponse(strCode, strMessage)], the PNG bytes, or
    nothing because an exception left the handler. *)
Inductive GenerateReply :=
| ErrorReply (strCode strMessage : string)
| PngReply (png : list Z)
| Aborted (f : fault).

(** Web-Mercator inverse of a tile address, as the handler computes it
    for the [x-bbox] header: [lonLeft, latBottom, lonRight, latTop]. *)
Definition M_PI : Q := 31415926535893756 # 10000000000000000.

Definition tile_bbox (z x y : Z) : BoundingBox R :=
  let n := powerRZ 2 z in
  let tileX := IZR x in
  let tileY := IZR y in
  let pi := Q2R M_PI in
  let lonLeft := (tileX / n * 360 - 180)%R in
  let lonRight := ((tileX + 1) / n * 360 - 180)%R in
  let latTop := (atan (sinh (pi * (1 - 2 * tileY / n))) * 180 / pi)%R in
  let latBottom := (atan (sinh (pi * (1 - 2 * (tileY + 1) / n))) * 180 / pi)%R in
  mkBoundingBox lonLeft latBottom lonRight latTop.

Definition tile_text (z x y : Z) : string :=
  "Z:" +:+ string_of_int z +:+ " X:" +:+ string_of_int x +:+ " Y:" +:+ string_of_int y.

(** The 256x256 test tile: a uniform shade chosen by the parity of
    [x + y], and a red 8x8 block per character of the label. *)
Definition TileImage (z x y : Z) : Canvas unit :=
  let tileSize := 256 in
  let* _ := vec_new in
  let* _ := vec_resize (tileSize * tileSize * 4) in
  let dark := Z.rem (int_wrap (x + y)) 2 =? 0 in
  let shade := if dark then 100 else 200 in
  let* _ := for_each (int_range 0 (tileSize - 1)) (fun py =>
              for_each (int_range 0 (tileSize - 1)) (fun px =>
                let index := (py * tileSize + px) * 4 in
                store_pixel index shade shade shade 255)) in
  let* _ := for_each (int_range 0 (Z.min (strlen (tile_text z x y)) 20 - 1)) (fun i =>
              let px := 10 + i * 8 in
              let py := 20 in
              for_each (int_range 0 7) (fun dy =>
                for_each (int_range 0 7) (fun dx =>
                  let xpos := px + dx in
                  let ypos := py + dy in
                  if (xpos <? tileSize) && (ypos <? tileSize) then
                    let index := (ypos * tileSize + xpos) * 4 in
                    store_pixel index 255 0 0 255
                  else ret tt))) in
  ret tt.

(** What [HandleTileRequest] answers: status 400 with an empty body, the
    PNG bytes with the bounding box of the tile in the [x-bbox] header, or
    an empty body when the encoder fails. *)
Inductive TileReply :=
| TileRejected (strError : string)
| TilePng (png : list Z) (x_bbox : BoundingBox R)
| TileEmpty.

Section Handlers.
Context {D : Type} `{DoubleArith D}.
Variable EncodeToMemory : list Z -> Z -> Z -> option (list Z).
Variable fresh_encoder_error : string.

(** HandleGenerateRequest, from the validation on.  The file written
    and the timing headers are left out. *)
Definition HandleGenerateRequest (config : ServerConfig) (eng : RenderEngine)
    (request : MapRequest D) (fr : Frame) : GenerateReply :=
  match ValidateMapRequestParameters config request with
  | Invalid validationError => ErrorReply "INVALID_REQUEST" validationError
  | Valid =>
      match RenderMap EncodeToMemory fresh_encoder_error eng request fr with
      | (inl (Some vecPngData), _) => PngReply vecPngData
      | (inl None, fr') => ErrorReply "RENDER_FAILED" (m_strError fr')
      | (inr f, _) => Aborted f
      end
  end.

(** HandleTileRequest.  The file written and the timing headers are
    left out. *)
Definition HandleTileRequest (z x y : Z) : Canvas TileReply :=
  match ValidateTileParameters z x y with
  | Invalid validationError => ret (TileRejected validationError)
  | Valid =>
      let* _ := TileImage z x y in
      let* pData := vec_data in
      match EncodeToMemory pData 256 256 with
      | Some png => ret (TilePng png (tile_bbox z x y))
      | None => ret TileEmpty
      end
  end.
End Handlers.

(** ** Sample requests *)

Definition world_box : BoundingBox Q := mkBoundingBox (-180)%Q (-90)%Q 180%Q 90%Q.

(** A request with no layers, no styles and no filter. *)
Definition plain_request (bbox : BoundingBox Q) (w h : Z) (bg : string) : MapRequest Q :=
  mkMapRequest bbox w h [] ∅ bg "".

(** A request that breaks every rule of the validator at once. *)
Definition all_wrong_request : MapRequest Q :=
  mkMapRequest (mkBoundingBox (-181)%Q (-90)%Q 0%Q 90%Q) 4097 0 [""] ∅ "#12345" "".

(** ** Comparing requests *)

(** No comma in a layer name; the validator admits only such names. *)
Definition comma_free (s : string) : bool :=
  forallb (fun c => negb (code c =? 44)) (list_ascii_of_string s).

Section Compare.
Context {D : Type}.

(** Every field but the layer list agrees, and the two layer lists hold
    the same names in a different order. *)
Definition differ_only_in_layer_order (r1 r2 : MapRequest D) : Prop :=
  m_bbox r1 = m_bbox r2 /\ m_nWidth r1 = m_nWidth r2 /\
  m_nHeight r1 = m_nHeight r2 /\ m_mapStyles r1 = m_mapStyles r2 /\
  m_strBackgroundColor r1 = m_strBackgroundColor r2 /\
  m_strFilter r1 = m_strFilter r2 /\
  Permutation (m_vecLayers r1) (m_vecLayers r2) /\
  m_vecLayers r1 <> m_vecLayers r2.

Definition differ_only_in_styles (r1 r2 : MapRequest D) : Prop :=
  m_bbox r1 = m_bbox r2 /\ m_nWidth r1 = m_nWidth r2 /\
  m_nHeight r1 = m_nHeight r2 /\ m_vecLayers r1 = m_vecLayers r2 /\
  m_strBackgroundColor r1 = m_strBackgroundColor r2 /\
  m_strFilter r1 = m_strFilter r2.

Definition differ_only_in_filter (r1 r2 : MapRequest D) : Prop :=
  m_bbox r1 = m_bbox r2 /\ m_nWidth r1 = m_nWidth r2 /\
  m_nHeight r1 = m_nHeight r2 /\ m_vecLayers r1 = m_vecLayers r2 /\
  m_mapStyles r1 = m_mapStyles r2 /\
  m_strBackgroundColor r1 = m_strBackgroundColor r2.
End Compare.

(** Stand-ins for the two library functions, to run the key on. *)
Definition sample_fmt (q : Q) : string :=
  string_of_int (Qnum q) +:+ "/" +:+ string_of_int (Zpos (Qden q)).

Definition sample_hash (s : string) : N :=
  fold_left (fun h c => ((h * 33 + N_of_ascii c) mod 18446744073709551616)%N)
    (list_ascii_of_string s) 5381%N.

Definition layered_request (layers : list string) : MapRequest Q :=
  mkMapRequest world_box 256 256 layers ∅ "#ffffff" "".

(** ** A program logic for drawing code *)

(** [draws t m post]: run on any buffer and any error string, [m] keeps
    the length of the buffer, leaves the error string alone, produces a
    result and a buffer that do not depend on the error string, never
    touches the vector outside its bounds, returns only values satisfying
    [post], and throws only if [t] allows it. *)
Definition draws {A} (t : bool) (m : Canvas A) (post : A -> Prop) : Prop :=
  forall img, exists r img',
    length img' = length img /\
    (forall e, m (mkFrame e img) = (r, mkFrame e img')) /\
    match r with
    | inl a => post a
    | inr (Throw _) => t = true
    | inr OutOfBounds => False
    end.

(** ** Reading colours *)

Definition hex_value (c : ascii) : Z :=
  match hex_digit c with Some d => d | None => 0 end.

(** The byte two hexadecimal digits denote. *)
Definition hex_byte (c1 c2 : ascii) : Z := 16 * hex_value c1 + hex_value c2.

(** [#] followed by the given characters. *)
Definition hash_color (cs : list ascii) : string :=
  String "#" (string_of_list_ascii cs).

(** The parse the specification describes, for comparison: [#RGB] (each
    digit doubled) and [#RRGGBB] are read, anything else is opaque
    white. *)
Definition background_rgba_spec (color : string) : Z * Z * Z * Z :=
  match list_ascii_of_string color with
  | [h; r; g; b] =>
      if (code h =? 35) && forallb is_hex [r; g; b]
      then (hex_byte r r, hex_byte g g, hex_byte b b, 255)
      else (255, 255, 255, 255)
  | [h; r1; r2; g1; g2; b1; b2] =>
      if (code h =? 35) && forallb is_hex [r1; r2; g1; g2; b1; b2]
      then (hex_byte r1 r2, hex_byte g1 g2, hex_byte b1 b2, 255)
      else (255, 255, 255, 255)
  | _ => (255, 255, 255, 255)
  end.

Definition empty_frame : Frame := mkFrame "" [].

(** A style whose fill colour is the given string. *)
Definition filled_with (color : string) : LayerStyle :=
  mkLayerStyle color "#000000" 1 255 3 "#ff0000" "#0000ff" 2.

(** ** What a render composes *)

(** The buffer [DrawFeatures] leaves when it is given [img]. *)
Definition paint {D} (w h : Z) (bbox : BoundingBox D) (img : list Z)
    (style : LayerStyle) : list Z :=
  vecImageData (snd (DrawFeatures style w h bbox (mkFrame "" img))).

(** The buffer [CreateBlankImage] makes of a colour that parses. *)
Definition blank_image (w h : Z) (bg : string) : list Z :=
  match background_rgba bg with
  | inl (r, g, b, a) => concat (replicate (Z.to_nat (w * h)) [r; g; b; a])
  | inr _ => []
  end.

(** The styles a request is drawn with, in drawing order. *)
Definition styles_of {D} (request : MapRequest D) : list LayerStyle :=
  match m_vecLayers request with
  | [] => [defaultStyle]
  | _ :: _ => map (style_for (m_mapStyles request)) (m_vecLayers request)
  end.

(** The checks [RenderMap] makes itself, for limits that are [int]s. *)
Definition passes_render_checks {D} `{DoubleArith D} (eng : RenderEngine)
    (request : MapRequest D) : Prop :=
  m_bInitialized eng = true /\ IsValid (m_bbox request) = true /\
  0 < m_nWidth request <= m_nMaxImageWidth (m_config eng) /\
  0 < m_nHeight request <= m_nMaxImageHeight (m_config eng) /\
  m_nMaxImageWidth (m_config eng) <= INT_MAX /\
  m_nMaxImageHeight (m_config eng) <= INT_MAX.

Definition default_engine : RenderEngine := mkRenderEngine GetDefaultConfig true.

Definition small_box : BoundingBox Q := mkBoundingBox (-10)%Q (-10)%Q 10%Q 10%Q.

(** Two requests for the layer "roads" that differ in the style map
    only. *)
Definition styled_request : MapRequest Q :=
  mkMapRequest small_box 8 8 ["roads"] {["roads" := filled_with "#112233"]}
    "#ffffff" "".
Definition unstyled_request : MapRequest Q :=
  mkMapRequest small_box 8 8 ["roads"] ∅ "#ffffff" "".

(** A request that passes the checks of [RenderMap] with a background
    colour of six characters that are not hexadecimal digits. *)
Definition bad_background_request : MapRequest Q :=
  plain_request small_box 4 4 "#zzzzzz".

(** An encoder that hands the pixels back, to look at what is encoded. *)
Definition identity_encoder (img : list Z) (w h : Z) : option (list Z) := Some img.

(** * Further definitions *)

(** ** Characters of numbers *)

(** A character [std::to_string] can produce for an [int]. *)
Definition digit_or_minus (c : ascii) : bool :=
  ((48 <=? code c) && (code c <=? 57)) || (code c =? 45).

(** The character does not occur in the string. *)
Definition free_of (sep : ascii) (s : string) : bool :=
  forallb (fun c => negb (code c =? code sep)) (list_ascii_of_string s).

(** ** Where drawing code writes *)

Definition is_byte (v : Z) : Prop := 0 <= v < 256.

(** [paints n S t m]: on a buffer of [n] bytes, [m] keeps the length and
    the error string, leaves every index outside [S] as it was, keeps a
    buffer of bytes a buffer of bytes, never touches the vector outside
    its bounds, and throws only if [t] allows it. *)
Definition paints {A} (n : nat) (S : nat -> Prop) (t : bool) (m : Canvas A) : Prop :=
  forall e img, length img = n ->
    exists r img',
      m (mkFrame e img) = (r, mkFrame e img') /\
      length img' = n /\
      (forall i, ~ S i -> img' !! i = img !! i) /\
      (Forall is_byte img -> Forall is_byte img') /\
      match r with
      | inl _ => True
      | inr (Throw _) => t = true
      | inr OutOfBounds => False
      end.

(** The bytes of the pixel in row [y] and column [x] of an image
    [w] pixels wide. *)
Definition pixel_bytes (w y x : Z) (i : nat) : Prop :=
  exists k, 0 <= k <= 3 /\ i = Z.to_nat (4 * (y * w + x) + k).

(** The first and the last column (or row) of the placeholder rectangle
    of [DrawFeatures] on an axis of [n] pixels. *)
Definition rect_start (n : Z) : Z :=
  Z.max 0 (int_wrap (Z.quot n 2 - Z.quot (Z.quot n 4) 2)).
Definition rect_end (n : Z) : Z :=
  Z.min (int_wrap (n - 1))
    (int_wrap (int_wrap (Z.quot n 2 - Z.quot (Z.quot n 4) 2) + Z.quot n 4)).

(** The bytes [DrawFeatures] can reach in an image of [w] by [h] pixels:
    those of the pixels in the columns or in the rows of the rectangle. *)
Definition placeholder_bytes (w h : Z) (i : nat) : Prop :=
  exists y x, 0 <= y < h /\ 0 <= x < w /\
    (rect_start w <= x <= rect_end w \/ rect_start h <= y <= rect_end h) /\
    pixel_bytes w y x i.

(** ** What drawing code writes *)

Definition colour : Type := Z * Z * Z * Z.

(** Byte [k] of a pixel of the given colour. *)
Definition channel (c : colour) (k : nat) : Z :=
  let '(r, g, b, a) := c in nth k [r; g; b; a] 0.

(** The buffer in which every pixel [q] with [P q = Some c] has the
    colour [c] and the others are as in [img]. *)
Definition repaint (P : nat -> option colour) (img : list Z) : list Z :=
  imap (fun i v => match P (i / 4)%nat with
                   | Some c => channel c (i mod 4)%nat
                   | None => v
                   end) img.

(** Painting [P2] after [P1]. *)
Definition over (P2 P1 : nat -> option colour) : nat -> option colour :=
  fun q => match P2 q with Some c => Some c | None => P1 q end.

(** What a loop paints whose body paints [P x] at the element [x]. *)
Fixpoint loop_paint {A} (l : list A) (P : A -> nat -> option colour)
    : nat -> option colour :=
  match l with
  | [] => fun _ => None
  | x :: t => over (loop_paint t P) (P x)
  end.

(** [writes n r P m]: on every buffer of [n] bytes, [m] returns [r],
    keeps the error string and repaints the buffer by [P]: it reads
    nothing of the buffer, never leaves it and never throws. *)
Definition writes {A} (n : nat) (r : A) (P : nat -> option colour)
    (m : Canvas A) : Prop :=
  forall e img, length img = n ->
    m (mkFrame e img) = (inl r, mkFrame e (repaint P img)).

(** Two computations that paint the same pixels of a buffer of [n]
    bytes, each in its own colours. *)
Definition twin {A B} (n : nat) (m1 : Canvas A) (m2 : Canvas B) : Prop :=
  exists r1 r2 P1 P2,
    writes n r1 P1 m1 /\ writes n r2 P2 m2 /\
    forall q, P1 q = None <-> P2 q = None.

(** ** The pixels of a test tile *)

Definition tile_shade (x y : Z) : Z :=
  if Z.rem (int_wrap (x + y)) 2 =? 0 then 100 else 200.

(** The colour of the pixel in column [px] and row [py] of the tile
    [z/x/y]: red in the block of the label, the shade elsewhere. *)
Definition tile_pixel (z x y px py : Z) : colour :=
  if (20 <=? py) && (py <? 28) && (10 <=? px) &&
     (px <? 10 + 8 * Z.min (strlen (tile_text z x y)) 20)
  then (255, 0, 0, 255)
  else (tile_shade x y, tile_shade x y, tile_shade x y, 255).

(** What the two loops of [TileImage] paint. *)
Definition tile_shade_paint (x y : Z) : nat -> option colour :=
  loop_paint (int_range 0 255) (fun py =>
    loop_paint (int_range 0 255) (fun px q =>
      if (q =? Z.to_nat (py * 256 + px))%nat
      then Some (tile_shade x y, tile_shade x y, tile_shade x y, 255)
      else None)).

Definition tile_label_paint (z x y : Z) : nat -> option colour :=
  loop_paint (int_range 0 (Z.min (strlen (tile_text z x y)) 20 - 1)) (fun i =>
    loop_paint (int_range 0 7) (fun dy =>
      loop_paint (int_range 0 7) (fun dx q =>
        if (10 + i * 8 + dx <? 256) && (20 + dy <? 256) then
          if (q =? Z.to_nat ((20 + dy) * 256 + (10 + i * 8 + dx)))%nat
          then Some (255, 0, 0, 255)
          else None
        else None))).

(** ** HttpServer.cpp: the JSON helpers *)

(** The double quote character. *)
Definition dquote : ascii := "034"%char.

(** [s.find(needle)]: the first position at which [needle] occurs. *)
Fixpoint find (needle s : string) : option nat :=
  if String.prefix needle s then Some 0%nat
  else match s with
       | EmptyString => None
       | String _ t => match find needle t with
                       | Some p => Some (Datatypes.S p)
                       | None => None
                       end
       end.

(** [s.find_first_of(chars, pos)] for the characters [stop] accepts. *)
Fixpoint find_first_of (stop : ascii -> bool) (s : string) (pos : nat) : option nat :=
  match s with
  | EmptyString => None
  | String c t =>
      match pos with
      | O => if stop c then Some 0%nat
             else match find_first_of stop t 0 with
                  | Some e => Some (Datatypes.S e)
                  | None => None
                  end
      | Datatypes.S p => match find_first_of stop t p with
                         | Some e => Some (Datatypes.S e)
                         | None => None
                         end
      end
  end.

(** A comma, a double quote or a closing brace, the characters that end
    a value. *)
Definition is_json_delim (c : ascii) : bool :=
  (code c =? 44) || (code c =? 34) || (code c =? 125).

Definition char_is (i : nat) (s : string) (c : ascii) : bool :=
  match String.get i s with
  | Some d => code d =? code c
  | None => false
  end.

(** [GetJsonString(strJson, strKey)] *)
Definition GetJsonString (strJson strKey : string) : string :=
  match find (String dquote (strKey +:+ String dquote ":")) strJson with
  | None => ""
  | Some pos =>
      let pos := (pos + String.length strKey + 3)%nat in
      let e := match find_first_of is_json_delim strJson pos with
               | Some e => e
               | None => String.length strJson
               end in
      let value := substring pos (e - pos) strJson in
      if (2 <=? String.length value)%nat && char_is 0 value dquote &&
         char_is (String.length value - 1) value dquote
      then substring 1 (String.length value - 2) value
      else value
  end.

Definition dec_digit (c : ascii) : option Z :=
  let n := code c in
  if (48 <=? n) && (n <=? 57) then Some (n - 48) else None.

(** The value of the longest prefix of decimal digits, continuing from
    [acc]. *)
Fixpoint dec_run (acc : Z) (s : list ascii) : Z :=
  match s with
  | c :: t => match dec_digit c with
              | Some d => dec_run (10 * acc + d) t
              | None => acc
              end
  | [] => acc
  end.

(** [std::stoi(s)]: white space is skipped, a sign is accepted, the
    longest run of decimal digits is converted; no digit at all throws
    [std::invalid_argument], a value outside [int] throws
    [std::out_of_range]. *)
Definition stoi (s : string) : Z + exn :=
  let s1 := skip_space (list_ascii_of_string s) in
  let '(neg, s2) :=
    match s1 with
    | c :: t => if (code c =? 45) then (true, t)
                else if (code c =? 43) then (false, t)
                else (false, s1)
    | [] => (false, s1)
    end in
  match s2 with
  | c :: _ =>
      match dec_digit c with
      | Some _ =>
          let v := if neg then - dec_run 0 s2 else dec_run 0 s2 in
          if (INT_MIN <=? v) && (v <=? INT_MAX) then inl v else inr std_out_of_range
      | None => inr std_invalid_argument
      end
  | [] => inr std_invalid_argument
  end.

(** [GetJsonInt(strJson, strKey)]: whatever [std::stoi] throws is caught. *)
Definition GetJsonInt (strJson strKey : string) : Z :=
  let strValue := GetJsonString strJson strKey in
  match strValue with
  | EmptyString => 0
  | _ => match stoi strValue with
         | inl v => v
         | inr _ => 0
         end
  end.

(** The rest of a string from position [n] on. *)
Fixpoint string_drop (n : nat) (s : string) : string :=
  match n, s with
  | O, _ => s
  | Datatypes.S n', String _ t => string_drop n' t
  | Datatypes.S _, EmptyString => EmptyString
  end.

(** The longest prefix without a character [stop] accepts. *)
Fixpoint span (stop : ascii -> bool) (s : string) : string :=
  match s with
  | String c t => if stop c then EmptyString else String c (span stop t)
  | EmptyString => EmptyString
  end.

(** No character of the string is accepted by [stop]. *)
Definition none_of (stop : ascii -> bool) (s : string) : bool :=
  forallb (fun c => negb (stop c)) (list_ascii_of_string s).

(** The string is empty or starts with a character [stop] accepts. *)
Definition stops_at (stop : ascii -> bool) (s : string) : bool :=
  match s with
  | String c _ => stop c
  | EmptyString => true
  end.

(** The text [GetJsonString] looks for. *)
Definition json_needle (strKey : string) : string :=
  String dquote (strKey +:+ String dquote ":").

(** ** HttpServer.cpp: ParseMapRequest, as compiled without a JSON library *)

(** The loop [while (std::getline(stream, line, delim))]: the lines of
    [s] between the characters of code [delim]; [cur] is the line being
    read, if one has been begun.  A line ends at a delimiter or, once
    begun, at the end of the text. *)
Fixpoint getlines (delim : Z) (cur : option string) (s : string) : list string :=
  match s with
  | EmptyString => match cur with Some l => [l] | None => [] end
  | String c t =>
      let l := match cur with Some l => l | None => EmptyString end in
      if code c =? delim then l :: getlines delim None t
      else getlines delim (Some (l +:+ String c EmptyString)) t
  end.

Section Parse.
Context {D : Type} `{DoubleArith D}.
(** [std::stod], [None] when it throws. *)
Variable stod : string -> option D.
(** The extraction [iss >> minX >> comma >> minY >> comma >> maxX >> comma
    >> maxY] from the text of the key [bbox], which assigns the fields
    it reaches. *)
Variable read_bbox : string -> BoundingBox D -> BoundingBox D.
Variable EncodeToMemory : list Z -> Z -> Z -> option (list Z).
Variable fresh_encoder_error : string.

(** [GetJsonDouble(strJson, strKey)]: whatever [std::stod] throws is
    caught. *)
Definition GetJsonDouble (strJson strKey : string) : D :=
  match GetJsonString strJson strKey with
  | EmptyString => d_of_int 0
  | strValue => match stod strValue with
                | Some d => d
                | None => d_of_int 0
                end
  end.

(** A default-constructed [MapRequest]. *)
Definition MapRequest_default : MapRequest D :=
  mkMapRequest (mkBoundingBox (d_of_int 0) (d_of_int 0) (d_of_int 0) (d_of_int 0))
    1024 768 [] ∅ "#ffffff" "".

(** [ParseMapRequest(strJson, request)]: the result and the request it
    leaves.  Nothing in the body throws, so the handler of [catch (...)]
    is never entered. *)
Definition ParseMapRequest (strJson : string) (request : MapRequest D)
    : bool * MapRequest D :=
  match strJson with
  | EmptyString =>
      (true,
       mkMapRequest
         (mkBoundingBox (d_of_int (-180)) (d_of_int (-90)) (d_of_int 180) (d_of_int 90))
         1024 768 (m_vecLayers request) (m_mapStyles request) "#ffffff"
         (m_strFilter request))
  | _ =>
      let bbox := mkBoundingBox (GetJsonDouble strJson "minx")
                    (GetJsonDouble strJson "miny")
                    (GetJsonDouble strJson "maxx")
                    (GetJsonDouble strJson "maxy") in
      let bbox := match GetJsonString strJson "bbox" with
                  | EmptyString => bbox
                  | bboxStr => read_bbox bboxStr bbox
                  end in
      let nWidth := GetJsonInt strJson "width" in
      let nHeight := GetJsonInt strJson "height" in
      let strBackgroundColor :=
        match GetJsonString strJson "background_color" with
        | EmptyString => "#ffffff"
        | color => color
        end in
      let vecLayers :=
        match GetJsonString strJson "layers" with
        | EmptyString => m_vecLayers request
        | layersStr => m_vecLayers request ++ getlines 44 None layersStr
        end in
      (true,
       mkMapRequest bbox nWidth nHeight vecLayers (m_mapStyles request)
         strBackgroundColor (m_strFilter request))
  end.

(** [HandleGenerateRequest(strBody, ...)], from the body of the request
    on. *)
Definition HandleGenerateBody (strBody : string) (config : ServerConfig)
    (eng : RenderEngine) (fr : Frame) : GenerateReply :=
  let '(ok, request) := ParseMapRequest strBody MapRequest_default in
  if negb ok then ErrorReply "INVALID_REQUEST" "Failed to parse map request"
  else HandleGenerateRequest EncodeToMemory fresh_encoder_error config eng request fr.

End Parse.

(** A [std::stod] that reads nothing and an extraction that assigns
    nothing, to run the parser on. *)
Definition no_stod (s : string) : option Q := None.
Definition no_read_bbox (s : string) (bbox : BoundingBox Q) : BoundingBox Q := bbox.

(** ** Config.cpp: the configuration file, as compiled without a JSON library *)

(** [std::stoul(s)]: white space is skipped, a sign is accepted, the
    longest run of decimal digits is converted and negated in
    [unsigned long] after a minus sign; no digit at all throws
    [std::invalid_argument], digits beyond [unsigned long] throw
    [std::out_of_range]. *)
Definition stoul (s : string) : Z + exn :=
  let s1 := skip_space (list_ascii_of_string s) in
  let '(neg, s2) :=
    match s1 with
    | c :: t => if (code c =? 45) then (true, t)
                else if (code c =? 43) then (false, t)
                else (false, s1)
    | [] => (false, s1)
    end in
  match s2 with
  | c :: _ =>
      match dec_digit c with
      | Some _ =>
          let v := dec_run 0 s2 in
          if v <=? 18446744073709551615
          then inl (if neg then size_wrap (- v) else v)
          else inr std_out_of_range
      | None => inr std_invalid_argument
      end
  | [] => inr std_invalid_argument
  end.

(** The conversion of an [int] to [uint16_t]. *)
Definition to_uint16 (z : Z) : Z := z mod 65536.


(** [line.find(c)] *)
Definition find_char (c : ascii) (s : string) : option nat :=
  find_first_of (fun d => code d =? code c) s 0.

Module ConfigFile.

(** Config.h: every member of [ServerConfig]. *)
Record ServerConfig := mkServerConfig {
  m_strHost : string;
  m_nPort : Z;
  m_nWorkerThreads : Z;
  m_nMaxRequestSize : Z;
  m_nTimeoutSeconds : Z;
  m_strDatabasePath : string;
  m_nConnectionPoolSize : Z;
  m_nMemoryCacheMaxItems : Z;
  m_strDiskCacheDir : string;
  m_nCacheTTLSeconds : Z;
  m_nMaxImageWidth : Z;
  m_nMaxImageHeight : Z;
  m_nMaxFeaturesPerRequest : Z;
  m_strOutputDir : string;
  m_strLogFile : string;
  m_nLogLevel : Z
}.

(** [ServerConfig()], the member initialisers. *)
Definition GetDefaultConfig : ServerConfig :=
  mkServerConfig "0.0.0.0" 8080 4 (10 * 1024 * 1024) 30 "./spatial_data.db" 5 100
    "./tile_cache" 30 4096 4096 10000 "./leaf/output" "./map_server.log" 1.

Definition set_m_strHost (v : string) (c : ServerConfig) : ServerConfig :=
  mkServerConfig v (m_nPort c) (m_nWorkerThreads c) (m_nMaxRequestSize c) (m_nTimeoutSeconds c) (m_strDatabasePath c) (m_nConnectionPoolSize c) (m_nMemoryCacheMaxItems c) (m_strDiskCacheDir c) (m_nCacheTTLSeconds c) (m_nMaxImageWidth c) (m_nMaxImageHeight c) (m_nMaxFeaturesPerRequest c) (m_strOutputDir c) (m_strLogFile c) (m_nLogLevel c).
Definition set_m_nPort (v : Z) (c : ServerConfig) : ServerConfig :=
  mkServerConfig (m_strHost c) v (m_nWorkerThreads c) (m_nMaxRequestSize c) (m_nTimeoutSeconds c) (m_strDatabasePath c) (m_nConnectionPoolSize c) (m_nMemoryCacheMaxItems c) (m_strDiskCacheDir c) (m_nCacheTTLSeconds c) (m_nMaxImageWidth c) (m_nMaxImageHeight c) (m_nMaxFeaturesPerRequest c) (m_strOutputDir c) (m_strLogFile c) (m_nLogLevel c).
Definition set_m_nWorkerThreads (v : Z) (c : ServerConfig) : ServerConfig :=
  mkServerConfig (m_strHost c) (m_nPort c) v (m_nMaxRequestSize c) (m_nTimeoutSeconds c) (m_strDatabasePath c) (m_nConnectionPoolSize c) (m_nMemoryCacheMaxItems c) (m_strDiskCacheDir c) (m_nCacheTTLSeconds c) (m_nMaxImageWidth c) (m_nMaxImageHeight c) (m_nMaxFeaturesPerRequest c) (m_strOutputDir c) (m_strLogFile c) (m_nLogLevel c).
Definition set_m_nMaxRequestSize (v : Z) (c : ServerConfig) : ServerConfig :=
  mkServerConfig (m_strHost c) (m_nPort c) (m_nWorkerThreads c) v (m_nTimeoutSeconds c) (m_strDatabasePath c) (m_nConnectionPoolSize c) (m_nMemoryCacheMaxItems c) (m_strDiskCacheDir c) (m_nCacheTTLSeconds c) (m_nMaxImageWidth c) (m_nMaxImageHeight c) (m_nMaxFeaturesPerRequest c) (m_strOutputDir c) (m_strLogFile c) (m_nLogLevel c).
Definition set_m_nTimeoutSeconds (v : Z) (c : ServerConfig) : ServerConfig :=
  mkServerConfig (m_strHost c) (m_nPort c) (m_nWorkerThreads c) (m_nMaxRequestSize c) v (m_strDatabasePath c) (m_nConnectionPoolSize c) (m_nMemoryCacheMaxItems c) (m_strDiskCacheDir c) (m_nCacheTTLSeconds c) (m_nMaxImageWidth c) (m_nMaxImageHeight c) (m_nMaxFeaturesPerRequest c) (m_strOutputDir c) (m_strLogFile c) (m_nLogLevel c).
Definition set_m_strDatabasePath (v : string) (c : ServerConfig) : ServerConfig :=
  mkServerConfig (m_strHost c) (m_nPort c) (m_nWorkerThreads c) (m_nMaxRequestSize c) (m_nTimeoutSeconds c) v (m_nConnectionPoolSize c) (m_nMemoryCacheMaxItems c) (m_strDiskCacheDir c) (m_nCacheTTLSeconds c) (m_nMaxImageWidth c) (m_nMaxImageHeight c) (m_nMaxFeaturesPerRequest c) (m_strOutputDir c) (m_strLogFile c) (m_nLogLevel c).
Definition set_m_nConnectionPoolSize (v : Z) (c : ServerConfig) : ServerConfig :=
  mkServerConfig (m_strHost c) (m_nPort c) (m_nWorkerThreads c) (m_nMaxRequestSize c) (m_nTimeoutSeconds c) (m_strDatabasePath c) v (m_nMemoryCacheMaxItems c) (m_strDiskCacheDir c) (m_nCacheTTLSeconds c) (m_nMaxImageWidth c) (m_nMaxImageHeight c) (m_nMaxFeaturesPerRequest c) (m_strOutputDir c) (m_strLogFile c) (m_nLogLevel c).
Definition set_m_nMemoryCacheMaxItems (v : Z) (c : ServerConfig) : ServerConfig :=
  mkServerConfig (m_strHost c) (m_nPort c) (m_nWorkerThreads c) (m_nMaxRequestSize c) (m_nTimeoutSeconds c) (m_strDatabasePath c) (m_nConnectionPoolSize c) v (m_strDiskCacheDir c) (m_nCacheTTLSeconds c) (m_nMaxImageWidth c) (m_nMaxImageHeight c) (m_nMaxFeaturesPerRequest c) (m_strOutputDir c) (m_strLogFile c) (m_nLogLevel c).
Definition set_m_strDiskCacheDir (v : string) (c : ServerConfig) : ServerConfig :=
  mkServerConfig (m_strHost c) (m_nPort c) (m_nWorkerThreads c) (m_nMaxRequestSize c) (m_nTimeoutSeconds c) (m_strDatabasePath c) (m_nConnectionPoolSize c) (m_nMemoryCacheMaxItems c) v (m_nCacheTTLSeconds c) (m_nMaxImageWidth c) (m_nMaxImageHeight c) (m_nMaxFeaturesPerRequest c) (m_strOutputDir c) (m_strLogFile c) (m_nLogLevel c).
Definition set_m_nCacheTTLSeconds (v : Z) (c : ServerConfig) : ServerConfig :=
  mkServerConfig (m_strHost c) (m_nPort c) (m_nWorkerThreads c) (m_nMaxRequestSize c) (m_nTimeoutSeconds c) (m_strDatabasePath c) (m_nConnectionPoolSize c) (m_nMemoryCacheMaxItems c) (m_strDiskCacheDir c) v (m_nMaxImageWidth c) (m_nMaxImageHeight c) (m_nMaxFeaturesPerRequest c) (m_strOutputDir c) (m_strLogFile c) (m_nLogLevel c).
Definition set_m_nMaxImageWidth (v : Z) (c : ServerConfig) : ServerConfig :=
  mkServerConfig (m_strHost c) (m_nPort c) (m_nWorkerThreads c) (m_nMaxRequestSize c) (m_nTimeoutSeconds c) (m_strDatabasePath c) (m_nConnectionPoolSize c) (m_nMemoryCacheMaxItems c) (m_strDiskCacheDir c) (m_nCacheTTLSeconds c) v (m_nMaxImageHeight c) (m_nMaxFeaturesPerRequest c) (m_strOutputDir c) (m_strLogFile c) (m_nLogLevel c).
Definition set_m_nMaxImageHeight (v : Z) (c : ServerConfig) : ServerConfig :=
  mkServerConfig (m_strHost c) (m_nPort c) (m_nWorkerThreads c) (m_nMaxRequestSize c) (m_nTimeoutSeconds c) (m_strDatabasePath c) (m_nConnectionPoolSize c) (m_nMemoryCacheMaxItems c) (m_strDiskCacheDir c) (m_nCacheTTLSeconds c) (m_nMaxImageWidth c) v (m_nMaxFeaturesPerRequest c) (m_strOutputDir c) (m_strLogFile c) (m_nLogLevel c).
Definition set_m_nMaxFeaturesPerRequest (v : Z) (c : ServerConfig) : ServerConfig :=
  mkServerConfig (m_strHost c) (m_nPort c) (m_nWorkerThreads c) (m_nMaxRequestSize c) (m_nTimeoutSeconds c) (m_strDatabasePath c) (m_nConnectionPoolSize c) (m_nMemoryCacheMaxItems c) (m_strDiskCacheDir c) (m_nCacheTTLSeconds c) (m_nMaxImageWidth c) (m_nMaxImageHeight c) v (m_strOutputDir c) (m_strLogFile c) (m_nLogLevel c).
Definition set_m_strOutputDir (v : string) (c : ServerConfig) : ServerConfig :=
  mkServerConfig (m_strHost c) (m_nPort c) (m_nWorkerThreads c) (m_nMaxRequestSize c) (m_nTimeoutSeconds c) (m_strDatabasePath c) (m_nConnectionPoolSize c) (m_nMemoryCacheMaxItems c) (m_strDiskCacheDir c) (m_nCacheTTLSeconds c) (m_nMaxImageWidth c) (m_nMaxImageHeight c) (m_nMaxFeaturesPerRequest c) v (m_strLogFile c) (m_nLogLevel c).
Definition set_m_strLogFile (v : string) (c : ServerConfig) : ServerConfig :=
  mkServerConfig (m_strHost c) (m_nPort c) (m_nWorkerThreads c) (m_nMaxRequestSize c) (m_nTimeoutSeconds c) (m_strDatabasePath c) (m_nConnectionPoolSize c) (m_nMemoryCacheMaxItems c) (m_strDiskCacheDir c) (m_nCacheTTLSeconds c) (m_nMaxImageWidth c) (m_nMaxImageHeight c) (m_nMaxFeaturesPerRequest c) (m_strOutputDir c) v (m_nLogLevel c).
Definition set_m_nLogLevel (v : Z) (c : ServerConfig) : ServerConfig :=
  mkServerConfig (m_strHost c) (m_nPort c) (m_nWorkerThreads c) (m_nMaxRequestSize c) (m_nTimeoutSeconds c) (m_strDatabasePath c) (m_nConnectionPoolSize c) (m_nMemoryCacheMaxItems c) (m_strDiskCacheDir c) (m_nCacheTTLSeconds c) (m_nMaxImageWidth c) (m_nMaxImageHeight c) (m_nMaxFeaturesPerRequest c) (m_strOutputDir c) (m_strLogFile c) v.

(** The assignment a line [key=value] makes; [std::stoi] and
    [std::stoul] are not guarded, what they throw leaves the loader. *)
Definition assign (key value : string) (c : ServerConfig) : ServerConfig + exn :=
  if String.eqb key "host" then
    inl (set_m_strHost value c)
  else if String.eqb key "port" then
    match stoi value with inl v => inl (set_m_nPort (to_uint16 v) c) | inr e => inr e end
  else if String.eqb key "worker_threads" then
    match stoul value with inl v => inl (set_m_nWorkerThreads v c) | inr e => inr e end
  else if String.eqb key "max_request_size" then
    match stoul value with inl v => inl (set_m_nMaxRequestSize v c) | inr e => inr e end
  else if String.eqb key "timeout_seconds" then
    match stoi value with inl v => inl (set_m_nTimeoutSeconds v c) | inr e => inr e end
  else if String.eqb key "database_path" then
    inl (set_m_strDatabasePath value c)
  else if String.eqb key "connection_pool_size" then
    match stoul value with inl v => inl (set_m_nConnectionPoolSize v c) | inr e => inr e end
  else if String.eqb key "memory_cache_max_items" then
    match stoul value with inl v => inl (set_m_nMemoryCacheMaxItems v c) | inr e => inr e end
  else if String.eqb key "disk_cache_dir" then
    inl (set_m_strDiskCacheDir value c)
  else if String.eqb key "cache_ttl_seconds" then
    match stoi value with inl v => inl (set_m_nCacheTTLSeconds v c) | inr e => inr e end
  else if String.eqb key "max_image_width" then
    match stoi value with inl v => inl (set_m_nMaxImageWidth v c) | inr e => inr e end
  else if String.eqb key "max_image_height" then
    match stoi value with inl v => inl (set_m_nMaxImageHeight v c) | inr e => inr e end
  else if String.eqb key "max_features_per_request" then
    match stoi value with inl v => inl (set_m_nMaxFeaturesPerRequest v c) | inr e => inr e end
  else if String.eqb key "output_dir" then
    inl (set_m_strOutputDir value c)
  else if String.eqb key "log_file" then
    inl (set_m_strLogFile value c)
  else if String.eqb key "log_level" then
    match stoi value with inl v => inl (set_m_nLogLevel v c) | inr e => inr e end
  else inl c.

(** One turn of the loop: a line without [=] is skipped. *)
Definition load_line (line : string) (c : ServerConfig) : ServerConfig + exn :=
  match find_char "=" line with
  | Some pos => assign (substring 0 pos line) (string_drop (pos + 1) line) c
  | None => inl c
  end.

Fixpoint load_lines (lines : list string) (c : ServerConfig) : ServerConfig + exn :=
  match lines with
  | [] => inl c
  | line :: rest =>
      match load_line line c with
      | inl c' => load_lines rest c'
      | inr e => inr e
      end
  end.

(** [LoadConfigFromFile(strFilePath, config)] on the text of the file,
    [None] when the file cannot be opened: the result and the
    configuration it leaves, or the exception that leaves it. *)
Definition LoadConfigFromFile (file : option string) (c : ServerConfig)
    : (bool * ServerConfig) + exn :=
  match file with
  | None => inl (false, c)
  | Some text =>
      match load_lines (getlines 10 None text) c with
      | inl c' => inl (true, c')
      | inr e => inr e
      end
  end.



End ConfigFile.

(** ** main.cpp: ParseCommandLine *)

Section CommandLine.
(** The text of a file, [None] when it cannot be opened. *)
Variable read_file : string -> option string.

(** [ParseCommandLine(argc, argv, config)] on the arguments after the
    program name: the result and the configuration it leaves, or the
    exception that leaves it (from the loader of the configuration
    file, which is not guarded). *)
Fixpoint ParseCommandLine (args : list string) (config : ConfigFile.ServerConfig)
    : (bool * ConfigFile.ServerConfig) + exn :=
  match args with
  | [] => inl (true, config)
  | arg :: rest =>
      if String.eqb arg "-h" || String.eqb arg "--help" then inl (false, config)
      else if String.eqb arg "-c" || String.eqb arg "--config" then
        match rest with
        | configFile :: rest' =>
            match ConfigFile.LoadConfigFromFile (read_file configFile) config with
            | inl (true, config') => ParseCommandLine rest' config'
            | inl (false, config') => inl (false, config')
            | inr e => inr e
            end
        | [] => inl (false, config)
        end
      else if String.eqb arg "-p" || String.eqb arg "--port" then
        match rest with
        | port :: rest' =>
            match stoi port with
            | inl v => ParseCommandLine rest' (ConfigFile.set_m_nPort (to_uint16 v) config)
            | inr _ => inl (false, config)
            end
        | [] => inl (false, config)
        end
      else if String.eqb arg "-o" || String.eqb arg "--output" then
        match rest with
        | dir :: rest' => ParseCommandLine rest' (ConfigFile.set_m_strOutputDir dir config)
        | [] => inl (false, config)
        end
      else if String.eqb arg "-d" || String.eqb arg "--database" then
        match rest with
        | path :: rest' =>
            ParseCommandLine rest' (ConfigFile.set_m_strDatabasePath path config)
        | [] => inl (false, config)
        end
      else if String.eqb arg "-v" || String.eqb arg "--verbose" then
        ParseCommandLine rest (ConfigFile.set_m_nLogLevel 2 config)
      else inl (false, config)
  end.

End CommandLine.

(** A file system without files. *)
Definition no_files (path : string) : option string := None.

(** ** PngEncoder.cpp *)

Module PngEncoder.

(** The members of the encoder next to the libpng handles. *)
Record t := mk {
  m_nCompressionLevel : Z;
  m_bInterlaced : bool
}.

(** A newly constructed encoder. *)
Definition fresh : t := mk 6 false.

(** [SetCompressionLevel(nLevel)] *)
Definition SetCompressionLevel (nLevel : Z) (e : t) : t :=
  if (0 <=? nLevel) && (nLevel <=? 9) then mk nLevel (m_bInterlaced e) else e.

(** [SetInterlaced(bInterlaced)] *)
Definition SetInterlaced (bInterlaced : bool) (e : t) : t :=
  mk (m_nCompressionLevel e) bInterlaced.

(** The calls a user can make on an encoder between two encodings. *)
Inductive call :=
| CallSetCompressionLevel (nLevel : Z)
| CallSetInterlaced (bInterlaced : bool).

Definition run (c : call) (e : t) : t :=
  match c with
  | CallSetCompressionLevel nLevel => SetCompressionLevel nLevel e
  | CallSetInterlaced bInterlaced => SetInterlaced bInterlaced e
  end.

(** The offset of row [y] in [pRowPointers[y] = pData + y * nWidth * 4],
    computed in [int]. *)
Definition row_offset (nWidth y : Z) : Z := int_wrap (int_wrap (y * nWidth) * 4).

(** The rows libpng is handed by [EncodeRGBA] and [SaveRGBA]: for each
    [y] below [nHeight] the [nWidth * 4] bytes at the row pointer;
    [None] when a row pointer and its bytes are not all inside
    [pData]. *)
Definition row_at (pData : list Z) (nWidth y : Z) : option (list Z) :=
  let off := row_offset nWidth y in
  if (0 <=? off) && (off + nWidth * 4 <=? Z.of_nat (length pData))
  then Some (take (Z.to_nat (nWidth * 4)) (drop (Z.to_nat off) pData))
  else None.

Definition rows (pData : list Z) (nWidth nHeight : Z) : list (option (list Z)) :=
  map (row_at pData nWidth) (int_range 0 (nHeight - 1)).

End PngEncoder.

(** ** DatabaseManager.cpp *)

Module DatabaseManager.
Section Db.
Context {D : Type} `{DoubleArith D}.

(** DatabaseManager.h: LayerInfo *)
Record LayerInfo := mkLayerInfo {
  id : string;
  name : string;
  type : string;
  description : string;
  bounds : BoundingBox D;
  attributes : list string
}.

(** [BoundingBox()] and [LayerInfo()] *)
Definition BoundingBox_default : BoundingBox D :=
  mkBoundingBox (d_of_int 0) (d_of_int 0) (d_of_int 0) (d_of_int 0).
Definition LayerInfo_default : LayerInfo :=
  mkLayerInfo "" "" "" "" BoundingBox_default [].

(** A row of the table [layers] as SQLite hands it over: a text column
    can be NULL, and so can the four columns of the bounds. *)
Record Row := mkRow {
  col_id : option string;
  col_name : option string;
  col_type : option string;
  col_description : option string;
  col_bounds : option (D * D * D * D)
}.

(** The layer the code makes of a row. *)
Definition layer_of_row (r : Row) : LayerInfo :=
  mkLayerInfo (default "" (col_id r)) (default "" (col_name r))
    (default "vector" (col_type r)) (default "" (col_description r))
    match col_bounds r with
    | Some (minx, miny, maxx, maxy) => mkBoundingBox minx miny maxx maxy
    | None => BoundingBox_default
    end
    [].

(** The database file as this code sees it: whether a connection can be
    opened, the rows of the query for all layers and of the query for
    one layer ([None] when the statement cannot be prepared), and
    whether [SELECT 1] can be prepared and gives a row. *)
Variable can_open : bool.
Variable all_rows : option (list Row).
Variable row_of_id : string -> option (option Row).
Variable select_one : option bool.

(** A connection is a handle; [next_handle] is the handle the next
    [sqlite3_open_v2] returns. *)
Record t := mk {
  m_poolSize : Z;
  m_connectionPool : list nat;
  m_initialized : bool;
  next_handle : nat
}.

(** [InitializePool()] *)
Fixpoint open_connections (n : nat) (db : t) : t :=
  match n with
  | O => db
  | Datatypes.S n' =>
      open_connections n'
        (if can_open
         then mk (m_poolSize db) (m_connectionPool db ++ [next_handle db])
                (m_initialized db) (Datatypes.S (next_handle db))
         else db)
  end.

Definition InitializePool (db : t) : t :=
  let db' := open_connections (Z.to_nat (m_poolSize db)) db in
  mk (m_poolSize db') (m_connectionPool db')
    (negb (match m_connectionPool db' with [] => true | _ => false end))
    (next_handle db').

(** [DatabaseManager(dbPath, poolSize)] *)
Definition create (poolSize : Z) : t :=
  InitializePool (mk (if 0 <? poolSize then poolSize else 5) [] false 0).

(** [GetConnection()]: the connection, or [None] for [nullptr]. *)
Definition GetConnection (db : t) : option nat * t :=
  match m_connectionPool db with
  | [] =>
      if can_open
      then (Some (next_handle db),
            mk (m_poolSize db) [] (m_initialized db) (Datatypes.S (next_handle db)))
      else (None, db)
  | conn :: rest =>
      (Some conn, mk (m_poolSize db) rest (m_initialized db) (next_handle db))
  end.

(** [ReleaseConnection(conn)] for a connection that is not [nullptr]. *)
Definition ReleaseConnection (conn : nat) (db : t) : t :=
  mk (m_poolSize db) (m_connectionPool db ++ [conn]) (m_initialized db)
    (next_handle db).

(** The three layers answered when the table has none. *)
Definition mock_layers : list LayerInfo :=
  [mkLayerInfo "roads" "Roads" "vector"
     "Road network including highways, streets, and paths" BoundingBox_default [];
   mkLayerInfo "buildings" "Buildings" "vector"
     "Building footprints with architectural details" BoundingBox_default [];
   mkLayerInfo "points" "Points of Interest" "vector"
     "Points of interest including landmarks, businesses, and facilities"
     BoundingBox_default []].

(** [GetAllLayers()] *)
Definition GetAllLayers (db : t) : list LayerInfo * t :=
  if negb (m_initialized db) then ([], db)
  else
    match GetConnection db with
    | (None, db') => ([], db')
    | (Some conn, db') =>
        match all_rows with
        | None => (mock_layers, ReleaseConnection conn db')
        | Some rows =>
            let layers := map layer_of_row rows in
            (match layers with [] => mock_layers | _ => layers end,
             ReleaseConnection conn db')
        end
    end.

Definition world : BoundingBox D :=
  mkBoundingBox (d_of_int (-180)) (d_of_int (-90)) (d_of_int 180) (d_of_int 90).

(** [GetLayerById(layerId)] *)
Definition GetLayerById (layerId : string) (db : t) : LayerInfo * t :=
  if negb (m_initialized db) then (LayerInfo_default, db)
  else
    match GetConnection db with
    | (None, db') => (LayerInfo_default, db')
    | (Some conn, db') =>
        match row_of_id layerId with
        | None => (LayerInfo_default, ReleaseConnection conn db')
        | Some (Some r) => (layer_of_row r, ReleaseConnection conn db')
        | Some None =>
            (if String.eqb layerId "roads" then
               mkLayerInfo "roads" "Roads" "vector"
                 "Road network including highways, streets, and paths" world
                 ["name"; "type"; "length"; "width"]
             else if String.eqb layerId "buildings" then
               mkLayerInfo "buildings" "Buildings" "vector"
                 "Building footprints with architectural details" world
                 ["name"; "height"; "area"; "type"]
             else if String.eqb layerId "points" then
               mkLayerInfo "points" "Points of Interest" "vector"
                 "Points of interest including landmarks, businesses, and facilities"
                 world ["name"; "category"; "rating"; "address"]
             else LayerInfo_default,
             ReleaseConnection conn db')
        end
    end.

(** [IsHealthy()] *)
Definition IsHealthy (db : t) : bool * t :=
  if negb (m_initialized db) then (false, db)
  else
    match GetConnection db with
    | (None, db') => (false, db')
    | (Some conn, db') =>
        (match select_one with Some true => true | _ => false end,
         ReleaseConnection conn db')
    end.

(** The public operations, to speak of any sequence of them. *)
Inductive op :=
| OpGetAllLayers
| OpGetLayerById (layerId : string)
| OpIsHealthy.

Definition step (o : op) (db : t) : t :=
  match o with
  | OpGetAllLayers => snd (GetAllLayers db)
  | OpGetLayerById layerId => snd (GetLayerById layerId db)
  | OpIsHealthy => snd (IsHealthy db)
  end.

End Db.
End DatabaseManager.

(** ** HttpServer.cpp: the route of the tiles *)

(** A text the pattern [(\d+)] of the route matches. *)
Definition all_digits (s : string) : bool :=
  negb (String.eqb s "") &&
  forallb (fun c => match dec_digit c with Some _ => true | None => false end)
    (list_ascii_of_string s).

(** What the route answers: the content set from the bytes of the
    handler, or status 404 with the text [Tile not found]. *)
Inductive TileRouteReply :=
| RouteContent (png : list Z) (x_bbox : BoundingBox R)
| RouteNotFound.

Section TileRoute.
Variable EncodeToMemory : list Z -> Z -> Z -> option (list Z).

(** The handler of [/tile/(\d+)/(\d+)/(\d+)\.png] on the three texts
    the pattern matched.  [std::stoi] is not guarded here; the status
    400 that [HandleTileRequest] sets for a rejected address is replaced
    by 404 because the response is empty. *)
Definition TileRoute (zs xs ys : string) : Canvas TileRouteReply :=
  let* z := lift (stoi zs) in
  let* x := lift (stoi xs) in
  let* y := lift (stoi ys) in
  let* reply := HandleTileRequest EncodeToMemory z x y in
  match reply with
  | TilePng (b :: png) x_bbox => ret (RouteContent (b :: png) x_bbox)
  | _ => ret RouteNotFound
  end.

End TileRoute.

(** ** HttpServer.cpp: the handlers of the layers *)

(** What the two handlers answer: an error document, or the document
    made of the layers. *)
Inductive LayersReply {D : Type} :=
| LayersError (strCode strMessage : string)
| LayersDocument (layers : list (DatabaseManager.LayerInfo (D := D))).

Section LayerHandlers.
Context {D : Type} `{DoubleArith D}.
Variable can_open : bool.
Variable all_rows : option (list (DatabaseManager.Row (D := D))).
Variable row_of_id : string -> option (option (DatabaseManager.Row (D := D))).

(** [HandleLayersRequest]; [m_pDbManager] is [None] for a null pointer. *)
Definition HandleLayersRequest (m_pDbManager : option DatabaseManager.t)
    : LayersReply (D := D) * option DatabaseManager.t :=
  match m_pDbManager with
  | None => (LayersError "DATABASE_ERROR" "Database manager not initialized", None)
  | Some db =>
      let '(layers, db') := DatabaseManager.GetAllLayers can_open all_rows db in
      (LayersDocument layers, Some db')
  end.

(** [HandleLayerInfoRequest] *)
Definition HandleLayerInfoRequest (layerId : string)
    (m_pDbManager : option DatabaseManager.t)
    : LayersReply (D := D) * option DatabaseManager.t :=
  match m_pDbManager with
  | None => (LayersError "DATABASE_ERROR" "Database manager not initialized", None)
  | Some db =>
      let '(layer, db') := DatabaseManager.GetLayerById can_open row_of_id layerId db in
      if String.eqb (DatabaseManager.id layer) "" then
        (LayersError "LAYER_NOT_FOUND" ("Layer '" +:+ layerId +:+ "' not found"),
         Some db')
      else (LayersDocument [layer], Some db')
  end.

End LayerHandlers.

(** ** What the placeholder paints *)

(** What the guarded store of the pixel in row [y] and column [x] paints
    on a buffer of [n] bytes. *)
Definition pixel_paint (n : nat) (w y x : Z) (col : colour) : nat -> option colour :=
  fun q => if (q =? Z.to_nat (y * w + x))%nat && (4 * (y * w + x) + 3 <? Z.of_nat n)
           then Some col else None.

Definition none_paint : nat -> option colour := fun _ => None.

(** A loop over the columns [xs] of the row [y], and a loop over the
    rows [ys] of the column [x]. *)
Definition row_paint (n : nat) (w : Z) (xs : list Z) (y : Z) (col : colour)
    : nat -> option colour :=
  loop_paint xs (fun x => pixel_paint n w y x col).
Definition col_paint (n : nat) (w : Z) (ys : list Z) (x : Z) (col : colour)
    : nat -> option colour :=
  loop_paint ys (fun y => pixel_paint n w y x col).

(** What [DrawFeatures] paints on a buffer of [n] bytes with a stroke
    of [sw] pixels: the rectangle, then its four edges. *)
Definition placeholder_paint (n : nat) (w h sw : Z) (fill stroke : colour)
    : nat -> option colour :=
  let widths := int_range 0 (sw - 1) in
  let xs := int_range (rect_start w) (rect_end w) in
  let ys := int_range (rect_start h) (rect_end h) in
  let inside := loop_paint ys (fun y => row_paint n w xs y fill) in
  let top := loop_paint widths (fun d =>
               if rect_start h + d <? h then row_paint n w xs (rect_start h + d) stroke
               else none_paint) in
  let bottom := loop_paint widths (fun d =>
                  if 0 <=? rect_end h - d then row_paint n w xs (rect_end h - d) stroke
                  else none_paint) in
  let left := loop_paint widths (fun d =>
                if rect_start w + d <? w then col_paint n w ys (rect_start w + d) stroke
                else none_paint) in
  let right := loop_paint widths (fun d =>
                 if 0 <=? rect_end w - d then col_paint n w ys (rect_end w - d) stroke
                 else none_paint) in
  over (over (over (over (over (over (over none_paint right) left) bottom) top)
                none_paint) inside) none_paint.

(** The colour of a pixel of the rectangle after [DrawFeatures]: the
    stroke colour within [sw] pixels of an edge, the fill colour
    further inside. *)
Definition placeholder_colour (w h sw x y : Z) (fill stroke : colour) : colour :=
  if (rect_start w + sw <=? x) && (x <=? rect_end w - sw) &&
     (rect_start h + sw <=? y) && (y <=? rect_end h - sw)
  then fill else stroke.

(** ** Sample requests with several layers and with a filter *)

(** Two layers drawn in different styles: "roads" in the style of a
    default-constructed [LayerStyle], "rivers" after it in a style of its
    own. *)
Definition two_layer_request : MapRequest Q :=
  mkMapRequest small_box 8 8 ["roads"; "rivers"]
    {["rivers" := filled_with "#112233"]} "#ffffff" "".

(** [unstyled_request] with an attribute filter. *)
Definition filtered_request : MapRequest Q :=
  mkMapRequest small_box 8 8 ["roads"] ∅ "#ffffff" "name = 'A1'".

(** ** The characters of a channel *)

(** [std::stoi] can start at the character: it is a hexadecimal digit,
    white space, which is skipped, or a sign. *)
Definition starts_number (c : ascii) : bool :=
  is_hex c || isspace c || (code c =? 45) || (code c =? 43).

(** The pixel in column [x] of row [y] lies in the placeholder
    rectangle of an image of [w] by [h] pixels. *)
Definition in_rectangle (w h x y : Z) : bool :=
  (rect_start w <=? x) && (x <=? rect_end w) &&
  (rect_start h <=? y) && (y <=? rect_end h).

(** A style whose stroke colour is the given string. *)
Definition stroked_with (color : string) : LayerStyle :=
  mkLayerStyle "#cccccc" color 1 255 3 "#ff0000" "#0000ff" 2.

(** * Properties *)

(** ** Coordinate transform *)

Lemma Qltb_lt (a b : Q) : Qltb a b = true <-> (a < b)%Q.
Proof. unfold Qltb, Qlt. apply Z.ltb_lt. Qed.

Lemma Qtrunc_nonneg (q : Q) : (0 <= q)%Q -> Qtrunc q = Qfloor q.
Proof.
  destruct q as [n d]. unfold Qle, Qtrunc, Qfloor. simpl. intros Hn.
  apply Z.quot_div_nonneg; lia.
Qed.

Lemma Qtrunc_neg (q : Q) : (q < 0)%Q -> Qtrunc q <= 0.
Proof.
  destruct q as [n d]. unfold Qlt, Qtrunc. simpl. intros Hn.
  apply Z.quot_le_upper_bound; lia.
Qed.

Lemma Qfloor_bounds (q : Q) : (inject_Z (Qfloor q) <= q < inject_Z (Qfloor q) + 1)%Q.
Proof.
  split; [apply Qfloor_le |].
  pose proof (Qlt_floor q) as Hq. rewrite inject_Z_plus in Hq. exact Hq.
Qed.

Lemma Qfloor_lt_Z (q : Q) (n : Z) : (q < inject_Z n)%Q -> Qfloor q < n.
Proof.
  intros Hq. destruct (Z_lt_le_dec (Qfloor q) n) as [|Hge]; [assumption |].
  exfalso. apply (Qlt_irrefl q). eapply Qlt_le_trans; [exact Hq |].
  eapply Qle_trans; [| apply Qfloor_le]. rewrite <- Zle_Qle. exact Hge.
Qed.

Lemma Qfloor_ge_Z (q : Q) (n : Z) : (inject_Z n <= q)%Q -> n <= Qfloor q.
Proof.
  intros Hq. rewrite <- (Qfloor_Z n). apply Qfloor_resp_le. exact Hq.
Qed.

(** The clamped truncation of a scaled coordinate [v] on an axis of [n]
    pixels: the floor of [v] inside the image, the nearest edge outside. *)
Lemma clamp_trunc_floor (n : Z) (v : Q) :
  0 < n ->
  let p := clamp_pixel n (Qtrunc v) in
  0 <= p <= n - 1 /\
  ((v < 0)%Q -> p = 0) /\
  ((0 <= v)%Q -> (v < inject_Z n)%Q -> (inject_Z p <= v < inject_Z p + 1)%Q) /\
  ((inject_Z n <= v)%Q -> p = n - 1).
Proof.
  intros Hn p. unfold p, clamp_pixel. split; [lia |]. split; [| split].
  - intros Hv. pose proof (Qtrunc_neg v Hv). lia.
  - intros H0 Hlt. rewrite (Qtrunc_nonneg v H0).
    pose proof (Qfloor_lt_Z v n Hlt). pose proof (Qfloor_ge_Z v 0 H0).
    replace (Z.max 0 (Z.min (n - 1) (Qfloor v))) with (Qfloor v) by lia.
    apply Qfloor_bounds.
  - intros Hge.
    assert (H0 : (0 <= v)%Q).
    { apply Qle_trans with (inject_Z n); [| exact Hge].
      change 0%Q with (inject_Z 0). rewrite <- Zle_Qle. lia. }
    rewrite (Qtrunc_nonneg v H0). pose proof (Qfloor_ge_Z v n Hge). lia.
Qed.

Lemma WorldToPixel_false_iff {D} `{DoubleArith D} (wx wy : D) (bbox : BoundingBox D)
    (w h : Z) :
  WorldToPixel wx wy bbox w h = PixelFalse <->
  (IsValid bbox = false \/ w <= 0 \/ h <= 0).
Proof.
  unfold WorldToPixel.
  destruct (IsValid bbox) eqn:Hv; simpl.
  - destruct (w <=? 0) eqn:Hw; simpl.
    + split; [intros _; right; left; lia | reflexivity].
    + destruct (h <=? 0) eqn:Hh.
      * split; [intros _; right; right; lia | reflexivity].
      * apply Z.leb_gt in Hw, Hh.
        split.
        -- destruct (static_cast_int _); [destruct (static_cast_int _) |]; discriminate.
        -- intros [Hf | [Hf | Hf]]; [discriminate | lia | lia].
  - split; [intros _; left; reflexivity | reflexivity].
Qed.

(** The conversion to [int] is defined exactly when the integer part
    fits. *)
Lemma static_cast_int_fits {D} `{DoubleArith D} (v : D) :
  (INT_MIN <= d_trunc v <= INT_MAX -> static_cast_int v = Some (d_trunc v)) /\
  (~ INT_MIN <= d_trunc v <= INT_MAX -> static_cast_int v = None).
Proof.
  unfold static_cast_int. cbv zeta.
  destruct (Z.leb_spec INT_MIN (d_trunc v)), (Z.leb_spec (d_trunc v) INT_MAX);
    simpl; split; intros Hr; try reflexivity; lia.
Qed.

(** A double whose integer part fits [int] is a number, and its integer
    part is that of the rational it stands for. *)
Lemma b64_trunc_fits (v : spec_float) :
  INT_MIN <= b64_trunc v <= INT_MAX ->
  is_number v = true /\ b64_trunc v = Qtrunc (SF2Q v).
Proof.
  assert (Hbig : INT_MAX < 2 ^ 1024) by (unfold INT_MAX; reflexivity).
  unfold INT_MIN, INT_MAX in *.
  destruct v as [s | s | | s m e]; cbn [b64_trunc is_number]; intros Hr.
  - split; reflexivity.
  - exfalso. destruct s; lia.
  - exfalso. lia.
  - split; reflexivity.
Qed.

(** *** Integers in binary64 *)

Lemma digits2_size (m : positive) : digits2_pos m = Pos.size m.
Proof. induction m; cbn [digits2_pos Pos.size]; congruence. Qed.

Lemma iter_xO (m k : positive) : Pos.iter xO m k = (m * 2 ^ k)%positive.
Proof.
  induction k as [| k IH] using Pos.peano_ind.
  - simpl. lia.
  - rewrite Pos.iter_succ, IH, Pos.pow_succ_r. lia.
Qed.

Lemma digits2_shift (m k : positive) :
  digits2_pos (m * 2 ^ k) = (digits2_pos m + k)%positive.
Proof.
  induction k as [| k IH] using Pos.peano_ind.
  - change (2 ^ 1)%positive with 2%positive.
    replace (m * 2)%positive with (m~0)%positive by lia.
    cbn [digits2_pos]. lia.
  - rewrite Pos.pow_succ_r.
    replace (m * (2 * 2 ^ k))%positive with ((m * 2 ^ k)~0)%positive by lia.
    cbn [digits2_pos]. rewrite IH. lia.
Qed.

Lemma digits2_small (m : positive) (k : Z) :
  0 <= k -> Zpos m < 2 ^ k -> Zpos (digits2_pos m) <= k.
Proof.
  intros Hk Hm. rewrite digits2_size.
  pose proof (Pos.size_le m) as Hs.
  destruct (Z_le_gt_dec (Zpos (Pos.size m)) k) as [| Hgt]; [assumption | exfalso].
  assert (Hp : 2 ^ (k + 1) <= 2 ^ Zpos (Pos.size m)) by (apply Z.pow_le_mono_r; lia).
  rewrite Z.pow_add_r in Hp by lia.
  assert (Hz : Zpos (2 ^ Pos.size m) <= Zpos (m~0)) by exact Hs.
  rewrite Pos2Z.inj_pow in Hz. lia.
Qed.

(** A mantissa of 53 bits with an exponent in range is not rounded. *)
Lemma round_aux_exact (s : bool) (mz : positive) (ez : Z) :
  Zpos (digits2_pos mz) = 53 -> -1074 <= ez <= 971 ->
  binary_round_aux prec64 emax64 s (Zpos mz) ez loc_Exact = S754_finite s mz ez.
Proof.
  intros Hd He.
  unfold binary_round_aux, shr_fexp, fexp, emin, prec64, emax64.
  change IntDef.Z.max with Z.max.
  cbn [Zdigits2 shr_record_of_loc]. rewrite Hd.
  match goal with |- context [shr _ _ ?n] => replace n with 0 by lia end.
  cbn [shr shr_m loc_of_shr_record round_nearest_even Zdigits2 shr_record_of_loc].
  rewrite Hd.
  match goal with |- context [shr _ _ ?n] => replace n with 0 by lia end.
  cbn [shr shr_m].
  destruct (Z.leb_spec ez (1024 - 53)) as [_ | Hbad]; [reflexivity | lia].
Qed.

Lemma b64_of_pos (s : bool) (m : positive) :
  Zpos m < 2 ^ 53 ->
  (SF2Q (binary_round prec64 emax64 s m 0) ==
   inject_Z (if s then Zneg m else Zpos m))%Q.
Proof.
  intros Hm.
  pose proof (digits2_small m 53 ltac:(lia) Hm) as Hd.
  unfold binary_round, shl_align, fexp, emin, prec64, emax64.
  change IntDef.Z.max with Z.max.
  match goal with
  | |- context [match ?n with Z.neg _ => _ | _ => _ end] =>
      destruct n as [| k | k] eqn:Hk
  end; [| clear Hm; lia |].
  - fold prec64 emax64. rewrite round_aux_exact by (clear Hm; lia).
    destruct s; cbn; unfold Qeq; cbn; lia.
  - rewrite iter_xO. fold prec64 emax64.
    rewrite round_aux_exact;
      [| clear Hm; rewrite digits2_shift; lia | clear Hm; unfold prec64, emax64; lia].
    match goal with
    | |- context [S754_finite s _ ?e] =>
        replace e with (Zneg k) by (clear Hm; unfold prec64, emax64; lia)
    end.
    cbn [SF2Q]. unfold Qeq; destruct s; cbn [Qnum Qden inject_Z]; lia.
Qed.

(** The conversion of an integer below 2^53 in magnitude, an [int] in
    particular, is exact. *)
Lemma b64_of_Z_exact (n : Z) :
  - 2 ^ 53 < n < 2 ^ 53 -> (SF2Q (b64_of_Z n) == inject_Z n)%Q.
Proof.
  intros Hn. unfold b64_of_Z, binary_normalize.
  destruct n as [| m | m].
  - reflexivity.
  - apply (b64_of_pos false m). lia.
  - apply (b64_of_pos true m). lia.
Qed.

(** C1 (as amended).  On a valid bounding box and positive dimensions
    [WorldToPixel] computes the scaled coordinates in binary64, every
    subtraction, division and multiplication rounded to the nearest
    double (the conversion of the dimensions to [double] is exact), and
    converts the two doubles by [static_cast<int>]: when their integer
    parts fit [int] it succeeds with both truncated toward zero (not
    rounded) and clamped to [0, dimension-1], so that inside the image
    the pixel is the floor of the double and outside it is the nearest
    edge; when one does not fit (an infinity and a NaN included) the
    conversion is undefined.  It returns [false] exactly when the box is
    invalid or a dimension is not positive. *)
Theorem WorldToPixel_truncates (wx wy : spec_float) (bbox : BoundingBox spec_float)
    (w h : Z) :
  (WorldToPixel wx wy bbox w h = PixelFalse <->
     (IsValid bbox = false \/ w <= 0 \/ h <= 0)) /\
  (IsValid bbox = true -> 0 < w -> 0 < h ->
   let vx := scaledX64 wx bbox w in
   let vy := scaledY64 wy bbox h in
   (w <= INT_MAX -> (SF2Q (d_of_int w) == inject_Z w)%Q) /\
   (h <= INT_MAX -> (SF2Q (d_of_int h) == inject_Z h)%Q) /\
   (~ (INT_MIN <= b64_trunc vx <= INT_MAX /\ INT_MIN <= b64_trunc vy <= INT_MAX) ->
    WorldToPixel wx wy bbox w h = PixelUndefined) /\
   (INT_MIN <= b64_trunc vx <= INT_MAX ->
    INT_MIN <= b64_trunc vy <= INT_MAX ->
    let px := clamp_pixel w (b64_trunc vx) in
    let py := clamp_pixel h (b64_trunc vy) in
    WorldToPixel wx wy bbox w h = PixelTrue px py /\
    is_number vx = true /\ is_number vy = true /\
    b64_trunc vx = Qtrunc (SF2Q vx) /\ b64_trunc vy = Qtrunc (SF2Q vy) /\
    0 <= px <= w - 1 /\ 0 <= py <= h - 1 /\
    ((SF2Q vx < 0)%Q -> px = 0) /\
    ((0 <= SF2Q vx)%Q -> (SF2Q vx < inject_Z w)%Q ->
     (inject_Z px <= SF2Q vx < inject_Z px + 1)%Q) /\
    ((inject_Z w <= SF2Q vx)%Q -> px = w - 1) /\
    ((SF2Q vy < 0)%Q -> py = 0) /\
    ((0 <= SF2Q vy)%Q -> (SF2Q vy < inject_Z h)%Q ->
     (inject_Z py <= SF2Q vy < inject_Z py + 1)%Q) /\
    ((inject_Z h <= SF2Q vy)%Q -> py = h - 1))).
Proof.
  split; [apply WorldToPixel_false_iff |].
  intros Hv Hw Hh vx vy.
  assert (Hrun : WorldToPixel wx wy bbox w h =
                 match static_cast_int vx, static_cast_int vy with
                 | Some nPixelX, Some nPixelY =>
                     PixelTrue (clamp_pixel w nPixelX) (clamp_pixel h nPixelY)
                 | _, _ => PixelUndefined
                 end).
  { unfold WorldToPixel. rewrite Hv.
    destruct (Z.leb_gt w 0) as [_ Hw']. destruct (Z.leb_gt h 0) as [_ Hh'].
    rewrite (Hw' Hw), (Hh' Hh). reflexivity. }
  destruct (static_cast_int_fits vx) as [Fx Nx].
  destruct (static_cast_int_fits vy) as [Fy Ny].
  change (@d_trunc spec_float B64_double) with b64_trunc in Fx, Nx, Fy, Ny.
  split; [| split; [| split]].
  - intros Hmax. apply (b64_of_Z_exact w). unfold INT_MAX in Hmax. lia.
  - intros Hmax. apply (b64_of_Z_exact h). unfold INT_MAX in Hmax. lia.
  - intros Hno. rewrite Hrun.
    destruct (Z_le_dec INT_MIN (b64_trunc vx)) as [Lx |];
      [destruct (Z_le_dec (b64_trunc vx) INT_MAX) as [Ux |] |];
      try (rewrite Nx by lia; reflexivity).
    rewrite (Fx (conj Lx Ux)).
    rewrite Ny; [reflexivity |]. intros Hy. apply Hno. split; [lia | exact Hy].
  - intros Hx Hy px py.
    destruct (b64_trunc_fits vx Hx) as [Ix Tx].
    destruct (b64_trunc_fits vy Hy) as [Iy Ty].
    pose proof (clamp_trunc_floor w (SF2Q vx) Hw) as Cx.
    pose proof (clamp_trunc_floor h (SF2Q vy) Hh) as Cy.
    cbv zeta in Cx, Cy. rewrite <- Tx in Cx. rewrite <- Ty in Cy.
    fold px in Cx. fold py in Cy.
    destruct Cx as (Bx & Ngx & Flx & Ex). destruct Cy as (By & Ngy & Fly & Ey).
    split; [| tauto].
    rewrite Hrun, (Fx Hx), (Fy Hy). reflexivity.
Qed.

(** At the world point (1, 1) of the box (0,0,49,49) on an image of 49
    by 49 pixels the quotient 1/49 is rounded, its product with 49 is the
    double just below 1, and the column is 0; in exact arithmetic the
    product is 1 and the column would be 1. *)
Lemma WorldToPixel_truncates_witness :
  WorldToPixel (d_of_int 1) (d_of_int 1) box64_0_49 49 49 = PixelTrue 0 48 /\
  (SF2Q (scaledX64 (d_of_int 1) box64_0_49 49) < 1)%Q /\
  (scaledX 1 box_0_49 49 == 1)%Q.
Proof.
  destruct (WorldToPixel_truncates (d_of_int 1) (d_of_int 1) box64_0_49 49 49)
    as [_ Ht].
  destruct Ht as (_ & _ & _ & Ht); [reflexivity | lia | lia |].
  destruct Ht as [Ht _]; [vm_compute; split; discriminate
                         | vm_compute; split; discriminate |].
  split; [exact Ht |]. split; reflexivity.
Defined.

(** C1 (as stated) fails: at world point (1.75, 1.75) in the box
    (0,0,4,4) on a 4x4 image the scaled x coordinate is 1.75, in
    binary64 as in exact arithmetic; the code yields pixel column 1 where
    the rounding of the claim yields 2. *)
Lemma WorldToPixel_not_rounded :
  WorldToPixel (b64_lit (7 # 4)) (b64_lit (7 # 4)) box64_0_4 4 4 = PixelTrue 1 2 /\
  (SF2Q (scaledX64 (b64_lit (7 # 4)) box64_0_4 4) == 7 # 4)%Q /\
  (SF2Q (scaledY64 (b64_lit (7 # 4)) box64_0_4 4) == 9 # 4)%Q /\
  WorldToPixel (7 # 4) (7 # 4) box_0_4 4 4 = PixelTrue 1 2 /\
  WorldToPixel_spec (7 # 4) (7 # 4) box_0_4 4 4 = Some (2, 2).
Proof. repeat split; reflexivity. Qed.


(** ** Request validation *)

Lemma maxTile_pow2 (z : Z) :
  0 <= z <= 20 -> int_wrap (Z.shiftl 1 z - 1) = 2 ^ z - 1.
Proof.
  intros Hz. rewrite Z.shiftl_1_l. unfold int_wrap.
  assert (0 < 2 ^ z) by (apply Z.pow_pos_nonneg; lia).
  assert (2 ^ z <= 2 ^ 20) by (apply Z.pow_le_mono_r; lia).
  change (2 ^ 20) with 1048576 in *.
  rewrite Z.mod_small; lia.
Qed.

Lemma ValidateTileParameters_valid_iff (z x y : Z) :
  ValidateTileParameters z x y = Valid <->
  (0 <= z <= 20 /\ 0 <= x <= 2 ^ z - 1 /\ 0 <= y <= 2 ^ z - 1).
Proof.
  unfold ValidateTileParameters.
  destruct (z <? 0) eqn:Hz0; simpl.
  { apply Z.ltb_lt in Hz0. split; [discriminate | lia]. }
  destruct (20 <? z) eqn:Hz20; simpl.
  { apply Z.ltb_lt in Hz20. split; [discriminate | lia]. }
  apply Z.ltb_ge in Hz0, Hz20.
  rewrite (maxTile_pow2 z) by lia.
  destruct (x <? 0) eqn:Hx0; simpl.
  { apply Z.ltb_lt in Hx0. split; [discriminate | lia]. }
  destruct (2 ^ z - 1 <? x) eqn:Hx1; simpl.
  { apply Z.ltb_lt in Hx1. split; [discriminate | lia]. }
  destruct (y <? 0) eqn:Hy0; simpl.
  { apply Z.ltb_lt in Hy0. split; [discriminate | lia]. }
  destruct (2 ^ z - 1 <? y) eqn:Hy1; simpl.
  { apply Z.ltb_lt in Hy1. split; [discriminate | lia]. }
  apply Z.ltb_ge in Hx0, Hx1, Hy0, Hy1. split; [lia | reflexivity].
Qed.

(** C7.  The tile validator accepts exactly the addresses with
    [z] in [0, 20] and [x], [y] in [0, 2^z - 1]; on every other address
    the handler answers with the validation error and neither the tile
    image nor its bounding box is produced, whatever the encoder. *)
Theorem ValidateTileParameters_exact (z x y : Z) :
  (ValidateTileParameters z x y = Valid <->
     (0 <= z <= 20 /\ 0 <= x <= 2 ^ z - 1 /\ 0 <= y <= 2 ^ z - 1)) /\
  match ValidateTileParameters z x y with
  | Valid => True
  | Invalid e =>
      forall (EncodeToMemory : list Z -> Z -> Z -> option (list Z)) (fr : Frame),
        HandleTileRequest EncodeToMemory z x y fr = (inl (TileRejected e), fr)
  end.
Proof.
  split; [apply ValidateTileParameters_valid_iff |].
  destruct (ValidateTileParameters z x y) as [| e] eqn:Hv; [exact I |].
  intros enc fr. unfold HandleTileRequest. rewrite Hv. reflexivity.
Qed.

Lemma ValidateTileParameters_exact_witness :
  ValidateTileParameters 3 7 0 = Valid /\
  forall enc fr,
    HandleTileRequest enc 3 8 0 fr =
    (inl (TileRejected "Tile X coordinate must be between 0 and 7"), fr).
Proof.
  split.
  - apply (proj1 (ValidateTileParameters_exact 3 7 0)). simpl. lia.
  - exact (proj2 (ValidateTileParameters_exact 3 8 0)).
Defined.

Section ValidateFacts.
Context {D : Type} `{DoubleArith D}.

(** A rejected request never reaches the renderer: the reply is the
    validation error for every engine, encoder and frame. *)
Lemma rejected_before_render (config : ServerConfig) (request : MapRequest D)
    (e : string) :
  ValidateMapRequestParameters config request = Invalid e ->
  forall enc err eng fr,
    HandleGenerateRequest enc err config eng request fr = ErrorReply "INVALID_REQUEST" e.
Proof.
  intros Hv enc err eng fr. unfold HandleGenerateRequest. rewrite Hv. reflexivity.
Qed.

(** The bounding box is the first rule: when it fails, nothing else of
    the request is looked at. *)
Lemma invalid_box_first (config : ServerConfig) (request : MapRequest D) :
  IsValid (m_bbox request) = false ->
  ValidateMapRequestParameters config request =
  Invalid "Invalid bounding box. minX must be less than maxX and minY less than maxY".
Proof.
  intros Hb. unfold ValidateMapRequestParameters. rewrite Hb. reflexivity.
Qed.
End ValidateFacts.

(** C3.  Under the default limits 4096x4096 is accepted and width 4097
    rejected with the width error; the box (-181,-90,0,90) is rejected
    with the longitude error; the background "#12345" is rejected with
    the background colour error and "#123456" accepted.  A rejection
    reports the first rule that fails (a request breaking all rules gets
    the bounding-box error; an invalid box overrides everything else), and
    a rejected request is answered without the renderer being entered. *)
Theorem validation_boundaries :
  ValidateMapRequestParameters GetDefaultConfig
    (plain_request world_box 4096 4096 "#ffffff") = Valid /\
  ValidateMapRequestParameters GetDefaultConfig
    (plain_request world_box 4097 4096 "#ffffff") =
    Invalid "Image width exceeds maximum allowed value of 4096" /\
  ValidateMapRequestParameters GetDefaultConfig
    (plain_request (mkBoundingBox (-181)%Q (-90)%Q 0%Q 90%Q) 4096 4096 "#ffffff") =
    Invalid "Longitude values must be between -180 and 180 degrees" /\
  ValidateMapRequestParameters GetDefaultConfig
    (plain_request world_box 4096 4096 "#12345") =
    Invalid "Background color must be in format #RRGGBB or #RGB" /\
  ValidateMapRequestParameters GetDefaultConfig
    (plain_request world_box 4096 4096 "#123456") = Valid /\
  ValidateMapRequestParameters GetDefaultConfig all_wrong_request =
    Invalid "Longitude values must be between -180 and 180 degrees" /\
  (forall config (request : MapRequest Q),
     IsValid (m_bbox request) = false ->
     ValidateMapRequestParameters config request =
     Invalid "Invalid bounding box. minX must be less than maxX and minY less than maxY") /\
  (forall config (request : MapRequest Q) e,
     ValidateMapRequestParameters config request = Invalid e ->
     forall enc err eng fr,
       HandleGenerateRequest enc err config eng request fr =
       ErrorReply "INVALID_REQUEST" e).
Proof.
  repeat split; try reflexivity.
  - intros config request. apply invalid_box_first.
  - intros config request e. apply rejected_before_render.
Qed.

Lemma validation_boundaries_witness :
  HandleGenerateRequest identity_encoder "" GetDefaultConfig default_engine
    (plain_request world_box 4097 4096 "#ffffff") empty_frame =
  ErrorReply "INVALID_REQUEST" "Image width exceeds maximum allowed value of 4096".
Proof.
  destruct validation_boundaries as (_ & _ & _ & _ & _ & _ & _ & Hrej).
  apply Hrej. reflexivity.
Defined.

(** ** Cache key *)

Lemma append_cancel_l (p a b : string) : p +:+ a = p +:+ b -> a = b.
Proof.
  induction p as [| c p IH]; simpl; intros Heq; [exact Heq |].
  injection Heq as Heq. exact (IH Heq).
Qed.

Lemma string_of_size_inj (n m : N) : string_of_size n = string_of_size m -> n = m.
Proof.
  unfold string_of_size. intros Heq.
  assert (Hu : forall k, NilZero.uint_of_string (NilZero.string_of_uint (N.to_uint k))
                         = Some (N.to_uint k)).
  { intros k. apply NilZero.usu. destruct k as [| q]; simpl; [discriminate |].
    apply DecimalPos.Unsigned.to_uint_nonnil. }
  pose proof (Hu n) as Hn. rewrite Heq, Hu in Hn.
  injection Hn as Hn. symmetry. apply DecimalN.Unsigned.to_uint_inj. exact Hn.
Qed.

(** A comma-free name followed by nothing or by a comma is cut off at a
    unique place. *)
Lemma name_then_comma (a b r1 r2 : string) :
  comma_free a = true -> comma_free b = true ->
  (r1 = "" \/ exists t, r1 = String "," t) ->
  (r2 = "" \/ exists t, r2 = String "," t) ->
  a +:+ r1 = b +:+ r2 -> a = b /\ r1 = r2.
Proof.
  revert b. induction a as [| c a IH]; intros b Ha Hb H1 H2 Heq.
  - destruct b as [| d b]; [split; [reflexivity | exact Heq] |].
    exfalso. simpl in Heq. unfold comma_free in Hb. simpl in Hb.
    destruct H1 as [-> | [t ->]]; [discriminate |].
    injection Heq as Hd _. subst d. discriminate.
  - destruct b as [| d b].
    + exfalso. simpl in Heq. unfold comma_free in Ha. simpl in Ha.
      destruct H2 as [-> | [t ->]]; [discriminate |].
      injection Heq as Hc _. subst c. discriminate.
    + simpl in Heq. injection Heq as Hc Heq. subst d.
      unfold comma_free in Ha, Hb. simpl in Ha, Hb.
      apply andb_prop in Ha as [_ Ha]. apply andb_prop in Hb as [_ Hb].
      destruct (IH b Ha Hb H1 H2 Heq) as [-> ->]. split; reflexivity.
Qed.

Lemma layers_text_shape (l : list string) :
  layers_text l = "" \/ exists t, layers_text l = String "," t.
Proof. destruct l as [| a l]; [left; reflexivity | right; simpl; eauto]. Qed.

Lemma layers_text_inj (l1 l2 : list string) :
  Forall (fun s => comma_free s = true) l1 ->
  Forall (fun s => comma_free s = true) l2 ->
  layers_text l1 = layers_text l2 -> l1 = l2.
Proof.
  revert l2. induction l1 as [| a l1 IH]; intros l2 H1 H2 Heq.
  - destruct l2 as [| b l2]; [reflexivity | discriminate].
  - destruct l2 as [| b l2]; [discriminate |].
    inversion H1 as [| ? ? Ha H1']; subst. inversion H2 as [| ? ? Hb H2']; subst.
    simpl in Heq. apply (append_cancel_l ",layer:") in Heq.
    destruct (name_then_comma a b _ _ Ha Hb
                (layers_text_shape l1) (layers_text_shape l2) Heq) as [-> Hr].
    f_equal. exact (IH l2 H1' H2' Hr).
Qed.

Section CacheKeyFacts.
Context {D : Type}.
Variable fmt_double : D -> string.
Variable std_hash : string -> N.

Lemma cache_key_text_layers (r1 r2 : MapRequest D) :
  m_bbox r1 = m_bbox r2 -> m_nWidth r1 = m_nWidth r2 ->
  m_nHeight r1 = m_nHeight r2 ->
  m_strBackgroundColor r1 = m_strBackgroundColor r2 ->
  cache_key_text fmt_double r1 = cache_key_text fmt_double r2 ->
  layers_text (m_vecLayers r1) = layers_text (m_vecLayers r2).
Proof.
  intros Hb Hw Hh Hbg. unfold cache_key_text. rewrite Hb, Hw, Hh, Hbg.
  intros Heq. repeat (apply append_cancel_l in Heq). exact Heq.
Qed.

Lemma cache_key_of_text (r1 r2 : MapRequest D) :
  cache_key_text fmt_double r1 = cache_key_text fmt_double r2 ->
  GenerateCacheKey fmt_double std_hash r1 = GenerateCacheKey fmt_double std_hash r2.
Proof. unfold GenerateCacheKey. intros ->. reflexivity. Qed.
End CacheKeyFacts.

(** C4 (as amended).  Equal requests have equal keys.  Two requests
    that differ only in the order of their layer names, none of which
    contains a comma, give the hash different texts; their keys differ
    whenever [std::hash] tells the two texts apart. *)
Theorem cache_key_stability {D : Type} (fmt_double : D -> string)
    (std_hash : string -> N) (r1 r2 : MapRequest D) :
  (r1 = r2 ->
   GenerateCacheKey fmt_double std_hash r1 = GenerateCacheKey fmt_double std_hash r2) /\
  (differ_only_in_layer_order r1 r2 ->
   Forall (fun s => comma_free s = true) (m_vecLayers r1) ->
   Forall (fun s => comma_free s = true) (m_vecLayers r2) ->
   cache_key_text fmt_double r1 <> cache_key_text fmt_double r2 /\
   (std_hash (cache_key_text fmt_double r1) <> std_hash (cache_key_text fmt_double r2) ->
    GenerateCacheKey fmt_double std_hash r1 <> GenerateCacheKey fmt_double std_hash r2)).
Proof.
  split; [intros ->; reflexivity |].
  intros (Hb & Hw & Hh & _ & Hbg & _ & _ & Hne) F1 F2. split.
  - intros Heq. apply Hne. apply layers_text_inj; [assumption | assumption |].
    exact (cache_key_text_layers fmt_double r1 r2 Hb Hw Hh Hbg Heq).
  - intros Hh' Hk. apply Hh'. unfold GenerateCacheKey in Hk.
    exact (string_of_size_inj _ _ Hk).
Qed.

Lemma cache_key_stability_witness :
  GenerateCacheKey sample_fmt sample_hash (layered_request ["roads"; "rivers"]) <>
  GenerateCacheKey sample_fmt sample_hash (layered_request ["rivers"; "roads"]).
Proof.
  destruct (cache_key_stability sample_fmt sample_hash
              (layered_request ["roads"; "rivers"])
              (layered_request ["rivers"; "roads"])) as [_ Hd].
  destruct Hd as [_ Hk].
  - repeat split; try reflexivity; [apply perm_swap | discriminate].
  - repeat constructor.
  - repeat constructor.
  - apply Hk. vm_compute. discriminate.
Defined.

(** C4 (as stated) fails: the layer lists ["a"; "a,layer:a"] and
    ["a,layer:a"; "a"] are two orders of the same names, and the text that
    is hashed is the same for both, so the keys are equal for every hash
    and every number format. *)
Lemma cache_key_order_collision :
  differ_only_in_layer_order (layered_request ["a"; "a,layer:a"])
                             (layered_request ["a,layer:a"; "a"]) /\
  (forall (fmt_double : Q -> string) (std_hash : string -> N),
     GenerateCacheKey fmt_double std_hash (layered_request ["a"; "a,layer:a"]) =
     GenerateCacheKey fmt_double std_hash (layered_request ["a,layer:a"; "a"])).
Proof.
  split.
  - repeat split; try reflexivity; [apply perm_swap | discriminate].
  - intros fmt_double std_hash. reflexivity.
Qed.

(** ** Drawing keeps the buffer *)

Lemma draws_ret {A} t (a : A) (post : A -> Prop) : post a -> draws t (ret a) post.
Proof. intros Ha img. exists (inl a), img. repeat split; assumption. Qed.

Lemma draws_lift {A} t (r : A + exn) (post : A -> Prop) :
  (t = false -> parses r = true) ->
  (forall a, r = inl a -> post a) ->
  draws t (lift r) post.
Proof.
  intros Ht Hp img. destruct r as [a | e]; simpl.
  - exists (inl a), img. repeat split. apply Hp. reflexivity.
  - exists (inr (Throw e)), img. repeat split.
    destruct t; [reflexivity |]. specialize (Ht eq_refl). discriminate.
Qed.

Lemma draws_bind {A B} t (m : Canvas A) (k : A -> Canvas B)
    (mid : A -> Prop) (post : B -> Prop) :
  draws t m mid -> (forall a, mid a -> draws t (k a) post) ->
  draws t (bind m k) post.
Proof.
  intros Hm Hk img. destruct (Hm img) as (r & img1 & Hlen & Hrun & Hr).
  destruct r as [a | f].
  - destruct (Hk a Hr img1) as (r2 & img2 & Hlen2 & Hrun2 & Hr2).
    exists r2, img2. split; [congruence |]. split; [| exact Hr2].
    intros e. unfold bind. rewrite Hrun. apply Hrun2.
  - exists (inr f), img1. split; [exact Hlen |]. split; [| exact Hr].
    intros e. unfold bind. rewrite Hrun. reflexivity.
Qed.

Lemma draws_weaken {A} t (m : Canvas A) (p q : A -> Prop) :
  draws t m p -> (forall a, p a -> q a) -> draws t m q.
Proof.
  intros Hm Hpq img. destruct (Hm img) as (r & img1 & Hlen & Hrun & Hr).
  exists r, img1. repeat split; try assumption.
  destruct r as [a | [e |]]; auto.
Qed.

Lemma draws_for_each {A} t (l : list A) (body : A -> Canvas unit) :
  (forall x, In x l -> draws t (body x) (fun _ => True)) ->
  draws t (for_each l body) (fun _ => True).
Proof.
  induction l as [| x l IH]; intros Hb; simpl.
  - apply draws_ret. exact I.
  - apply draws_bind with (mid := fun _ => True).
    + apply Hb. left. reflexivity.
    + intros _ _. apply IH. intros y Hy. apply Hb. right. exact Hy.
Qed.

Lemma draws_if {A} t (c : bool) (m1 m2 : Canvas A) (post : A -> Prop) :
  draws t m1 post -> draws t m2 post -> draws t (if c then m1 else m2) post.
Proof. destruct c; auto. Qed.

Lemma vec_set_inside (i b : Z) (e : string) (img : list Z) :
  0 <= i < Z.of_nat (length img) ->
  vec_set i b (mkFrame e img) = (inl tt, mkFrame e (<[Z.to_nat i := b]> img)).
Proof.
  intros [Hlo Hhi]. unfold vec_set. simpl.
  apply Z.leb_le in Hlo. apply Z.ltb_lt in Hhi. rewrite Hlo, Hhi. reflexivity.
Qed.

(** A pixel index is a multiple of four below [2^64]. *)
Lemma pixel_index_mult4 (y w x : Z) :
  exists j, pixel_index y w x = 4 * j /\ 0 <= j < 4611686018427387904.
Proof.
  unfold pixel_index, size_wrap.
  set (q := (y mod 18446744073709551616 * (w mod 18446744073709551616) +
             x mod 18446744073709551616) mod 18446744073709551616).
  exists (q mod 4611686018427387904). split.
  - change 18446744073709551616 with (4611686018427387904 * 4).
    rewrite Z.mul_mod_distr_r by lia. lia.
  - apply Z.mod_pos_bound. lia.
Qed.

(** The guard of [put_pixel] is enough: the four stores stay inside. *)
Lemma draws_put_pixel t (j r g b a : Z) :
  0 <= j < 4611686018427387904 ->
  draws t (put_pixel (4 * j) r g b a) (fun _ => True).
Proof.
  intros Hj img.
  assert (W : forall d, 0 <= d <= 3 -> size_wrap (4 * j + d) = 4 * j + d).
  { intros d Hd. unfold size_wrap. apply Z.mod_small. lia. }
  unfold put_pixel, store_pixel, bind, vec_size. simpl.
  rewrite (W 3) by lia. rewrite (W 1) by lia. rewrite (W 2) by lia.
  destruct (4 * j + 3 <? Z.of_nat (length img)) eqn:Hg.
  - apply Z.ltb_lt in Hg.
    exists (inl tt),
      (<[Z.to_nat (4 * j + 3) := a]>
         (<[Z.to_nat (4 * j + 2) := b]>
            (<[Z.to_nat (4 * j + 1) := g]> (<[Z.to_nat (4 * j) := r]> img)))).
    split; [rewrite !length_insert; reflexivity |]. split; [| exact I].
    intros e.
    rewrite vec_set_inside by lia.
    rewrite vec_set_inside by (rewrite !length_insert; lia).
    rewrite vec_set_inside by (rewrite !length_insert; lia).
    rewrite vec_set_inside by (rewrite !length_insert; lia).
    reflexivity.
  - exists (inl tt), img. repeat split.
Qed.

Lemma draws_pixel t (y w x r g b a : Z) :
  draws t (put_pixel (pixel_index y w x) r g b a) (fun _ => True).
Proof.
  destruct (pixel_index_mult4 y w x) as (j & -> & Hj).
  apply draws_put_pixel. exact Hj.
Qed.

(** [DrawFeatures] keeps the buffer and answers [true]; it throws only
    on a colour that does not parse. *)
Lemma draws_DrawFeatures {D} t (style : LayerStyle) (w h : Z) (bbox : BoundingBox D) :
  (t = false -> style_ok style = true) ->
  draws t (DrawFeatures style w h bbox) (fun ok => ok = true).
Proof.
  intros Hok. unfold DrawFeatures.
  assert (Hfill : t = false -> parses (style_rgb (m_strFillColor style) 255 0 0) = true).
  { intros Ht. specialize (Hok Ht). apply andb_prop in Hok. tauto. }
  assert (Hstroke : t = false -> parses (style_rgb (m_strStrokeColor style) 0 0 0) = true).
  { intros Ht. specialize (Hok Ht). apply andb_prop in Hok. tauto. }
  apply draws_bind with (mid := fun _ => True).
  { apply draws_lift; [exact Hfill | auto]. }
  intros [[r g] b] _.
  apply draws_bind with (mid := fun _ => True).
  { apply draws_for_each. intros y _. apply draws_for_each. intros x _.
    apply draws_pixel. }
  intros _ _.
  apply draws_bind with (mid := fun _ => True).
  { apply draws_lift; [exact Hstroke | auto]. }
  intros [[sr sg] sb] _.
  repeat (apply draws_bind with (mid := fun _ => True);
          [ apply draws_for_each; intros k _; apply draws_if;
            [ apply draws_for_each; intros x _; apply draws_pixel
            | apply draws_ret; exact I ]
          | intros _ _ ]).
  apply draws_ret. reflexivity.
Qed.

(** ** The blank canvas *)

Lemma vec_set_app (pre l : list Z) (j : nat) (b : Z) (e : string) :
  (j < length l)%nat ->
  vec_set (Z.of_nat (length pre + j)) b (mkFrame e (pre ++ l)) =
  (inl tt, mkFrame e (pre ++ <[j := b]> l)).
Proof.
  intros Hj. rewrite vec_set_inside.
  - rewrite Nat2Z.id, insert_app_r. reflexivity.
  - rewrite length_app. lia.
Qed.

Section Fill.
Variables r g b a : Z.

Lemma fill_step (k0 : nat) (pre rest : list Z) (x0 x1 x2 x3 : Z) (e : string) :
  length pre = (4 * k0)%nat ->
  4 * Z.of_nat k0 + 3 < 18446744073709551616 ->
  store_pixel (4 * Z.of_nat k0) r g b a
    (mkFrame e (pre ++ x0 :: x1 :: x2 :: x3 :: rest)) =
  (inl tt, mkFrame e ((pre ++ [r; g; b; a]) ++ rest)).
Proof.
  intros Hpre Hbound. unfold store_pixel, bind.
  assert (W : forall d, 0 <= d <= 3 ->
              size_wrap (4 * Z.of_nat k0 + d) = Z.of_nat (length pre + Z.to_nat d)).
  { intros d Hd. unfold size_wrap. rewrite Z.mod_small by lia. lia. }
  replace (4 * Z.of_nat k0) with (Z.of_nat (length pre + 0)) at 1 by lia.
  rewrite vec_set_app by (simpl; lia). simpl insert.
  rewrite (W 1) by lia. rewrite vec_set_app by (simpl; lia).
  rewrite (W 2) by lia. rewrite vec_set_app by (simpl; lia).
  rewrite (W 3) by lia. rewrite vec_set_app by (simpl; lia).
  simpl. rewrite <- app_assoc. reflexivity.
Qed.

Lemma fill_loop (e : string) (cnt : nat) :
  forall (k0 : nat) (pre rest : list Z),
    length pre = (4 * k0)%nat ->
    length rest = (4 * cnt)%nat ->
    4 * Z.of_nat (k0 + cnt) <= 18446744073709551616 ->
    for_each (map (fun k => 4 * Z.of_nat k) (seq k0 cnt))
      (fun i => store_pixel i r g b a) (mkFrame e (pre ++ rest)) =
    (inl tt, mkFrame e (pre ++ concat (replicate cnt [r; g; b; a]))).
Proof.
  induction cnt as [| cnt IH]; intros k0 pre rest Hpre Hrest Hbound.
  - destruct rest; [reflexivity | discriminate].
  - destruct rest as [| x0 [| x1 [| x2 [| x3 tl]]]];
      try (exfalso; simpl in Hrest; lia).
    simpl seq. simpl map. simpl for_each. unfold bind at 1.
    rewrite (fill_step k0 pre tl x0 x1 x2 x3 e Hpre) by lia.
    rewrite IH.
    + simpl. rewrite <- app_assoc. reflexivity.
    + rewrite length_app. simpl. lia.
    + simpl in Hrest. lia.
    + lia.
Qed.
End Fill.

Lemma data_size (w h : Z) :
  0 < w <= INT_MAX -> 0 < h <= INT_MAX ->
  size_wrap (size_wrap (size_wrap w * size_wrap h) * 4) = 4 * (w * h).
Proof.
  unfold INT_MAX, size_wrap. intros Hw Hh.
  assert (0 < w * h) by nia.
  assert (w * h <= 2147483647 * 2147483647) by nia.
  rewrite (Z.mod_small w) by lia. rewrite (Z.mod_small h) by lia.
  rewrite (Z.mod_small (w * h)) by lia. rewrite Z.mod_small by lia. lia.
Qed.

(** What [CreateBlankImage] does on positive dimensions: every pixel
    gets the parsed colour, or the exception of the parse leaves. *)
Lemma CreateBlankImage_run (w h : Z) (bg : string) (fr : Frame) :
  0 < w <= INT_MAX -> 0 < h <= INT_MAX ->
  CreateBlankImage w h bg fr =
  match background_rgba bg with
  | inl (r, g, b, a) =>
      (inl true, mkFrame (m_strError fr)
                   (concat (replicate (Z.to_nat (w * h)) [r; g; b; a])))
  | inr e => (inr (Throw e), fr)
  end.
Proof.
  intros Hw Hh. unfold CreateBlankImage.
  destruct (Z.leb_gt w 0) as [_ Hw']. destruct (Z.leb_gt h 0) as [_ Hh'].
  rewrite Hw', Hh' by lia. change (false || false) with false. cbv iota.
  destruct fr as [err img].
  destruct (background_rgba bg) as [[[[r g] b] a] | e]; [| reflexivity].
  assert (Hpos : 0 < w * h) by nia.
  cbn [lift bind ret vec_resize m_strError vecImageData].
  rewrite (data_size w h Hw Hh). unfold stride4.
  replace ((4 * (w * h) + 3) / 4) with (w * h)
    by (apply Z.div_unique with (r := 3); lia).
  pose proof (fill_loop r g b a err (Z.to_nat (w * h)) 0 []
                (take (Z.to_nat (4 * (w * h))) img ++
                 replicate (Z.to_nat (4 * (w * h)) - length img) 0)) as Hloop.
  simpl app in Hloop. unfold bind at 1. rewrite Hloop.
  - reflexivity.
  - reflexivity.
  - rewrite length_app, length_take, length_replicate. lia.
  - unfold INT_MAX in *. nia.
Qed.

(** ** Colour parsing *)

Lemma hex_digit_facts (c : ascii) (d : Z) :
  hex_digit c = Some d ->
  0 <= d <= 15 /\ isspace c = false /\ (code c =? 45) = false /\ (code c =? 43) = false.
Proof.
  unfold hex_digit, isspace. generalize (code c). intros n.
  destruct (Z.leb_spec 48 n), (Z.leb_spec n 57), (Z.leb_spec 97 n),
    (Z.leb_spec n 102), (Z.leb_spec 65 n), (Z.leb_spec n 70);
    simpl; intros Hd; try discriminate; injection Hd as <-;
    (split; [lia |]);
    destruct (Z.eqb_spec n 32), (Z.leb_spec 9 n), (Z.leb_spec n 13),
      (Z.eqb_spec n 45), (Z.eqb_spec n 43); simpl; try lia; auto.
Qed.

Lemma is_hex_digit (c : ascii) :
  is_hex c = true -> hex_digit c = Some (hex_value c).
Proof. unfold is_hex, hex_value. destruct (hex_digit c); [reflexivity | discriminate]. Qed.

Lemma not_hex_digit (c : ascii) : is_hex c = false -> hex_digit c = None.
Proof. unfold is_hex. destruct (hex_digit c); [discriminate | reflexivity]. Qed.

Lemma substring_pair (c1 c2 : ascii) (rest : string) :
  substring 0 2 (String c1 (String c2 rest)) = String c1 (String c2 "").
Proof. simpl. destruct rest; reflexivity. Qed.

(** Two hexadecimal digits convert to their byte. *)
Lemma hex_channel_digits (c1 c2 : ascii) (rest : string) :
  is_hex c1 = true -> is_hex c2 = true ->
  hex_channel (String c1 (String c2 rest)) 0 = inl (hex_byte c1 c2).
Proof.
  intros H1 H2. unfold hex_channel. rewrite substring_pair.
  pose proof (is_hex_digit c1 H1) as D1. pose proof (is_hex_digit c2 H2) as D2.
  destruct (hex_digit_facts c1 _ D1) as (R1 & S1 & M1 & P1).
  destruct (hex_digit_facts c2 _ D2) as (R2 & _).
  unfold stoi16. simpl list_ascii_of_string. simpl skip_space. rewrite S1.
  rewrite M1, P1. rewrite H1. simpl hex_run. rewrite D1, D2.
  unfold hex_byte, to_uint8, INT_MIN, INT_MAX.
  replace (16 * (16 * 0 + hex_value c1) + hex_value c2)
    with (16 * hex_value c1 + hex_value c2) by lia.
  destruct (Z.leb_spec (-2147483648) (16 * hex_value c1 + hex_value c2)); [| lia].
  destruct (Z.leb_spec (16 * hex_value c1 + hex_value c2) 2147483647); [| lia].
  simpl. rewrite Z.mod_small by lia. reflexivity.
Qed.

(** A digit followed by something else converts to the digit alone. *)
Lemma hex_channel_partial (c1 c2 : ascii) (rest : string) :
  is_hex c1 = true -> is_hex c2 = false ->
  hex_channel (String c1 (String c2 rest)) 0 = inl (hex_value c1).
Proof.
  intros H1 H2. unfold hex_channel. rewrite substring_pair.
  pose proof (is_hex_digit c1 H1) as D1. pose proof (not_hex_digit c2 H2) as D2.
  destruct (hex_digit_facts c1 _ D1) as (R1 & S1 & M1 & P1).
  unfold stoi16. simpl list_ascii_of_string. simpl skip_space. rewrite S1.
  rewrite M1, P1. rewrite H1. simpl hex_run. rewrite D1, D2.
  unfold to_uint8, INT_MIN, INT_MAX.
  replace (16 * 0 + hex_value c1) with (hex_value c1) by lia.
  destruct (Z.leb_spec (-2147483648) (hex_value c1)); [| lia].
  destruct (Z.leb_spec (hex_value c1) 2147483647); [| lia].
  simpl. rewrite Z.mod_small by lia. reflexivity.
Qed.

(** No digit to start with: the conversion throws. *)
Lemma hex_channel_throws (c1 c2 : ascii) (rest : string) :
  is_hex c1 = false -> isspace c1 = false ->
  (code c1 =? 45) = false -> (code c1 =? 43) = false ->
  hex_channel (String c1 (String c2 rest)) 0 = inr std_invalid_argument.
Proof.
  intros H1 S1 M1 P1. unfold hex_channel. rewrite substring_pair.
  unfold stoi16. simpl list_ascii_of_string. simpl skip_space. rewrite S1.
  rewrite M1, P1. rewrite H1. reflexivity.
Qed.

Lemma strlen_String (c : ascii) (s : string) : strlen (String c s) = strlen s + 1.
Proof. unfold strlen. simpl String.length. lia. Qed.

Lemma hex_channel_skip (a b : ascii) (s : string) (n : nat) :
  hex_channel (String a (String b s)) (S (S n)) = hex_channel s n.
Proof. reflexivity. Qed.

Lemma background_rgba_hex6 (c1 c2 c3 c4 c5 c6 : ascii) :
  forallb is_hex [c1; c2; c3; c4; c5; c6] = true ->
  background_rgba (hash_color [c1; c2; c3; c4; c5; c6]) =
  inl (hex_byte c1 c2, hex_byte c3 c4, hex_byte c5 c6, 255).
Proof.
  simpl forallb. intros Hx.
  repeat (apply andb_prop in Hx as [? Hx]).
  unfold background_rgba, hash_color. simpl substr1. simpl starts_with_hash.
  simpl strlen. simpl andb. cbv iota.
  rewrite hex_channel_digits by assumption.
  rewrite (hex_channel_skip c1 c2 _ 0), hex_channel_digits by assumption.
  rewrite (hex_channel_skip c1 c2 _ 2), (hex_channel_skip c3 c4 _ 0),
    hex_channel_digits by assumption.
  reflexivity.
Qed.

Lemma background_rgba_hex8 (c1 c2 c3 c4 c5 c6 c7 c8 : ascii) :
  forallb is_hex [c1; c2; c3; c4; c5; c6; c7; c8] = true ->
  background_rgba (hash_color [c1; c2; c3; c4; c5; c6; c7; c8]) =
  inl (hex_byte c1 c2, hex_byte c3 c4, hex_byte c5 c6, hex_byte c7 c8).
Proof.
  simpl forallb. intros Hx.
  repeat (apply andb_prop in Hx as [? Hx]).
  unfold background_rgba, hash_color. simpl substr1. simpl starts_with_hash.
  simpl strlen. simpl andb. cbv iota.
  rewrite hex_channel_digits by assumption.
  rewrite (hex_channel_skip c1 c2 _ 0), hex_channel_digits by assumption.
  rewrite (hex_channel_skip c1 c2 _ 2), (hex_channel_skip c3 c4 _ 0),
    hex_channel_digits by assumption.
  rewrite (hex_channel_skip c1 c2 _ 4), (hex_channel_skip c3 c4 _ 2),
    (hex_channel_skip c5 c6 _ 0), hex_channel_digits by assumption.
  reflexivity.
Qed.

Lemma background_rgba_default (bg : string) :
  starts_with_hash bg = false \/
  (strlen (substr1 bg) <> 6 /\ strlen (substr1 bg) <> 8) ->
  background_rgba bg = inl (255, 255, 255, 255).
Proof.
  intros Hc. unfold background_rgba.
  destruct Hc as [-> | [H6 H8]]; [reflexivity |].
  apply Z.eqb_neq in H6, H8. rewrite H6, H8, andb_false_r. reflexivity.
Qed.

Lemma length_pixels (n : nat) (r g b a : Z) :
  length (concat (replicate n [r; g; b; a])) = (4 * n)%nat.
Proof. induction n as [| n IH]; simpl; [reflexivity | rewrite IH; lia]. Qed.

(** Byte [k] of pixel [p] of a buffer of equal pixels. *)
Lemma blank_lookup (n p : nat) (k : nat) (r g b a : Z) :
  (p < n)%nat -> (k < 4)%nat ->
  concat (replicate n [r; g; b; a]) !! (4 * p + k)%nat = [r; g; b; a] !! k.
Proof.
  revert p. induction n as [| n IH]; intros p Hp Hk; [lia |].
  simpl replicate. simpl concat. destruct p as [| p].
  - simpl. destruct k as [| [| [| [| k]]]]; try reflexivity. lia.
  - replace (4 * Datatypes.S p + k)%nat
      with (Datatypes.S (Datatypes.S (Datatypes.S (Datatypes.S (4 * p + k))))) by lia.
    simpl. apply IH; lia.
Qed.

(** C5 (as amended).  On positive dimensions [CreateBlankImage], when it
    returns, returns [true] with a buffer of exactly [width*height*4]
    bytes.  A colour [#RRGGBB] fills every pixel with those three bytes
    and alpha 255, a colour [#RRGGBBAA] with the four bytes; a string that
    does not start with [#] (the empty one included) or whose hex part has
    any other length (the form [#RGB] included) leaves every pixel opaque
    white. *)
Theorem CreateBlankImage_fills (w h : Z) (fr : Frame) :
  0 < w <= INT_MAX -> 0 < h <= INT_MAX ->
  let filled px :=
    (inl true, mkFrame (m_strError fr) (concat (replicate (Z.to_nat (w * h)) px))) in
  (forall bg ok fr',
     CreateBlankImage w h bg fr = (inl ok, fr') ->
     ok = true /\ Z.of_nat (length (vecImageData fr')) = w * h * 4) /\
  (forall c1 c2 c3 c4 c5 c6,
     forallb is_hex [c1; c2; c3; c4; c5; c6] = true ->
     CreateBlankImage w h (hash_color [c1; c2; c3; c4; c5; c6]) fr =
     filled [hex_byte c1 c2; hex_byte c3 c4; hex_byte c5 c6; 255]) /\
  (forall c1 c2 c3 c4 c5 c6 c7 c8,
     forallb is_hex [c1; c2; c3; c4; c5; c6; c7; c8] = true ->
     CreateBlankImage w h (hash_color [c1; c2; c3; c4; c5; c6; c7; c8]) fr =
     filled [hex_byte c1 c2; hex_byte c3 c4; hex_byte c5 c6; hex_byte c7 c8]) /\
  (forall bg,
     starts_with_hash bg = false \/
     (strlen (substr1 bg) <> 6 /\ strlen (substr1 bg) <> 8) ->
     CreateBlankImage w h bg fr = filled [255; 255; 255; 255]).
Proof.
  intros Hw Hh filled. unfold filled. repeat split.
  - rewrite (CreateBlankImage_run w h bg fr Hw Hh) in H.
    destruct (background_rgba bg) as [[[[r g] b] a] | e]; congruence.
  - rewrite (CreateBlankImage_run w h bg fr Hw Hh) in H.
    destruct (background_rgba bg) as [[[[r g] b] a] | e]; [| discriminate].
    injection H as _ <-. simpl. rewrite length_pixels. nia.
  - intros c1 c2 c3 c4 c5 c6 Hx.
    rewrite (CreateBlankImage_run w h _ fr Hw Hh), (background_rgba_hex6 _ _ _ _ _ _ Hx).
    reflexivity.
  - intros c1 c2 c3 c4 c5 c6 c7 c8 Hx.
    rewrite (CreateBlankImage_run w h _ fr Hw Hh),
      (background_rgba_hex8 _ _ _ _ _ _ _ _ Hx).
    reflexivity.
  - intros bg Hbg.
    rewrite (CreateBlankImage_run w h _ fr Hw Hh), (background_rgba_default bg Hbg).
    reflexivity.
Qed.

Lemma CreateBlankImage_fills_witness :
  CreateBlankImage 2 1 "#1a2B3c" empty_frame =
    (inl true, mkFrame "" [26; 43; 60; 255; 26; 43; 60; 255]) /\
  CreateBlankImage 2 1 "#f00" empty_frame =
    (inl true, mkFrame "" [255; 255; 255; 255; 255; 255; 255; 255]).
Proof.
  assert (H2 : 0 < 2 <= INT_MAX) by (unfold INT_MAX; lia).
  assert (H1 : 0 < 1 <= INT_MAX) by (unfold INT_MAX; lia).
  destruct (CreateBlankImage_fills 2 1 empty_frame H2 H1) as (_ & H6 & _ & Hd).
  split.
  - exact (H6 "1"%char "a"%char "2"%char "B"%char "3"%char "c"%char eq_refl).
  - apply (Hd "#f00"). right. split; discriminate.
Defined.

(** C5 (as stated) fails on the form [#RGB]: the background "#000" is
    black in the reading of the specification, and the code paints the
    pixel opaque white. *)
Lemma CreateBlankImage_ignores_rgb :
  CreateBlankImage 1 1 "#000" empty_frame = (inl true, mkFrame "" [255; 255; 255; 255]) /\
  background_rgba_spec "#000" = (0, 0, 0, 255).
Proof. split; reflexivity. Qed.

(** C6 (as stated) fails: the colour "#gggggg" has an accepted length
    and no hexadecimal digit; [CreateBlankImage] and [DrawFeatures] are
    left by [std::invalid_argument] instead of returning, and for
    "#1g1g1g" the channels are 1, 1, 1 and not the defaults. *)
Lemma non_hex_color_throws :
  CreateBlankImage 1 1 "#gggggg" empty_frame =
    (inr (Throw std_invalid_argument), empty_frame) /\
  DrawFeatures (filled_with "#gggggg") 4 4 box_0_4 (mkFrame "" (repeat 0 64)) =
    (inr (Throw std_invalid_argument), mkFrame "" (repeat 0 64)) /\
  CreateBlankImage 1 1 "#1g1g1g" empty_frame = (inl true, mkFrame "" [1; 1; 1; 255]).
Proof. repeat split; vm_compute; reflexivity. Qed.

(** ** Rendering *)

Lemma bind_run {A B} (m : Canvas A) (k : A -> Canvas B) (fr : Frame) :
  bind m k fr =
  match m fr with
  | (inl a, fr') => k a fr'
  | (inr f, fr') => (inr f, fr')
  end.
Proof. reflexivity. Qed.

Lemma DrawFeatures_paint {D} (style : LayerStyle) (w h : Z) (bbox : BoundingBox D)
    (e : string) (img : list Z) :
  style_ok style = true ->
  DrawFeatures style w h bbox (mkFrame e img) =
  (inl true, mkFrame e (paint w h bbox img style)).
Proof.
  intros Hok.
  destruct (draws_DrawFeatures false style w h bbox (fun _ => Hok) img)
    as (r & img' & _ & Hrun & Hr).
  unfold paint. rewrite (Hrun ""), (Hrun e). simpl.
  destruct r as [ok | [x |]]; [subst ok; reflexivity | discriminate | contradiction].
Qed.

Section RenderFacts.
Context {D : Type} `{DoubleArith D}.
Variable EncodeToMemory : list Z -> Z -> Z -> option (list Z).
Variable fresh_encoder_error : string.

Lemma draw_layers_fold (request : MapRequest D) (layers : list string)
    (e : string) (img : list Z) :
  Forall (fun st => style_ok st = true) (map (style_for (m_mapStyles request)) layers) ->
  draw_layers request layers (mkFrame e img) =
  (inl true,
   mkFrame e (fold_left (paint (m_nWidth request) (m_nHeight request) (m_bbox request))
                (map (style_for (m_mapStyles request)) layers) img)).
Proof.
  revert img. induction layers as [| name layers IH]; intros img Hok.
  - reflexivity.
  - simpl map in Hok. inversion Hok as [| ? ? Hst Hrest]; subst.
    simpl draw_layers. unfold bind. rewrite (DrawFeatures_paint _ _ _ _ _ _ Hst).
    rewrite (IH _ Hrest). reflexivity.
Qed.

Lemma RenderMap_not_initialized (eng : RenderEngine) (request : MapRequest D)
    (fr : Frame) :
  m_bInitialized eng = false ->
  RenderMap EncodeToMemory fresh_encoder_error eng request fr =
  (inl None, mkFrame "RenderEngine not initialized" (vecImageData fr)).
Proof. intros Hi. unfold RenderMap. rewrite Hi. reflexivity. Qed.

Lemma RenderMap_invalid_box (eng : RenderEngine) (request : MapRequest D)
    (fr : Frame) :
  m_bInitialized eng = true -> IsValid (m_bbox request) = false ->
  RenderMap EncodeToMemory fresh_encoder_error eng request fr =
  (inl None, mkFrame "Invalid bounding box" (vecImageData fr)).
Proof. intros Hi Hb. unfold RenderMap. rewrite Hi, Hb. reflexivity. Qed.

Lemma RenderMap_invalid_dimensions (eng : RenderEngine) (request : MapRequest D)
    (fr : Frame) :
  m_bInitialized eng = true -> IsValid (m_bbox request) = true ->
  (m_nWidth request <= 0 \/ m_nHeight request <= 0 \/
   m_nMaxImageWidth (m_config eng) < m_nWidth request \/
   m_nMaxImageHeight (m_config eng) < m_nHeight request) ->
  RenderMap EncodeToMemory fresh_encoder_error eng request fr =
  (inl None, mkFrame "Invalid image dimensions" (vecImageData fr)).
Proof.
  intros Hi Hb Hd. unfold RenderMap. rewrite Hi, Hb. simpl negb. cbv iota.
  assert (Hg : (m_nWidth request <=? 0) || (m_nHeight request <=? 0) ||
               (m_nMaxImageWidth (m_config eng) <? m_nWidth request) ||
               (m_nMaxImageHeight (m_config eng) <? m_nHeight request) = true).
  { rewrite !orb_true_iff, !Z.leb_le, !Z.ltb_lt. tauto. }
  rewrite Hg. reflexivity.
Qed.

(** Past its checks, with colours that parse, [RenderMap] fills the
    blank image, paints the styles of the request over it one after the
    other, and encodes the result. *)
Lemma RenderMap_run (eng : RenderEngine) (request : MapRequest D) (fr : Frame) :
  passes_render_checks eng request ->
  parses (background_rgba (m_strBackgroundColor request)) = true ->
  Forall (fun st => style_ok st = true) (styles_of request) ->
  let image :=
    fold_left (paint (m_nWidth request) (m_nHeight request) (m_bbox request))
      (styles_of request)
      (blank_image (m_nWidth request) (m_nHeight request)
         (m_strBackgroundColor request)) in
  RenderMap EncodeToMemory fresh_encoder_error eng request fr =
  match EncodeToMemory image (m_nWidth request) (m_nHeight request) with
  | Some png => (inl (Some png), mkFrame (m_strError fr) image)
  | None =>
      (inl None, mkFrame ("Failed to encode PNG: " +:+ fresh_encoder_error) image)
  end.
Proof.
  intros (Hi & Hb & Hw & Hh & Hmw & Hmh) Hbg Hst image.
  unfold RenderMap. rewrite Hi, Hb. simpl negb. cbv iota.
  assert (Hg : (m_nWidth request <=? 0) || (m_nHeight request <=? 0) ||
               (m_nMaxImageWidth (m_config eng) <? m_nWidth request) ||
               (m_nMaxImageHeight (m_config eng) <? m_nHeight request) = false).
  { rewrite !orb_false_iff, !Z.leb_gt, !Z.ltb_ge. lia. }
  rewrite Hg. destruct fr as [e img0].
  cbn [negb bind vec_new m_strError vecImageData].
  rewrite bind_run, CreateBlankImage_run by lia.
  assert (Hblank : blank_image (m_nWidth request) (m_nHeight request)
                     (m_strBackgroundColor request) =
                   match background_rgba (m_strBackgroundColor request) with
                   | inl (r, g, b, a) =>
                       concat (replicate
                                 (Z.to_nat (m_nWidth request * m_nHeight request))
                                 [r; g; b; a])
                   | inr _ => []
                   end) by reflexivity.
  destruct (background_rgba (m_strBackgroundColor request))
    as [[[[r g] b] a] | x]; [| discriminate].
  cbn [m_strError vecImageData negb].
  assert (Hdraw :
    match m_vecLayers request with
    | [] => DrawFeatures defaultStyle (m_nWidth request) (m_nHeight request)
              (m_bbox request)
    | _ :: _ => draw_layers request (m_vecLayers request)
    end (mkFrame e (blank_image (m_nWidth request) (m_nHeight request)
                      (m_strBackgroundColor request))) =
    (inl true, mkFrame e image)).
  { unfold image, styles_of in *. destruct (m_vecLayers request) as [| n l].
    - inversion Hst as [| ? ? Hd _]; subst.
      rewrite (DrawFeatures_paint _ _ _ _ _ _ Hd). reflexivity.
    - apply draw_layers_fold. exact Hst. }
  rewrite Hblank in Hdraw. rewrite bind_run, Hdraw.
  cbn [negb]. rewrite bind_run. unfold vec_data. cbn [vecImageData].
  destruct (EncodeToMemory image (m_nWidth request) (m_nHeight request));
    reflexivity.
Qed.
Lemma draws_draw_layers (request : MapRequest D) (layers : list string) :
  draws true (draw_layers request layers) (fun _ => True).
Proof.
  induction layers as [| name layers IH]; simpl.
  - apply draws_ret. exact I.
  - apply draws_bind with (mid := fun _ => True).
    + eapply draws_weaken; [apply draws_DrawFeatures; discriminate | auto].
    + intros ok _. destruct ok; [exact IH | apply draws_ret; exact I].
Qed.

(** Whatever the styles, a render that passed the checks ends with four
    bytes per pixel in its buffer when the background colour parses; when
    it does not, the render is left by the exception of the parse with the
    buffer still empty. *)
Lemma RenderMap_buffer (eng : RenderEngine) (request : MapRequest D)
    (fr : Frame) :
  passes_render_checks eng request ->
  let out := RenderMap EncodeToMemory fresh_encoder_error eng request fr in
  match background_rgba (m_strBackgroundColor request) with
  | inl _ =>
      Z.of_nat (length (vecImageData (snd out))) =
        m_nWidth request * m_nHeight request * 4
  | inr e => out = (inr (Throw e), mkFrame (m_strError fr) [])
  end.
Proof.
  intros (Hi & Hb & Hw & Hh & Hmw & Hmh) out. unfold out, RenderMap.
  rewrite Hi, Hb.
  assert (Hg : (m_nWidth request <=? 0) || (m_nHeight request <=? 0) ||
               (m_nMaxImageWidth (m_config eng) <? m_nWidth request) ||
               (m_nMaxImageHeight (m_config eng) <? m_nHeight request) = false).
  { rewrite !orb_false_iff, !Z.leb_gt, !Z.ltb_ge. lia. }
  rewrite Hg. destruct fr as [e img0].
  cbn [negb bind vec_new m_strError vecImageData].
  rewrite bind_run, CreateBlankImage_run by lia.
  destruct (background_rgba (m_strBackgroundColor request))
    as [[[[r g] b] a] | x]; [| reflexivity].
  cbn [m_strError vecImageData negb]. rewrite bind_run.
  set (blank := concat (replicate (Z.to_nat (m_nWidth request * m_nHeight request))
                          [r; g; b; a])).
  assert (Hblank : Z.of_nat (length blank) = m_nWidth request * m_nHeight request * 4).
  { unfold blank. rewrite length_pixels. nia. }
  assert (Hdraw : draws true
            match m_vecLayers request with
            | [] => DrawFeatures defaultStyle (m_nWidth request) (m_nHeight request)
                      (m_bbox request)
            | _ :: _ => draw_layers request (m_vecLayers request)
            end (fun _ => True)).
  { destruct (m_vecLayers request) as [| n l].
    - eapply draws_weaken; [apply draws_DrawFeatures; discriminate | auto].
    - apply draws_draw_layers. }
  destruct (Hdraw blank) as (res & img' & Hlen & Hrun & _).
  rewrite (Hrun e). destruct res as [drawn | f]; [| simpl; lia].
  destruct drawn; cbn [negb]; [| simpl; lia].
  rewrite bind_run. unfold vec_data. cbn [vecImageData].
  destruct (EncodeToMemory img' (m_nWidth request) (m_nHeight request)); simpl; lia.
Qed.
End RenderFacts.

(** C9.  When [CreateBlankImage] returns, the buffer holds
    [width*height] pixels of four bytes each, row after row, so its
    length is [width*height*4]; the four bytes of the pixel in column [x]
    of row [y], at the indices [4*(y*width+x)] to [4*(y*width+x)+3], are
    in this order the red, green, blue and alpha values parsed from the
    background colour (for [#RRGGBBAA] the bytes RR, GG, BB and AA).  A
    call of [DrawFeatures], with any style, box, dimensions and buffer,
    leaves the length of the buffer as it was and never stores outside
    the buffer, also when it is left by an exception.  Hence a render
    that passed the checks of [RenderMap] ends with a buffer of
    [width*height*4] bytes whenever its background colour parses; when it
    does not, the render is left by the exception of the parse before
    the buffer is made. *)
Theorem canvas_length_invariant :
  (forall w h bg fr ok fr',
     0 < w <= INT_MAX -> 0 < h <= INT_MAX ->
     CreateBlankImage w h bg fr = (inl ok, fr') ->
     Z.of_nat (length (vecImageData fr')) = w * h * 4 /\
     exists r g b a,
       background_rgba bg = inl (r, g, b, a) /\
       vecImageData fr' = concat (replicate (Z.to_nat (w * h)) [r; g; b; a]) /\
       forall x y, 0 <= x < w -> 0 <= y < h ->
         vecImageData fr' !! Z.to_nat (4 * (y * w + x)) = Some r /\
         vecImageData fr' !! Z.to_nat (4 * (y * w + x) + 1) = Some g /\
         vecImageData fr' !! Z.to_nat (4 * (y * w + x) + 2) = Some b /\
         vecImageData fr' !! Z.to_nat (4 * (y * w + x) + 3) = Some a) /\
  (forall w h c1 c2 c3 c4 c5 c6 c7 c8 fr x y,
     0 < w <= INT_MAX -> 0 < h <= INT_MAX ->
     forallb is_hex [c1; c2; c3; c4; c5; c6; c7; c8] = true ->
     0 <= x < w -> 0 <= y < h ->
     let img :=
       vecImageData
         (snd (CreateBlankImage w h (hash_color [c1; c2; c3; c4; c5; c6; c7; c8]) fr)) in
     img !! Z.to_nat (4 * (y * w + x)) = Some (hex_byte c1 c2) /\
     img !! Z.to_nat (4 * (y * w + x) + 1) = Some (hex_byte c3 c4) /\
     img !! Z.to_nat (4 * (y * w + x) + 2) = Some (hex_byte c5 c6) /\
     img !! Z.to_nat (4 * (y * w + x) + 3) = Some (hex_byte c7 c8)) /\
  (forall D (style : LayerStyle) w h (bbox : BoundingBox D) fr,
     length (vecImageData (snd (DrawFeatures style w h bbox fr))) =
       length (vecImageData fr) /\
     fst (DrawFeatures style w h bbox fr) <> inr OutOfBounds) /\
  (forall D (HD : DoubleArith D) EncodeToMemory fresh_encoder_error eng
          (request : MapRequest D) fr,
     passes_render_checks eng request ->
     let out := RenderMap EncodeToMemory fresh_encoder_error eng request fr in
     match background_rgba (m_strBackgroundColor request) with
     | inl _ =>
         Z.of_nat (length (vecImageData (snd out))) =
           m_nWidth request * m_nHeight request * 4
     | inr e => out = (inr (Throw e), mkFrame (m_strError fr) [])
     end).
Proof.
  assert (Hpix : forall (w h r g b a x y : Z) (k : nat),
            0 < w -> 0 < h -> 0 <= x < w -> 0 <= y < h -> (k < 4)%nat ->
            concat (replicate (Z.to_nat (w * h)) [r; g; b; a])
              !! Z.to_nat (4 * (y * w + x) + Z.of_nat k) = [r; g; b; a] !! k).
  { intros w h r g b a x y k Hw Hh Hx Hy Hk.
    assert (0 <= y * w) by nia.
    replace (Z.to_nat (4 * (y * w + x) + Z.of_nat k))
      with (4 * Z.to_nat (y * w + x) + k)%nat by lia.
    apply blank_lookup; [| exact Hk]. nia. }
  split; [| split; [| split]].
  - intros w h bg fr ok fr' Hw Hh Hrun.
    rewrite (CreateBlankImage_run w h bg fr Hw Hh) in Hrun.
    destruct (background_rgba bg) as [[[[r g] b] a] | e]; [| discriminate].
    injection Hrun as _ <-. cbn [vecImageData]. split.
    + rewrite length_pixels. nia.
    + exists r, g, b, a. split; [reflexivity |]. split; [reflexivity |].
      intros x y Hx Hy.
      pose proof (Hpix w h r g b a x y 0%nat) as H0.
      pose proof (Hpix w h r g b a x y 1%nat) as H1.
      pose proof (Hpix w h r g b a x y 2%nat) as H2.
      pose proof (Hpix w h r g b a x y 3%nat) as H3.
      rewrite Z.add_0_r in H0.
      repeat split; [apply H0 | apply H1 | apply H2 | apply H3]; lia.
  - intros w h c1 c2 c3 c4 c5 c6 c7 c8 fr x y Hw Hh Hhex Hx Hy img. unfold img.
    rewrite (CreateBlankImage_run w h _ fr Hw Hh),
      (background_rgba_hex8 _ _ _ _ _ _ _ _ Hhex).
    cbn [snd vecImageData].
    pose proof (Hpix w h (hex_byte c1 c2) (hex_byte c3 c4) (hex_byte c5 c6)
                  (hex_byte c7 c8) x y 0%nat) as H0.
    pose proof (Hpix w h (hex_byte c1 c2) (hex_byte c3 c4) (hex_byte c5 c6)
                  (hex_byte c7 c8) x y 1%nat) as H1.
    pose proof (Hpix w h (hex_byte c1 c2) (hex_byte c3 c4) (hex_byte c5 c6)
                  (hex_byte c7 c8) x y 2%nat) as H2.
    pose proof (Hpix w h (hex_byte c1 c2) (hex_byte c3 c4) (hex_byte c5 c6)
                  (hex_byte c7 c8) x y 3%nat) as H3.
    rewrite Z.add_0_r in H0.
    repeat split; [apply H0 | apply H1 | apply H2 | apply H3]; lia.
  - intros D style w h bbox [e img].
    destruct (draws_DrawFeatures true style w h bbox (fun H => ltac:(discriminate H)) img)
      as (r & img' & Hlen & Hrun & Hr).
    rewrite Hrun. simpl. split; [exact Hlen |].
    destruct r as [ok | [x |]]; [discriminate | discriminate | contradiction].
  - intros D HD enc err eng request fr Hc. apply RenderMap_buffer. exact Hc.
Qed.

Lemma canvas_length_invariant_witness :
  Z.of_nat (length (vecImageData (snd (CreateBlankImage 3 2 "#336699" empty_frame)))) = 24 /\
  vecImageData (snd (CreateBlankImage 3 2 "#10203040" empty_frame))
    !! Z.to_nat (4 * (1 * 3 + 2) + 3) = Some 64 /\
  Z.of_nat (length (vecImageData
                      (snd (RenderMap identity_encoder "" default_engine
                              two_layer_request empty_frame)))) = 8 * 8 * 4.
Proof.
  destruct canvas_length_invariant as (Hc & Hl & _ & Hr).
  assert (H3 : 0 < 3 <= INT_MAX) by (unfold INT_MAX; lia).
  assert (H2 : 0 < 2 <= INT_MAX) by (unfold INT_MAX; lia).
  split; [| split].
  - destruct (Hc 3 2 "#336699" empty_frame true
                (snd (CreateBlankImage 3 2 "#336699" empty_frame)) H3 H2 eq_refl)
      as [Hlen _].
    exact Hlen.
  - assert (Hx : 0 <= 2 < 3) by lia. assert (Hy : 0 <= 1 < 2) by lia.
    exact (proj2 (proj2 (proj2
             (Hl 3 2 "1"%char "0"%char "2"%char "0"%char "3"%char "0"%char
                 "4"%char "0"%char empty_frame 2 1 H3 H2 eq_refl Hx Hy)))).
  - assert (Hchk : passes_render_checks default_engine two_layer_request).
    { unfold passes_render_checks, INT_MAX. simpl. repeat split; lia. }
    exact (Hr Q Q_double identity_encoder "" default_engine two_layer_request
             empty_frame Hchk).
Defined.

(** C2 (as amended).  [RenderMap] returns [false] with the error
    "RenderEngine not initialized" on an engine that is not initialised,
    "Invalid bounding box" on an invalid box, and "Invalid image
    dimensions" when a dimension is not positive or exceeds its limit.  A
    request that passes these checks, and whose background colour and
    style colours all parse without an exception, is drawn as follows: on
    the blank image of the background colour one placeholder is painted
    with the default style when no layer is named, and otherwise one
    placeholder per named layer, in the order of the list, each with the
    style the style map holds for the name or else a default style; the
    result is handed to the encoder. *)
Theorem RenderMap_composites {D : Type} `{DoubleArith D}
    (EncodeToMemory : list Z -> Z -> Z -> option (list Z))
    (fresh_encoder_error : string) (eng : RenderEngine) (request : MapRequest D)
    (fr : Frame) :
  (m_bInitialized eng = false ->
   RenderMap EncodeToMemory fresh_encoder_error eng request fr =
   (inl None, mkFrame "RenderEngine not initialized" (vecImageData fr))) /\
  (m_bInitialized eng = true -> IsValid (m_bbox request) = false ->
   RenderMap EncodeToMemory fresh_encoder_error eng request fr =
   (inl None, mkFrame "Invalid bounding box" (vecImageData fr))) /\
  (m_bInitialized eng = true -> IsValid (m_bbox request) = true ->
   (m_nWidth request <= 0 \/ m_nHeight request <= 0 \/
    m_nMaxImageWidth (m_config eng) < m_nWidth request \/
    m_nMaxImageHeight (m_config eng) < m_nHeight request) ->
   RenderMap EncodeToMemory fresh_encoder_error eng request fr =
   (inl None, mkFrame "Invalid image dimensions" (vecImageData fr))) /\
  (passes_render_checks eng request ->
   parses (background_rgba (m_strBackgroundColor request)) = true ->
   Forall (fun st => style_ok st = true) (styles_of request) ->
   (m_vecLayers request = [] -> styles_of request = [defaultStyle]) /\
   (m_vecLayers request <> [] ->
    styles_of request = map (style_for (m_mapStyles request)) (m_vecLayers request)) /\
   let image :=
     fold_left (paint (m_nWidth request) (m_nHeight request) (m_bbox request))
       (styles_of request)
       (blank_image (m_nWidth request) (m_nHeight request)
          (m_strBackgroundColor request)) in
   RenderMap EncodeToMemory fresh_encoder_error eng request fr =
   match EncodeToMemory image (m_nWidth request) (m_nHeight request) with
   | Some png => (inl (Some png), mkFrame (m_strError fr) image)
   | None =>
       (inl None, mkFrame ("Failed to encode PNG: " +:+ fresh_encoder_error) image)
   end).
Proof.
  split; [apply RenderMap_not_initialized |].
  split; [apply RenderMap_invalid_box |].
  split; [apply RenderMap_invalid_dimensions |].
  intros Hc Hbg Hst. split; [| split].
  - intros Hl. unfold styles_of. rewrite Hl. reflexivity.
  - intros Hl. unfold styles_of. destruct (m_vecLayers request); [contradiction | reflexivity].
  - apply RenderMap_run; assumption.
Qed.

Lemma passes_checks_unstyled : passes_render_checks default_engine unstyled_request.
Proof. unfold passes_render_checks, INT_MAX. simpl. repeat split; lia. Qed.

Lemma passes_checks_styled : passes_render_checks default_engine styled_request.
Proof. unfold passes_render_checks, INT_MAX. simpl. repeat split; lia. Qed.

Lemma RenderMap_composites_witness :
  RenderMap identity_encoder "" default_engine unstyled_request empty_frame =
  (inl (Some (paint 8 8 small_box (blank_image 8 8 "#ffffff") LayerStyle_default)),
   mkFrame "" (paint 8 8 small_box (blank_image 8 8 "#ffffff") LayerStyle_default)).
Proof.
  destruct (RenderMap_composites identity_encoder "" default_engine unstyled_request
              empty_frame) as (_ & _ & _ & Hrun).
  destruct Hrun as (_ & _ & Hrun).
  - exact passes_checks_unstyled.
  - reflexivity.
  - repeat constructor.
  - exact Hrun.
Defined.

(** C2 (as stated) fails: the request [bad_background_request] passes
    every check of [RenderMap] and names no layer, and [RenderMap] is left
    by [std::invalid_argument] with no canvas and no placeholder, whatever
    the encoder. *)
Lemma RenderMap_aborts_on_bad_background :
  passes_render_checks default_engine bad_background_request /\
  m_vecLayers bad_background_request = [] /\
  (forall EncodeToMemory fresh_encoder_error,
     RenderMap EncodeToMemory fresh_encoder_error default_engine
       bad_background_request empty_frame =
     (inr (Throw std_invalid_argument), empty_frame)).
Proof.
  split; [| split].
  - unfold passes_render_checks, INT_MAX. simpl. repeat split; lia.
  - reflexivity.
  - intros enc err. reflexivity.
Qed.

(** The filter string is not read by the renderer at all. *)
Lemma RenderMap_ignores_filter {D : Type} `{DoubleArith D}
    (EncodeToMemory : list Z -> Z -> Z -> option (list Z))
    (fresh_encoder_error : string) (eng : RenderEngine) (r1 r2 : MapRequest D) :
  differ_only_in_filter r1 r2 ->
  RenderMap EncodeToMemory fresh_encoder_error eng r1 =
  RenderMap EncodeToMemory fresh_encoder_error eng r2.
Proof.
  intros (Hb & Hw & Hh & Hl & Hs & Hbg).
  assert (Hd : forall l, draw_layers r1 l = draw_layers r2 l).
  { induction l as [| n l IH]; [reflexivity |].
    simpl. rewrite Hs, Hw, Hh, Hb, IH. reflexivity. }
  unfold RenderMap. rewrite Hb, Hw, Hh, Hl, Hbg, Hd. reflexivity.
Qed.

(** C10 (as amended).  The cache key is the same for two requests that
    differ only in their style map, and for two requests that differ only
    in their filter string.  The style map decides what is drawn: the
    requests [styled_request] and [unstyled_request] differ in nothing
    else, share their key and leave different images.  The filter string
    decides nothing: [RenderMap] never reads it, and two requests that
    differ only in it are rendered identically -- the same result, the
    same buffer and the same error string -- on every engine, with every
    encoder and from every state. *)
Theorem cache_key_ignores_styles_and_filter {D : Type} (fmt_double : D -> string)
    (std_hash : string -> N) (r1 r2 : MapRequest D) :
  (differ_only_in_styles r1 r2 ->
   GenerateCacheKey fmt_double std_hash r1 = GenerateCacheKey fmt_double std_hash r2) /\
  (differ_only_in_filter r1 r2 ->
   GenerateCacheKey fmt_double std_hash r1 = GenerateCacheKey fmt_double std_hash r2 /\
   forall (HD : DoubleArith D) EncodeToMemory fresh_encoder_error eng fr,
     RenderMap EncodeToMemory fresh_encoder_error eng r1 fr =
     RenderMap EncodeToMemory fresh_encoder_error eng r2 fr) /\
  (differ_only_in_styles styled_request unstyled_request /\
   forall EncodeToMemory fresh_encoder_error,
     vecImageData (snd (RenderMap EncodeToMemory fresh_encoder_error default_engine
                          styled_request empty_frame)) <>
     vecImageData (snd (RenderMap EncodeToMemory fresh_encoder_error default_engine
                          unstyled_request empty_frame))).
Proof.
  split; [| split].
  - intros (Hb & Hw & Hh & Hl & Hbg & _). apply cache_key_of_text.
    unfold cache_key_text. rewrite Hb, Hw, Hh, Hl, Hbg. reflexivity.
  - intros Hf. split.
    + destruct Hf as (Hb & Hw & Hh & Hl & _ & Hbg). apply cache_key_of_text.
      unfold cache_key_text. rewrite Hb, Hw, Hh, Hl, Hbg. reflexivity.
    + intros HD enc err eng fr.
      rewrite (RenderMap_ignores_filter enc err eng r1 r2 Hf). reflexivity.
  - split; [repeat split |].
    intros enc err.
    pose proof (RenderMap_run enc err default_engine styled_request empty_frame
                  passes_checks_styled eq_refl
                  ltac:(repeat constructor)) as H1.
    pose proof (RenderMap_run enc err default_engine unstyled_request empty_frame
                  passes_checks_unstyled eq_refl
                  ltac:(repeat constructor)) as H2.
    cbv zeta in H1, H2. rewrite H1, H2.
    destruct (enc _ _ _); destruct (enc _ _ _); simpl;
      intros Heq; vm_compute in Heq; discriminate Heq.
Qed.

Lemma cache_key_ignores_styles_and_filter_witness :
  GenerateCacheKey sample_fmt sample_hash styled_request =
    GenerateCacheKey sample_fmt sample_hash unstyled_request /\
  GenerateCacheKey sample_fmt sample_hash filtered_request =
    GenerateCacheKey sample_fmt sample_hash unstyled_request /\
  RenderMap identity_encoder "" default_engine filtered_request empty_frame =
    RenderMap identity_encoder "" default_engine unstyled_request empty_frame.
Proof.
  assert (Hs : differ_only_in_styles styled_request unstyled_request)
    by (repeat split).
  assert (Hf : differ_only_in_filter filtered_request unstyled_request)
    by (repeat split).
  split; [| split].
  - exact (proj1 (cache_key_ignores_styles_and_filter sample_fmt sample_hash
                    styled_request unstyled_request) Hs).
  - exact (proj1 (proj1 (proj2 (cache_key_ignores_styles_and_filter sample_fmt
                                  sample_hash filtered_request unstyled_request))
                    Hf)).
  - exact (proj2 (proj1 (proj2 (cache_key_ignores_styles_and_filter sample_fmt
                                  sample_hash filtered_request unstyled_request))
                    Hf) Q_double identity_encoder "" default_engine empty_frame).
Defined.

(** C10 (as stated) fails for the filter: the claim lets the filter
    string change the rendered output.  The requests [filtered_request]
    and [unstyled_request] differ in their filter and in nothing else, and
    no engine, encoder or state tells them apart; the same holds for every
    two requests that differ only in the filter, since [m_strFilter] is
    read nowhere. *)
Lemma filter_never_changes_render :
  differ_only_in_filter filtered_request unstyled_request /\
  m_strFilter filtered_request <> m_strFilter unstyled_request /\
  (forall EncodeToMemory fresh_encoder_error eng fr,
     RenderMap EncodeToMemory fresh_encoder_error eng filtered_request fr =
     RenderMap EncodeToMemory fresh_encoder_error eng unstyled_request fr) /\
  (forall D (HD : DoubleArith D) EncodeToMemory fresh_encoder_error eng
          (r1 r2 : MapRequest D) fr,
     differ_only_in_filter r1 r2 ->
     RenderMap EncodeToMemory fresh_encoder_error eng r1 fr =
     RenderMap EncodeToMemory fresh_encoder_error eng r2 fr).
Proof.
  assert (Hf : differ_only_in_filter filtered_request unstyled_request)
    by (repeat split).
  split; [exact Hf |]. split; [discriminate |]. split.
  - intros enc err eng fr.
    rewrite (RenderMap_ignores_filter enc err eng _ _ Hf). reflexivity.
  - intros D HD enc err eng r1 r2 fr Hd.
    rewrite (RenderMap_ignores_filter enc err eng r1 r2 Hd). reflexivity.
Qed.

(** ** Tiles *)

Lemma Q2R_of_Z (k : Z) : Q2R (inject_Z k) = IZR k.
Proof. unfold Q2R. simpl. rewrite Rinv_1. apply Rmult_1_r. Qed.

Lemma Rtrunc_IZR (k : Z) : Rtrunc (IZR k) = k.
Proof.
  unfold Rtrunc. destruct (Rle_dec 0 (IZR k)); [apply ZfloorZ |].
  unfold Zceil. rewrite ZfloorNZ. lia.
Qed.

Lemma static_cast_int_R (v : R) (k : Z) :
  v = IZR k -> INT_MIN <= k <= INT_MAX -> static_cast_int v = Some k.
Proof.
  intros -> [Hlo Hhi]. unfold static_cast_int. simpl d_trunc. rewrite Rtrunc_IZR.
  apply Z.leb_le in Hlo, Hhi. rewrite Hlo, Hhi. reflexivity.
Qed.

Lemma Rltb_true (a b : R) : (a < b)%R -> Rltb a b = true.
Proof. intros Hlt. unfold Rltb. destruct (Rlt_dec a b); [reflexivity | contradiction]. Qed.

(** On any valid box the four corners of the box are sent to the four
    corners of a 256x256 image. *)
Lemma corners_to_corners (b : BoundingBox R) :
  (m_dMinX b < m_dMaxX b)%R -> (m_dMinY b < m_dMaxY b)%R ->
  IsValid b = true /\
  WorldToPixel (m_dMinX b) (m_dMaxY b) b 256 256 = PixelTrue 0 0 /\
  WorldToPixel (m_dMaxX b) (m_dMaxY b) b 256 256 = PixelTrue 255 0 /\
  WorldToPixel (m_dMinX b) (m_dMinY b) b 256 256 = PixelTrue 0 255 /\
  WorldToPixel (m_dMaxX b) (m_dMinY b) b 256 256 = PixelTrue 255 255.
Proof.
  intros Hx Hy.
  assert (Hv : IsValid b = true).
  { unfold IsValid. simpl d_ltb. rewrite !Rltb_true by assumption. reflexivity. }
  assert (Hcast : forall (wx wy : R) (kx ky : Z),
            ((wx - m_dMinX b) / (m_dMaxX b - m_dMinX b) * 256 = IZR kx)%R ->
            ((1 - (wy - m_dMinY b) / (m_dMaxY b - m_dMinY b)) * 256 = IZR ky)%R ->
            INT_MIN <= kx <= INT_MAX -> INT_MIN <= ky <= INT_MAX ->
            WorldToPixel wx wy b 256 256 =
            PixelTrue (clamp_pixel 256 kx) (clamp_pixel 256 ky)).
  { intros wx wy kx ky Ex Ey Rx Ry. unfold WorldToPixel. rewrite Hv.
    cbn [negb orb Z.leb Z.compare]. cbv iota.
    unfold Width, Height, d_of_int. simpl d_lit. simpl d_sub. simpl d_div.
    simpl d_mul. rewrite Q2R_of_Z.
    replace (Q2R 1) with 1%R by (unfold Q2R; simpl; lra).
    rewrite (static_cast_int_R _ kx Ex Rx), (static_cast_int_R _ ky Ey Ry).
    reflexivity. }
  assert (Rng : forall k, 0 <= k <= 256 -> INT_MIN <= k <= INT_MAX)
    by (unfold INT_MIN, INT_MAX; lia).
  split; [exact Hv |].
  split; [| split; [| split]].
  - apply (Hcast _ _ 0 0); try (apply Rng; lia); field; lra.
  - apply (Hcast _ _ 256 0); try (apply Rng; lia); field; lra.
  - apply (Hcast _ _ 0 256); try (apply Rng; lia); field; lra.
  - apply (Hcast _ _ 256 256); try (apply Rng; lia); field; lra.
Qed.

Lemma M_PI_pos : (0 < Q2R M_PI)%R.
Proof.
  unfold Q2R, M_PI. simpl.
  apply Rmult_lt_0_compat; [| apply Rinv_0_lt_compat]; apply IZR_lt; lia.
Qed.

Lemma tile_bbox_valid (z x y : Z) :
  let b := tile_bbox z x y in
  (m_dMinX b < m_dMaxX b)%R /\ (m_dMinY b < m_dMaxY b)%R.
Proof.
  unfold tile_bbox. simpl.
  assert (Hn : (0 < powerRZ 2 z)%R) by (apply powerRZ_lt; lra).
  pose proof (Rinv_0_lt_compat _ Hn) as Hi.
  pose proof M_PI_pos as Hpi.
  pose proof (Rinv_0_lt_compat _ Hpi) as Hpi'.
  unfold Rdiv. set (inv := (/ powerRZ 2 z)%R) in *.
  set (pi := Q2R M_PI) in *. set (ipi := (/ pi)%R) in *.
  split.
  - nra.
  - apply Rmult_lt_compat_r; [exact Hpi' |].
    apply Rmult_lt_compat_r; [lra |].
    apply atan_increasing, sinh_lt.
    apply Rmult_lt_compat_l; [exact Hpi |]. nra.
Qed.

(** C8.  For a tile address in the valid range the bounding box of the
    tile is a valid box, and [WorldToPixel] with width and height 256
    sends its corners (west, north), (east, north), (west, south),
    (east, south) to the pixels (0,0), (255,0), (0,255), (255,255), with
    [double] arithmetic read as real arithmetic. *)
Theorem tile_corners_to_canvas_corners (z x y : Z) :
  0 <= z <= 20 -> 0 <= x <= 2 ^ z - 1 -> 0 <= y <= 2 ^ z - 1 ->
  let b := tile_bbox z x y in
  IsValid b = true /\
  WorldToPixel (m_dMinX b) (m_dMaxY b) b 256 256 = PixelTrue 0 0 /\
  WorldToPixel (m_dMaxX b) (m_dMaxY b) b 256 256 = PixelTrue 255 0 /\
  WorldToPixel (m_dMinX b) (m_dMinY b) b 256 256 = PixelTrue 0 255 /\
  WorldToPixel (m_dMaxX b) (m_dMinY b) b 256 256 = PixelTrue 255 255.
Proof.
  intros _ _ _ b. destruct (tile_bbox_valid z x y) as [Hx Hy].
  apply corners_to_corners; assumption.
Qed.

Lemma tile_corners_to_canvas_corners_witness :
  let b := tile_bbox 0 0 0 in
  WorldToPixel (m_dMinX b) (m_dMaxY b) b 256 256 = PixelTrue 0 0 /\
  WorldToPixel (m_dMaxX b) (m_dMinY b) b 256 256 = PixelTrue 255 255.
Proof.
  destruct (tile_corners_to_canvas_corners 0 0 0) as (_ & H1 & _ & _ & H4);
    [lia | simpl; lia | simpl; lia |].
  split; [exact H1 | exact H4].
Defined.


(** * Further properties of the code *)

(** ** The validator in front of the renderer *)

Lemma code_inj (c d : ascii) : code c = code d -> c = d.
Proof.
  unfold code. intros Heq. apply N2Z.inj in Heq.
  rewrite <- (ascii_N_embedding c), <- (ascii_N_embedding d), Heq. reflexivity.
Qed.

Lemma validated_parts {D : Type} `{DoubleArith D} (config : ServerConfig)
    (request : MapRequest D) :
  ValidateMapRequestParameters config request = Valid ->
  validate_background (m_strBackgroundColor request) = Valid /\
  validate_layers (m_vecLayers request) = Valid.
Proof.
  unfold ValidateMapRequestParameters. intros Hv.
  destruct (negb _); [discriminate Hv |].
  destruct (d_ltb _ _ || d_ltb _ _); [discriminate Hv |].
  destruct (d_ltb _ _ || d_ltb _ _); [discriminate Hv |].
  destruct (_ || _); [discriminate Hv |].
  destruct (_ <? _); [discriminate Hv |].
  destruct (_ <? _); [discriminate Hv |].
  destruct (validate_background (m_strBackgroundColor request));
    [split; [reflexivity | exact Hv] | discriminate Hv].
Qed.

Lemma validated_dimensions {D : Type} `{DoubleArith D}
    (config : ServerConfig) (request : MapRequest D) :
  ValidateMapRequestParameters config request = Valid ->
  IsValid (m_bbox request) = true /\
  0 < m_nWidth request <= m_nMaxImageWidth config /\
  0 < m_nHeight request <= m_nMaxImageHeight config.
Proof.
  unfold ValidateMapRequestParameters. intros Hv.
  destruct (IsValid (m_bbox request)); [| discriminate Hv]. cbn [negb] in Hv.
  destruct (d_ltb _ _ || d_ltb _ _); [discriminate Hv |].
  destruct (d_ltb _ _ || d_ltb _ _); [discriminate Hv |].
  destruct (m_nWidth request <=? 0) eqn:Hw; [discriminate Hv |].
  destruct (m_nHeight request <=? 0) eqn:Hh; [discriminate Hv |]. cbn [orb] in Hv.
  destruct (m_nMaxImageWidth config <? m_nWidth request) eqn:Hw'; [discriminate Hv |].
  destruct (m_nMaxImageHeight config <? m_nHeight request) eqn:Hh'; [discriminate Hv |].
  apply Z.leb_gt in Hw, Hh. apply Z.ltb_ge in Hw', Hh'.
  repeat split; try assumption; lia.
Qed.

(** X1.  A request the validator accepts passes every check [RenderMap]
    makes itself, on an initialised engine that has the same limits: the
    renderer never answers "Invalid bounding box" or "Invalid image
    dimensions" to a validated request. *)
Theorem validated_passes_render_checks {D : Type} `{DoubleArith D}
    (config : ServerConfig) (eng : RenderEngine) (request : MapRequest D) :
  ValidateMapRequestParameters config request = Valid ->
  m_config eng = config -> m_bInitialized eng = true ->
  m_nMaxImageWidth config <= INT_MAX -> m_nMaxImageHeight config <= INT_MAX ->
  passes_render_checks eng request.
Proof.
  intros Hv Hc Hi Hmw Hmh.
  destruct (validated_dimensions config request Hv) as (Hb & Hw & Hh).
  unfold passes_render_checks. rewrite Hc.
  split; [exact Hi |]. split; [exact Hb |].
  split; [exact Hw |]. split; [exact Hh |]. split; assumption.
Qed.

Lemma validated_passes_render_checks_witness :
  passes_render_checks default_engine (plain_request world_box 4096 4096 "#123456").
Proof.
  apply (validated_passes_render_checks GetDefaultConfig);
    [reflexivity | reflexivity | reflexivity | vm_compute; discriminate
    | vm_compute; discriminate].
Defined.

Lemma background_rgba_six (h c1 c2 c3 c4 c5 c6 : ascii) :
  (code h =? 35) = true ->
  forallb is_hex [c1; c2; c3; c4; c5; c6] = true ->
  background_rgba (String h (string_of_list_ascii [c1; c2; c3; c4; c5; c6])) =
  inl (hex_byte c1 c2, hex_byte c3 c4, hex_byte c5 c6, 255).
Proof.
  intros Hh. simpl forallb. intros Hx.
  repeat (apply andb_prop in Hx as [? Hx]).
  unfold background_rgba. simpl substr1. simpl starts_with_hash. rewrite Hh.
  simpl strlen. simpl andb. cbv iota.
  rewrite hex_channel_digits by assumption.
  rewrite (hex_channel_skip c1 c2 _ 0), hex_channel_digits by assumption.
  rewrite (hex_channel_skip c1 c2 _ 2), (hex_channel_skip c3 c4 _ 0),
    hex_channel_digits by assumption.
  reflexivity.
Qed.

Lemma hex_byte_range (c1 c2 : ascii) :
  is_hex c1 = true -> is_hex c2 = true -> 0 <= hex_byte c1 c2 <= 255.
Proof.
  intros H1 H2.
  destruct (hex_digit_facts c1 _ (is_hex_digit c1 H1)) as [R1 _].
  destruct (hex_digit_facts c2 _ (is_hex_digit c2 H2)) as [R2 _].
  unfold hex_byte. lia.
Qed.

(** The two kinds of background colour the validator accepts. *)
Lemma validated_background_cases (bg : string) :
  validate_background bg = Valid ->
  (strlen bg <> 7 /\ background_rgba bg = inl (255, 255, 255, 255)) \/
  (exists c1 c2 c3 c4 c5 c6,
     bg = hash_color [c1; c2; c3; c4; c5; c6] /\
     forallb is_hex [c1; c2; c3; c4; c5; c6] = true /\
     background_rgba bg =
       inl (hex_byte c1 c2, hex_byte c3 c4, hex_byte c5 c6, 255)).
Proof.
  unfold validate_background. intros Hv.
  destruct (String.eqb bg "") eqn:He.
  { apply String.eqb_eq in He. subst bg. left. split; [discriminate | reflexivity]. }
  destruct (starts_with_hash bg) eqn:Hs; [| discriminate Hv]. cbn [negb orb] in Hv.
  destruct (strlen bg =? 7) eqn:H7; cbn [negb andb] in Hv.
  - destruct (forallb is_hex (list_ascii_of_string (substr1 bg))) eqn:Hx;
      [| discriminate Hv].
    apply Z.eqb_eq in H7.
    destruct bg as [| h [| c1 [| c2 [| c3 [| c4 [| c5 [| c6 [| c7 rest]]]]]]]];
      try discriminate H7.
    2: { exfalso. rewrite !strlen_String in H7. unfold strlen in H7. lia. }
    simpl in Hs. simpl in Hx.
    pose proof (background_rgba_six h c1 c2 c3 c4 c5 c6 Hs Hx) as Hp.
    simpl string_of_list_ascii in Hp.
    assert (Hh : h = "#"%char).
    { apply code_inj. apply Z.eqb_eq in Hs. rewrite Hs. reflexivity. }
    subst h. right. exists c1, c2, c3, c4, c5, c6.
    split; [reflexivity |]. split; [exact Hx | exact Hp].
  - destruct (strlen bg =? 4) eqn:H4; [| discriminate Hv].
    apply Z.eqb_eq in H4. apply Z.eqb_neq in H7.
    left. split; [exact H7 |].
    apply background_rgba_default. right.
    destruct bg as [| h s0]; [discriminate H4 |].
    rewrite strlen_String in H4. simpl substr1. lia.
Qed.

(** X2.  A background colour the validator accepts never makes the
    colour parse of [CreateBlankImage] throw, and the canvas it gives is
    opaque: the parse yields three bytes and alpha 255.  Only the
    seven-character form carries a colour; every other accepted string
    (the empty one and the form [#RGB]) is painted white. *)
Theorem validated_background_parses (bg : string) :
  validate_background bg = Valid ->
  exists r g b,
    background_rgba bg = inl (r, g, b, 255) /\
    0 <= r <= 255 /\ 0 <= g <= 255 /\ 0 <= b <= 255 /\
    (strlen bg <> 7 -> (r, g, b) = (255, 255, 255)) /\
    (forall c1 c2 c3 c4 c5 c6,
       bg = hash_color [c1; c2; c3; c4; c5; c6] ->
       (r, g, b) = (hex_byte c1 c2, hex_byte c3 c4, hex_byte c5 c6)).
Proof.
  intros Hv.
  destruct (validated_background_cases bg Hv)
    as [[Hlen Hw] | (c1 & c2 & c3 & c4 & c5 & c6 & Hbg & Hx & Hp)].
  - exists 255, 255, 255. split; [exact Hw |].
    repeat split; try lia.
    intros d1 d2 d3 d4 d5 d6 Heq. exfalso. apply Hlen. rewrite Heq. reflexivity.
  - simpl forallb in Hx. repeat (apply andb_prop in Hx as [? Hx]).
    exists (hex_byte c1 c2), (hex_byte c3 c4), (hex_byte c5 c6).
    split; [exact Hp |].
    repeat split; try (apply hex_byte_range; assumption).
    + intros Hne. exfalso. apply Hne. rewrite Hbg. reflexivity.
    + intros d1 d2 d3 d4 d5 d6 Heq. rewrite Hbg in Heq.
      unfold hash_color in Heq. simpl in Heq.
      injection Heq as -> -> -> -> -> ->. reflexivity.
Qed.

Lemma validated_background_parses_witness :
  exists r g b, background_rgba "#f00" = inl (r, g, b, 255) /\ (r, g, b) = (255, 255, 255).
Proof.
  destruct (validated_background_parses "#f00" eq_refl)
    as (r & g & b & Hp & _ & _ & _ & Hw & _).
  exists r, g, b. split; [exact Hp |]. apply Hw. discriminate.
Defined.

Lemma default_styles_ok : style_ok defaultStyle = true /\ style_ok LayerStyle_default = true.
Proof. split; reflexivity. Qed.

(** X3.  A request the validator accepts, whose style map holds only
    styles with colours that parse (the empty map the request parser
    leaves, for one), is never answered by an exception: the handler
    replies with the PNG of the composed image, or with RENDER_FAILED when
    the encoder gives up. *)
Theorem validated_request_is_rendered {D : Type} `{DoubleArith D}
    (EncodeToMemory : list Z -> Z -> Z -> option (list Z))
    (fresh_encoder_error : string) (config : ServerConfig) (eng : RenderEngine)
    (request : MapRequest D) (fr : Frame) :
  ValidateMapRequestParameters config request = Valid ->
  m_config eng = config -> m_bInitialized eng = true ->
  m_nMaxImageWidth config <= INT_MAX -> m_nMaxImageHeight config <= INT_MAX ->
  (forall name st, m_mapStyles request !! name = Some st -> style_ok st = true) ->
  let image :=
    fold_left (paint (m_nWidth request) (m_nHeight request) (m_bbox request))
      (styles_of request)
      (blank_image (m_nWidth request) (m_nHeight request)
         (m_strBackgroundColor request)) in
  HandleGenerateRequest EncodeToMemory fresh_encoder_error config eng request fr =
  match EncodeToMemory image (m_nWidth request) (m_nHeight request) with
  | Some png => PngReply png
  | None => ErrorReply "RENDER_FAILED" ("Failed to encode PNG: " +:+ fresh_encoder_error)
  end.
Proof.
  intros Hv Hc Hi Hmw Hmh Hst image.
  assert (Hp : passes_render_checks eng request).
  { destruct (validated_dimensions config request Hv) as (Hb & Hw & Hh).
    unfold passes_render_checks. rewrite Hc. repeat split; try assumption; lia. }
  assert (Hbg : parses (background_rgba (m_strBackgroundColor request)) = true).
  { destruct (validated_parts config request Hv) as [Hb _].
    destruct (validated_background_cases _ Hb)
      as [[_ Hw] | (c1 & c2 & c3 & c4 & c5 & c6 & _ & _ & Hw)];
      rewrite Hw; reflexivity. }
  assert (Hall : Forall (fun st => style_ok st = true) (styles_of request)).
  { unfold styles_of. destruct (m_vecLayers request) as [| n l].
    - repeat constructor.
    - apply List.Forall_forall. intros st Hin.
      apply List.in_map_iff in Hin as (name & <- & _).
      unfold style_for. destruct (m_mapStyles request !! name) as [st |] eqn:Hl.
      + exact (Hst name st Hl).
      + reflexivity. }
  unfold HandleGenerateRequest. rewrite Hv.
  rewrite (RenderMap_run EncodeToMemory fresh_encoder_error eng request fr Hp Hbg Hall).
  fold image. destruct (EncodeToMemory image _ _); reflexivity.
Qed.

Lemma validated_request_is_rendered_witness :
  HandleGenerateRequest identity_encoder "" GetDefaultConfig default_engine
    unstyled_request empty_frame =
  PngReply (paint 8 8 small_box (blank_image 8 8 "#ffffff") LayerStyle_default).
Proof.
  assert (Hst : forall name st,
            m_mapStyles unstyled_request !! name = Some st -> style_ok st = true).
  { intros name st Hl. simpl in Hl. rewrite lookup_empty in Hl. discriminate Hl. }
  assert (Hmax : 4096 <= INT_MAX) by (unfold INT_MAX; lia).
  exact (validated_request_is_rendered identity_encoder "" GetDefaultConfig
           default_engine unstyled_request empty_frame eq_refl eq_refl eq_refl
           Hmax Hmax Hst).
Defined.

(** ** The text of the cache key *)

(** A string without the separator, followed by the separator, is cut
    off at a unique place. *)
Lemma split_at_separator (sep : ascii) (a b r1 r2 : string) :
  free_of sep a = true -> free_of sep b = true ->
  a +:+ String sep r1 = b +:+ String sep r2 -> a = b /\ r1 = r2.
Proof.
  revert b. induction a as [| c a IH]; intros b Ha Hb Heq.
  - destruct b as [| d b]; simpl in Heq.
    + injection Heq as ->. split; reflexivity.
    + exfalso. injection Heq as Hd _. subst d.
      unfold free_of in Hb. simpl in Hb. rewrite Z.eqb_refl in Hb. discriminate Hb.
  - destruct b as [| d b]; simpl in Heq.
    + exfalso. injection Heq as Hc _. subst c.
      unfold free_of in Ha. simpl in Ha. rewrite Z.eqb_refl in Ha. discriminate Ha.
    + injection Heq as -> Heq.
      unfold free_of in Ha, Hb. simpl in Ha, Hb.
      apply andb_prop in Ha as [_ Ha]. apply andb_prop in Hb as [_ Hb].
      destruct (IH b Ha Hb Heq) as [-> ->]. split; reflexivity.
Qed.

Lemma uint_chars (d : Decimal.uint) :
  forallb digit_or_minus (list_ascii_of_string (NilEmpty.string_of_uint d)) = true.
Proof. induction d; simpl; try assumption; reflexivity. Qed.

Lemma nilzero_uint_chars (d : Decimal.uint) :
  forallb digit_or_minus (list_ascii_of_string (NilZero.string_of_uint d)) = true.
Proof.
  unfold NilZero.string_of_uint. destruct d; try reflexivity;
    match goal with |- context [NilEmpty.string_of_uint ?u] => exact (uint_chars u) end.
Qed.

Lemma string_of_int_chars (z : Z) :
  forallb digit_or_minus (list_ascii_of_string (string_of_int z)) = true.
Proof.
  unfold string_of_int, NilZero.string_of_int.
  destruct (Z.to_int z) as [d | d].
  - apply nilzero_uint_chars.
  - simpl. apply nilzero_uint_chars.
Qed.

Lemma digits_free_of (sep : ascii) (s : string) :
  digit_or_minus sep = false ->
  forallb digit_or_minus (list_ascii_of_string s) = true -> free_of sep s = true.
Proof.
  intros Hsep. unfold free_of. induction s as [| c s IH]; simpl; [reflexivity |].
  intros Hs. apply andb_prop in Hs as [Hc Hs]. rewrite (IH Hs), andb_true_r.
  destruct (Z.eqb_spec (code c) (code sep)) as [Heq |]; [| reflexivity].
  apply code_inj in Heq. subst c. congruence.
Qed.

Lemma string_of_int_inj (z1 z2 : Z) : string_of_int z1 = string_of_int z2 -> z1 = z2.
Proof.
  unfold string_of_int. intros Heq.
  assert (Hi : forall z, NilZero.int_of_string (NilZero.string_of_int (Z.to_int z))
                         = Some (Z.to_int z)).
  { intros z. apply NilZero.isi; destruct z as [| q | q]; simpl; try discriminate;
      intros Hc; injection Hc as Hc;
      exact (DecimalPos.Unsigned.to_uint_nonnil q Hc). }
  pose proof (Hi z1) as H1. rewrite Heq, Hi in H1. injection H1 as H1.
  symmetry. exact (DecimalZ.to_int_inj _ _ H1).
Qed.

Lemma layer_char_no_comma (c : ascii) :
  layer_char c = true -> negb (code c =? 44) = true.
Proof.
  unfold layer_char. generalize (code c). intros n Hc.
  destruct (Z.eqb_spec n 44) as [-> |]; [discriminate Hc | reflexivity].
Qed.

Lemma is_hex_no_comma (c : ascii) : is_hex c = true -> negb (code c =? 44) = true.
Proof.
  unfold is_hex, hex_digit. generalize (code c). intros n Hc.
  destruct (Z.eqb_spec n 44) as [-> |]; [discriminate Hc | reflexivity].
Qed.

Lemma forallb_impl {A} (p q : A -> bool) (l : list A) :
  (forall x, p x = true -> q x = true) -> forallb p l = true -> forallb q l = true.
Proof.
  intros Hpq. induction l as [| x l IH]; simpl; [reflexivity |].
  intros Hl. apply andb_prop in Hl as [Hx Hl]. rewrite (Hpq x Hx), (IH Hl). reflexivity.
Qed.

Lemma validate_layers_comma_free (layers : list string) :
  validate_layers layers = Valid ->
  Forall (fun s => comma_free s = true) layers.
Proof.
  induction layers as [| layer t IH]; simpl; intros Hv; [constructor |].
  destruct (String.eqb layer ""); [discriminate Hv |].
  destruct (forallb layer_char (list_ascii_of_string layer)) eqn:Hc;
    [| discriminate Hv].
  constructor; [| exact (IH Hv)].
  unfold comma_free. exact (forallb_impl _ _ _ layer_char_no_comma Hc).
Qed.

Lemma validate_background_comma_free (bg : string) :
  validate_background bg = Valid -> comma_free bg = true.
Proof.
  unfold validate_background. intros Hv.
  destruct (String.eqb bg "") eqn:He.
  { apply String.eqb_eq in He. subst bg. reflexivity. }
  destruct (starts_with_hash bg) eqn:Hs; [| discriminate Hv]. cbn [negb orb] in Hv.
  destruct (negb (strlen bg =? 7) && negb (strlen bg =? 4)); [discriminate Hv |].
  destruct (forallb is_hex (list_ascii_of_string (substr1 bg))) eqn:Hx;
    [| discriminate Hv].
  destruct bg as [| h s]; [reflexivity |].
  simpl in Hs, Hx. unfold comma_free. simpl.
  apply Z.eqb_eq in Hs. rewrite Hs. simpl.
  exact (forallb_impl _ _ _ is_hex_no_comma Hx).
Qed.

(** X4.  Among the requests the validator accepts, the text that is
    hashed into the cache key determines everything but the bounding box:
    two accepted requests with the same box and the same key text have
    the same width, height, background colour and layer list.  Keys of
    accepted requests can therefore coincide only through the number
    format of the box or through the hash. *)
Theorem validated_key_text_injective {D : Type} `{DoubleArith D}
    (fmt_double : D -> string) (config : ServerConfig) (r1 r2 : MapRequest D) :
  ValidateMapRequestParameters config r1 = Valid ->
  ValidateMapRequestParameters config r2 = Valid ->
  m_bbox r1 = m_bbox r2 ->
  cache_key_text fmt_double r1 = cache_key_text fmt_double r2 ->
  m_nWidth r1 = m_nWidth r2 /\ m_nHeight r1 = m_nHeight r2 /\
  m_strBackgroundColor r1 = m_strBackgroundColor r2 /\
  m_vecLayers r1 = m_vecLayers r2.
Proof.
  intros V1 V2 Hb Heq.
  destruct (validated_parts config r1 V1) as [B1 L1].
  destruct (validated_parts config r2 V2) as [B2 L2].
  unfold cache_key_text in Heq. rewrite Hb in Heq.
  do 8 (apply append_cancel_l in Heq).
  assert (Fx : forall z, free_of "x" (string_of_int z) = true).
  { intros z. apply digits_free_of; [reflexivity | apply string_of_int_chars]. }
  assert (Fc : forall z, free_of "," (string_of_int z) = true).
  { intros z. apply digits_free_of; [reflexivity | apply string_of_int_chars]. }
  apply (split_at_separator "x" _ _ _ _ (Fx _) (Fx _)) in Heq as [Hw Heq].
  apply (split_at_separator "," _ _ _ _ (Fc _) (Fc _)) in Heq as [Hh Heq].
  apply (append_cancel_l "bg:") in Heq.
  apply name_then_comma in Heq as [Hbg Hl];
    try (apply validate_background_comma_free; assumption);
    try apply layers_text_shape.
  repeat split.
  - exact (string_of_int_inj _ _ Hw).
  - exact (string_of_int_inj _ _ Hh).
  - exact Hbg.
  - apply layers_text_inj; try (apply validate_layers_comma_free; assumption).
    exact Hl.
Qed.

Lemma validated_key_text_injective_witness :
  m_nWidth styled_request = m_nWidth unstyled_request /\
  m_nHeight styled_request = m_nHeight unstyled_request /\
  m_strBackgroundColor styled_request = m_strBackgroundColor unstyled_request /\
  m_vecLayers styled_request = m_vecLayers unstyled_request.
Proof.
  apply (validated_key_text_injective sample_fmt GetDefaultConfig); reflexivity.
Defined.

(** ** Tile addresses *)

(** X5.  The accepted tile addresses form a pyramid: below zoom 20 the
    four children [(z+1, 2x+a, 2y+b)] of an accepted tile are accepted,
    and above zoom 0 so is its parent [(z-1, x/2, y/2)]. *)
Theorem tile_pyramid (z x y : Z) :
  ValidateTileParameters z x y = Valid ->
  (z < 20 ->
   forall a b, 0 <= a <= 1 -> 0 <= b <= 1 ->
     ValidateTileParameters (z + 1) (2 * x + a) (2 * y + b) = Valid) /\
  (1 <= z -> ValidateTileParameters (z - 1) (Z.quot x 2) (Z.quot y 2) = Valid).
Proof.
  intros Hv. apply ValidateTileParameters_valid_iff in Hv as (Hz & Hx & Hy).
  split.
  - intros Hz' a b Ha Hb. apply ValidateTileParameters_valid_iff.
    rewrite Z.pow_add_r by lia. change (2 ^ 1) with 2. lia.
  - intros Hz'. apply ValidateTileParameters_valid_iff.
    replace z with (z - 1 + 1) in Hx, Hy by lia.
    rewrite Z.pow_add_r in Hx, Hy by lia. change (2 ^ 1) with 2 in Hx, Hy.
    rewrite !Z.quot_div_nonneg by lia.
    assert (0 <= x / 2) by (apply Z.div_pos; lia).
    assert (0 <= y / 2) by (apply Z.div_pos; lia).
    assert (x / 2 < 2 ^ (z - 1)) by (apply Z.div_lt_upper_bound; lia).
    assert (y / 2 < 2 ^ (z - 1)) by (apply Z.div_lt_upper_bound; lia).
    lia.
Qed.

Lemma tile_pyramid_witness :
  ValidateTileParameters 4 11 6 = Valid /\ ValidateTileParameters 2 2 1 = Valid.
Proof.
  destruct (tile_pyramid 3 5 3 eq_refl) as [Hc Hp]. split.
  - apply (Hc ltac:(lia) 1 0); lia.
  - apply Hp. lia.
Defined.

Lemma powerRZ_2 (z : Z) : 0 <= z -> powerRZ 2 z = IZR (2 ^ z).
Proof.
  intros Hz. rewrite <- (Z2Nat.id z Hz). rewrite <- pow_powerRZ. apply pow_IZR.
Qed.

Lemma sinh_opp (x : R) : sinh (- x) = (- sinh x)%R.
Proof. unfold sinh. rewrite Ropp_involutive. lra. Qed.

(** X6.  The bounding boxes of the tiles of one zoom level fit together,
    in real arithmetic: the east edge of a tile is the west edge of the
    next column and its south edge is the north edge of the next row; the
    first column starts at longitude -180, the last one ends at 180, and
    the rows are mirrored at the equator (the north edge of row [y] is
    the negated south edge of row [2^z - 1 - y]). *)
Theorem tile_boxes_fit (z x y : Z) :
  m_dMaxX (tile_bbox z x y) = m_dMinX (tile_bbox z (x + 1) y) /\
  m_dMinY (tile_bbox z x y) = m_dMaxY (tile_bbox z x (y + 1)) /\
  m_dMinX (tile_bbox z 0 y) = (-180)%R /\
  (0 <= z -> m_dMaxX (tile_bbox z (2 ^ z - 1) y) = 180%R) /\
  (0 <= z ->
   m_dMaxY (tile_bbox z x y) = (- m_dMinY (tile_bbox z x (2 ^ z - 1 - y)))%R).
Proof.
  assert (Hn : (0 < powerRZ 2 z)%R) by (apply powerRZ_lt; lra).
  unfold tile_bbox. simpl. repeat split.
  - rewrite plus_IZR. reflexivity.
  - rewrite plus_IZR. reflexivity.
  - unfold Rdiv. lra.
  - intros Hz. rewrite minus_IZR, <- (powerRZ_2 z Hz). field. lra.
  - intros Hz. rewrite !minus_IZR, <- (powerRZ_2 z Hz).
    replace (Q2R M_PI * (1 - 2 * (powerRZ 2 z - 1 - IZR y + 1) / powerRZ 2 z))%R
      with (- (Q2R M_PI * (1 - 2 * IZR y / powerRZ 2 z)))%R by (field; lra).
    rewrite sinh_opp, atan_opp. pose proof M_PI_pos. field. lra.
Qed.

Lemma tile_boxes_fit_witness :
  m_dMaxX (tile_bbox 0 0 0) = 180%R /\
  m_dMaxY (tile_bbox 0 0 0) = (- m_dMinY (tile_bbox 0 0 0))%R.
Proof.
  destruct (tile_boxes_fit 0 0 0) as (_ & _ & _ & He & Hs). split.
  - apply (He ltac:(lia)).
  - apply (Hs ltac:(lia)).
Defined.

(** ** Order of pixels *)

Lemma Qtrunc_nonpos (q : Q) : (q <= 0)%Q -> Qtrunc q = Qceiling q.
Proof.
  destruct q as [n d]. unfold Qle, Qtrunc, Qceiling, Qfloor, Qopp. simpl.
  intros Hn. rewrite Z.mul_1_r in Hn.
  rewrite <- (Z.opp_involutive n) at 1. rewrite Z.quot_opp_l by lia.
  rewrite Z.quot_div_nonneg by lia. reflexivity.
Qed.

Lemma Qtrunc_le (p q : Q) : (p <= q)%Q -> Qtrunc p <= Qtrunc q.
Proof.
  intros Hpq. destruct (Qlt_le_dec q 0) as [Hq | Hq].
  - assert (Hp : (p <= 0)%Q) by (apply Qle_trans with q; [exact Hpq | apply Qlt_le_weak; exact Hq]).
    rewrite (Qtrunc_nonpos p Hp), (Qtrunc_nonpos q (Qlt_le_weak _ _ Hq)).
    apply Qceiling_resp_le. exact Hpq.
  - rewrite (Qtrunc_nonneg q Hq). destruct (Qlt_le_dec p 0) as [Hp | Hp].
    + pose proof (Qtrunc_neg p Hp). pose proof (Qfloor_ge_Z q 0 Hq). lia.
    + rewrite (Qtrunc_nonneg p Hp). apply Qfloor_resp_le. exact Hpq.
Qed.

Lemma IsValid_Q (bbox : BoundingBox Q) :
  IsValid bbox = true -> (0 < Width bbox)%Q /\ (0 < Height bbox)%Q.
Proof.
  unfold IsValid, Width, Height. simpl. intros Hv.
  apply andb_prop in Hv as [Hx Hy]. apply Qltb_lt in Hx, Hy.
  split; unfold Qminus; rewrite <- Qlt_minus_iff; assumption.
Qed.

Lemma scaledX_le (x1 x2 : Q) (bbox : BoundingBox Q) (w : Z) :
  (0 < Width bbox)%Q -> 0 < w -> (x1 <= x2)%Q ->
  (scaledX x1 bbox w <= scaledX x2 bbox w)%Q.
Proof.
  intros HW Hw Hx. unfold scaledX.
  apply Qmult_le_compat_r; [| change 0%Q with (inject_Z 0); rewrite <- Zle_Qle; lia].
  unfold Qdiv. apply Qmult_le_compat_r; [| apply Qlt_le_weak, Qinv_lt_0_compat; exact HW].
  unfold Qminus. apply Qplus_le_compat; [exact Hx | apply Qle_refl].
Qed.

Lemma scaledY_ge (y1 y2 : Q) (bbox : BoundingBox Q) (h : Z) :
  (0 < Height bbox)%Q -> 0 < h -> (y1 <= y2)%Q ->
  (scaledY y2 bbox h <= scaledY y1 bbox h)%Q.
Proof.
  intros HH Hh Hy. unfold scaledY.
  apply Qmult_le_compat_r; [| change 0%Q with (inject_Z 0); rewrite <- Zle_Qle; lia].
  unfold Qminus. apply Qplus_le_compat; [apply Qle_refl |].
  apply Qopp_le_compat. unfold Qdiv.
  apply Qmult_le_compat_r; [| apply Qlt_le_weak, Qinv_lt_0_compat; exact HH].
  apply Qplus_le_compat; [exact Hy | apply Qle_refl].
Qed.

Lemma WorldToPixel_true_inv (wx wy : Q) (bbox : BoundingBox Q) (w h px py : Z) :
  WorldToPixel wx wy bbox w h = PixelTrue px py ->
  IsValid bbox = true /\ 0 < w /\ 0 < h /\
  px = clamp_pixel w (Qtrunc (scaledX wx bbox w)) /\
  py = clamp_pixel h (Qtrunc (scaledY wy bbox h)).
Proof.
  unfold WorldToPixel. destruct (IsValid bbox); [| discriminate]. cbn [negb orb].
  destruct (Z.leb_spec w 0); [discriminate |].
  destruct (Z.leb_spec h 0); [discriminate |]. cbv iota.
  change (d_mul (d_div (d_sub wx (m_dMinX bbox)) (Width bbox)) (d_of_int w))
    with (scaledX wx bbox w).
  change (d_mul (d_sub (d_lit 1) (d_div (d_sub wy (m_dMinY bbox)) (Height bbox)))
            (d_of_int h))
    with (scaledY wy bbox h).
  unfold static_cast_int. simpl d_trunc.
  destruct (_ && _); [| discriminate]. destruct (_ && _); [| discriminate].
  intros Heq. injection Heq as <- <-. repeat split; assumption.
Qed.

(** X7.  [WorldToPixel] keeps the order of the world: of two points
    that both convert, the one further east is not left of the other in
    the image, and the one further north is not below the other (pixel
    rows grow downwards). *)
Theorem WorldToPixel_monotone (x1 y1 x2 y2 : Q) (bbox : BoundingBox Q)
    (w h px1 py1 px2 py2 : Z) :
  WorldToPixel x1 y1 bbox w h = PixelTrue px1 py1 ->
  WorldToPixel x2 y2 bbox w h = PixelTrue px2 py2 ->
  ((x1 <= x2)%Q -> px1 <= px2) /\ ((y1 <= y2)%Q -> py2 <= py1).
Proof.
  intros H1 H2.
  apply WorldToPixel_true_inv in H1 as (Hv & Hw & Hh & -> & ->).
  apply WorldToPixel_true_inv in H2 as (_ & _ & _ & -> & ->).
  destruct (IsValid_Q bbox Hv) as [HW HH]. unfold clamp_pixel. split.
  - intros Hx. pose proof (Qtrunc_le _ _ (scaledX_le x1 x2 bbox w HW Hw Hx)). lia.
  - intros Hy. pose proof (Qtrunc_le _ _ (scaledY_ge y1 y2 bbox h HH Hh Hy)). lia.
Qed.

Lemma WorldToPixel_monotone_witness : 25 <= 75 /\ 25 <= 70.
Proof.
  destruct (WorldToPixel_monotone (-5) (-4) 5 5 small_box 100 100 25 70 75 25
              eq_refl eq_refl) as [Hx Hy].
  split; [apply Hx | apply Hy]; vm_compute; discriminate.
Defined.

(** ** Where the placeholder is drawn *)

Lemma paints_ret {A} n S t (a : A) : paints n S t (ret a).
Proof. intros e img Hn. exists (inl a), img. repeat split; auto. Qed.

Lemma paints_lift {A} n S (r : A + exn) : paints n S true (lift r).
Proof.
  intros e img Hn. destruct r as [a | x]; simpl.
  - exists (inl a), img. repeat split; auto.
  - exists (inr (Throw x)), img. repeat split; auto.
Qed.

Lemma paints_bind {A B} n S t (m : Canvas A) (k : A -> Canvas B) :
  paints n S t m -> (forall a, paints n S t (k a)) -> paints n S t (bind m k).
Proof.
  intros Hm Hk e img Hn.
  destruct (Hm e img Hn) as (r & img1 & Hrun & Hlen & Hfr & Hby & Hr).
  destruct r as [a | f].
  - destruct (Hk a e img1 Hlen) as (r2 & img2 & Hrun2 & Hlen2 & Hfr2 & Hby2 & Hr2).
    exists r2, img2. rewrite bind_run, Hrun. repeat split; auto.
    intros i Hi. rewrite (Hfr2 i Hi). apply Hfr. exact Hi.
  - exists (inr f), img1. rewrite bind_run, Hrun. repeat split; auto.
Qed.

Lemma paints_for_each {A} n S t (l : list A) (body : A -> Canvas unit) :
  (forall x, In x l -> paints n S t (body x)) -> paints n S t (for_each l body).
Proof.
  induction l as [| x l IH]; intros Hb; simpl.
  - apply paints_ret.
  - apply paints_bind.
    + apply Hb. left. reflexivity.
    + intros _. apply IH. intros y Hy. apply Hb. right. exact Hy.
Qed.

Lemma in_int_range (lo hi v : Z) : In v (int_range lo hi) -> lo <= v <= hi.
Proof.
  unfold int_range. intros Hin. apply List.in_map_iff in Hin as (k & <- & Hk).
  apply List.in_seq in Hk. lia.
Qed.

Lemma Forall_insert_byte (img : list Z) (i : nat) (v : Z) :
  is_byte v -> Forall is_byte img -> Forall is_byte (<[i := v]> img).
Proof.
  intros Hv. revert i. induction img as [| x img IH]; intros i Himg; [exact Himg |].
  inversion Himg; subst. destruct i; simpl; constructor; auto.
Qed.

(** The four stores of a pixel that lies inside the buffer. *)
Lemma paints_store n (S : nat -> Prop) t (i r g b a : Z) :
  0 <= i -> i + 3 < Z.of_nat n -> i + 3 < 18446744073709551616 ->
  is_byte r -> is_byte g -> is_byte b -> is_byte a ->
  (forall k, 0 <= k <= 3 -> S (Z.to_nat (i + k))) ->
  paints n S t (store_pixel i r g b a).
Proof.
  intros Hi Hin Hsz Br Bg Bb Ba HS e img Hn.
  assert (W : forall d, 0 <= d <= 3 -> size_wrap (i + d) = i + d).
  { intros d Hd. unfold size_wrap. apply Z.mod_small. lia. }
  exists (inl tt),
    (<[Z.to_nat (i + 3) := a]>
       (<[Z.to_nat (i + 2) := b]>
          (<[Z.to_nat (i + 1) := g]> (<[Z.to_nat i := r]> img)))).
  split.
  { unfold store_pixel. rewrite (W 1), (W 2), (W 3) by lia.
    rewrite bind_run, vec_set_inside by lia.
    rewrite bind_run, vec_set_inside by (rewrite !length_insert; lia).
    rewrite bind_run, vec_set_inside by (rewrite !length_insert; lia).
    rewrite vec_set_inside by (rewrite !length_insert; lia). reflexivity. }
  split; [rewrite !length_insert; exact Hn |].
  split; [| split; [| exact I]].
  - intros j Hj.
    assert (Hne : forall k, 0 <= k <= 3 -> Z.to_nat (i + k) <> j).
    { intros k Hk Heq. apply Hj. rewrite <- Heq. apply HS. exact Hk. }
    pose proof (Hne 0 ltac:(lia)) as H0. rewrite Z.add_0_r in H0.
    rewrite !list_lookup_insert_ne; auto; apply Hne; lia.
  - intros Himg. repeat apply Forall_insert_byte; assumption.
Qed.

(** The guarded store: what the guard lets through is inside. *)
Lemma paints_put n (S : nat -> Prop) t (j r g b a : Z) :
  0 <= j < 4611686018427387904 ->
  is_byte r -> is_byte g -> is_byte b -> is_byte a ->
  (4 * j + 3 < Z.of_nat n -> forall k, 0 <= k <= 3 -> S (Z.to_nat (4 * j + k))) ->
  paints n S t (put_pixel (4 * j) r g b a).
Proof.
  intros Hj Br Bg Bb Ba HS e img Hn.
  unfold put_pixel. rewrite bind_run. unfold vec_size. cbn [vecImageData].
  replace (size_wrap (4 * j + 3)) with (4 * j + 3)
    by (unfold size_wrap; rewrite Z.mod_small; lia).
  rewrite Hn. destruct (4 * j + 3 <? Z.of_nat n) eqn:Hg.
  - apply Z.ltb_lt in Hg.
    apply (paints_store n S t (4 * j) r g b a); auto; lia.
  - exists (inl tt), img. repeat split; auto.
Qed.

Lemma pixel_index_plain (y w x : Z) :
  0 <= y <= INT_MAX -> 0 <= x < w -> w <= INT_MAX ->
  pixel_index y w x = 4 * (y * w + x) /\ 0 <= y * w + x < 4611686018427387904.
Proof.
  unfold INT_MAX, pixel_index, size_wrap. intros Hy Hx Hw.
  assert (0 <= y * w) by nia.
  assert (y * w <= 2147483647 * 2147483647) by nia.
  rewrite (Z.mod_small y), (Z.mod_small w), (Z.mod_small x) by lia.
  rewrite (Z.mod_small (y * w + x)) by lia. rewrite Z.mod_small by lia. lia.
Qed.

Lemma int_wrap_small (z : Z) : INT_MIN <= z <= INT_MAX -> int_wrap z = z.
Proof. unfold INT_MIN, INT_MAX, int_wrap. intros Hz. rewrite Z.mod_small; lia. Qed.

Lemma rect_bounds (n : Z) :
  0 < n <= INT_MAX ->
  0 <= rect_start n <= Z.quot n 2 /\ rect_end n <= n - 1 /\
  0 <= rect_end n.
Proof.
  unfold INT_MAX. intros Hn. unfold rect_start, rect_end.
  rewrite (Z.quot_div_nonneg n 2), (Z.quot_div_nonneg n 4) by lia.
  rewrite (Z.quot_div_nonneg (n / 4) 2) by (try apply Z.div_pos; lia).
  assert (0 <= n / 4 <= n / 2 /\ n / 2 + n / 4 <= n /\ 0 <= n / 4 / 2 <= n / 4)
    by (Z.div_mod_to_equations; lia).
  rewrite (int_wrap_small (n / 2 - n / 4 / 2)) by (unfold INT_MIN, INT_MAX; lia).
  rewrite (int_wrap_small (n - 1)) by (unfold INT_MIN, INT_MAX; lia).
  rewrite (int_wrap_small (n / 2 - n / 4 / 2 + n / 4)) by (unfold INT_MIN, INT_MAX; lia).
  lia.
Qed.

Lemma paints_bind_lift {A B} n S (r : A + exn) (k : A -> Canvas B) :
  (forall a, r = inl a -> paints n S true (k a)) ->
  paints n S true (bind (lift r) k).
Proof.
  intros Hk. destruct r as [a | x].
  - intros e img Hn. rewrite bind_run. simpl. apply (Hk a eq_refl e img Hn).
  - intros e img Hn. exists (inr (Throw x)), img. repeat split; auto.
Qed.

Lemma hex_channel_byte (hex : string) (pos : nat) (v : Z) :
  hex_channel hex pos = inl v -> is_byte v.
Proof.
  unfold hex_channel. destruct (stoi16 _); [| discriminate].
  intros [= <-]. unfold to_uint8, is_byte. apply Z.mod_pos_bound. lia.
Qed.

Lemma style_rgb_bytes (color : string) (r0 g0 b0 r g b : Z) :
  is_byte r0 -> is_byte g0 -> is_byte b0 ->
  style_rgb color r0 g0 b0 = inl (r, g, b) ->
  is_byte r /\ is_byte g /\ is_byte b.
Proof.
  intros B1 B2 B3. unfold style_rgb.
  destruct (starts_with_hash color && (6 <=? strlen (substr1 color))).
  - destruct (hex_channel _ 0) eqn:E0; [| discriminate].
    destruct (hex_channel _ 2) eqn:E2; [| discriminate].
    destruct (hex_channel _ 4) eqn:E4; [| discriminate].
    intros [= <- <- <-].
    repeat split; eapply hex_channel_byte; eassumption.
  - intros [= <- <- <-]. auto.
Qed.

(** One pixel of the rectangle's columns or rows. *)
Lemma paints_pixel n (w h y x r g b a : Z) :
  0 < w <= INT_MAX -> 0 < h <= INT_MAX ->
  0 <= y < h -> 0 <= x < w ->
  rect_start w <= x <= rect_end w \/ rect_start h <= y <= rect_end h ->
  is_byte r -> is_byte g -> is_byte b -> is_byte a ->
  paints n (placeholder_bytes w h) true (put_pixel (pixel_index y w x) r g b a).
Proof.
  intros Hw Hh Hy Hx Hband Br Bg Bb Ba.
  destruct (pixel_index_plain y w x) as [-> Hj]; try lia.
  apply paints_put; auto.
  intros _ k Hk. exists y, x. repeat split; try lia; auto.
  exists k. split; [lia | reflexivity].
Qed.

(** The placeholder stays in the columns and the rows of its rectangle. *)
Lemma paints_DrawFeatures {D} n (style : LayerStyle) (w h : Z) (bbox : BoundingBox D) :
  0 < w <= INT_MAX -> 0 < h <= INT_MAX ->
  m_nStrokeWidth style <= 1073741824 ->
  paints n (placeholder_bytes w h) true (DrawFeatures style w h bbox).
Proof.
  intros Hw Hh Hsw. unfold DrawFeatures.
  assert (Ba : is_byte (to_uint8 (m_nOpacity style))).
  { unfold to_uint8, is_byte. apply Z.mod_pos_bound. lia. }
  set (a := to_uint8 (m_nOpacity style)) in *.
  destruct (rect_bounds w Hw) as (Hsx & Hex & Hex').
  destruct (rect_bounds h Hh) as (Hsy & Hey & Hey').
  assert (Hqw : Z.quot w 2 <= 1073741823).
  { unfold INT_MAX in Hw. rewrite Z.quot_div_nonneg by lia.
    Z.div_mod_to_equations. lia. }
  assert (Hqh : Z.quot h 2 <= 1073741823).
  { unfold INT_MAX in Hh. rewrite Z.quot_div_nonneg by lia.
    Z.div_mod_to_equations. lia. }
  assert (Wrap : forall z, -2147483648 <= z <= 2147483647 -> int_wrap z = z).
  { intros z Hz. apply int_wrap_small. unfold INT_MIN, INT_MAX. lia. }
  assert (B255 : is_byte 255) by (unfold is_byte; lia).
  assert (B0 : is_byte 0) by (unfold is_byte; lia).
  unfold INT_MAX in Hw, Hh.
  apply paints_bind_lift. intros [[r g] b] Hfill.
  destruct (style_rgb_bytes _ _ _ _ _ _ _ B255 B0 B0 Hfill) as (Br & Bg & Bb).
  cbv zeta. fold (rect_start w) (rect_start h) (rect_end w) (rect_end h).
  apply paints_bind.
  { apply paints_for_each. intros y Hy. apply in_int_range in Hy.
    apply paints_for_each. intros x Hx. apply in_int_range in Hx.
    apply paints_pixel; auto; unfold INT_MAX; lia. }
  intros _. apply paints_bind_lift. intros [[sr sg] sb] Hstroke.
  destruct (style_rgb_bytes _ _ _ _ _ _ _ B0 B0 B0 Hstroke) as (Bsr & Bsg & Bsb).
  apply paints_bind.
  { apply paints_for_each. intros d Hd. apply in_int_range in Hd.
    rewrite Wrap by lia.
    destruct (rect_start h + d <? h) eqn:Hg; [| apply paints_ret].
    apply Z.ltb_lt in Hg.
    apply paints_for_each. intros x Hx. apply in_int_range in Hx.
    apply paints_pixel; auto; unfold INT_MAX; lia. }
  intros _. apply paints_bind.
  { apply paints_for_each. intros d Hd. apply in_int_range in Hd.
    rewrite Wrap by lia.
    destruct (0 <=? rect_end h - d) eqn:Hg; [| apply paints_ret].
    apply Z.leb_le in Hg.
    apply paints_for_each. intros x Hx. apply in_int_range in Hx.
    apply paints_pixel; auto; unfold INT_MAX; lia. }
  intros _. apply paints_bind.
  { apply paints_for_each. intros d Hd. apply in_int_range in Hd.
    rewrite Wrap by lia.
    destruct (rect_start w + d <? w) eqn:Hg; [| apply paints_ret].
    apply Z.ltb_lt in Hg.
    apply paints_for_each. intros y Hy. apply in_int_range in Hy.
    apply paints_pixel; auto; unfold INT_MAX; lia. }
  intros _. apply paints_bind.
  { apply paints_for_each. intros d Hd. apply in_int_range in Hd.
    rewrite Wrap by lia.
    destruct (0 <=? rect_end w - d) eqn:Hg; [| apply paints_ret].
    apply Z.leb_le in Hg.
    apply paints_for_each. intros y Hy. apply in_int_range in Hy.
    apply paints_pixel; auto; unfold INT_MAX; lia. }
  intros _. apply paints_ret.
Qed.

(** A pixel in neither band has none of the bytes the placeholder reaches. *)
Lemma outside_placeholder (w h px py k : Z) :
  0 <= px < w -> 0 <= py < h -> 0 <= k <= 3 ->
  px < rect_start w \/ rect_end w < px ->
  py < rect_start h \/ rect_end h < py ->
  ~ placeholder_bytes w h (Z.to_nat (4 * (py * w + px) + k)).
Proof.
  intros Hpx Hpy Hk Hx Hy (y & x & Hy' & Hx' & Hband & k' & Hk' & Heq).
  assert (0 <= py * w) by nia. assert (0 <= y * w) by nia.
  apply Z2Nat.inj in Heq; try lia.
  assert (Hyx : y * w + x = py * w + px) by lia.
  assert (y = py) by nia. subst y.
  assert (x = px) by lia. subst x. lia.
Qed.

(** X8.  [DrawFeatures] writes only in the columns and in the rows of its
    placeholder rectangle: for an image of positive [int] dimensions and
    a stroke width of at most 2^30, every byte of a pixel that lies in
    neither the columns nor the rows of the rectangle is after the call
    what it was before, whatever the buffer, its length and the colours
    of the style, and also when a colour makes the call throw. *)
Theorem DrawFeatures_stays_in_bands {D} (style : LayerStyle) (w h : Z)
    (bbox : BoundingBox D) (fr : Frame) (px py k : Z) :
  0 < w <= INT_MAX -> 0 < h <= INT_MAX ->
  m_nStrokeWidth style <= 1073741824 ->
  0 <= px < w -> 0 <= py < h -> 0 <= k <= 3 ->
  px < rect_start w \/ rect_end w < px ->
  py < rect_start h \/ rect_end h < py ->
  vecImageData (snd (DrawFeatures style w h bbox fr))
    !! Z.to_nat (4 * (py * w + px) + k) =
  vecImageData fr !! Z.to_nat (4 * (py * w + px) + k).
Proof.
  intros Hw Hh Hsw Hpx Hpy Hk Hx Hy. destruct fr as [e img].
  destruct (paints_DrawFeatures (length img) style w h bbox Hw Hh Hsw e img eq_refl)
    as (r & img' & Hrun & _ & Hfr & _).
  rewrite Hrun. cbn [snd vecImageData].
  apply Hfr. apply outside_placeholder; assumption.
Qed.

Lemma DrawFeatures_stays_in_bands_witness :
  vecImageData (snd (DrawFeatures (filled_with "#112233") 8 8 small_box
                       (mkFrame "" [7; 7; 7; 7])))
    !! Z.to_nat (4 * (0 * 8 + 0) + 0) =
  vecImageData (mkFrame "" [7; 7; 7; 7]) !! Z.to_nat (4 * (0 * 8 + 0) + 0).
Proof.
  assert (H8 : 0 < 8 <= INT_MAX) by (unfold INT_MAX; lia).
  assert (Hsw : m_nStrokeWidth (filled_with "#112233") <= 1073741824)
    by (simpl; lia).
  assert (H0 : 0 <= 0 < 8) by lia.
  assert (Hk : 0 <= 0 <= 3) by lia.
  assert (Hout : 0 < rect_start 8 \/ rect_end 8 < 0) by (left; reflexivity).
  exact (DrawFeatures_stays_in_bands (filled_with "#112233") 8 8 small_box
           (mkFrame "" [7; 7; 7; 7]) 0 0 0 H8 H8 Hsw H0 H0 Hk Hout Hout).
Defined.

Lemma paint_outside {D} (w h : Z) (bbox : BoundingBox D) (styles : list LayerStyle)
    (img : list Z) (px py k : Z) :
  0 < w <= INT_MAX -> 0 < h <= INT_MAX ->
  Forall (fun st => m_nStrokeWidth st <= 1073741824) styles ->
  0 <= px < w -> 0 <= py < h -> 0 <= k <= 3 ->
  px < rect_start w \/ rect_end w < px ->
  py < rect_start h \/ rect_end h < py ->
  fold_left (paint w h bbox) styles img !! Z.to_nat (4 * (py * w + px) + k) =
  img !! Z.to_nat (4 * (py * w + px) + k).
Proof.
  intros Hw Hh Hsw Hpx Hpy Hk Hx Hy. revert img.
  induction Hsw as [| st styles Hst _ IH]; intros img; [reflexivity |].
  simpl fold_left. rewrite IH. unfold paint.
  destruct (paints_DrawFeatures (length img) st w h bbox Hw Hh Hst "" img eq_refl)
    as (r & img' & Hrun & _ & Hfr & _).
  rewrite Hrun. cbn [snd vecImageData].
  apply Hfr. apply outside_placeholder; assumption.
Qed.

Section Margin.
Context {D : Type} `{DoubleArith D}.
Variable EncodeToMemory : list Z -> Z -> Z -> option (list Z).
Variable fresh_encoder_error : string.

(** X9.  Outside the columns and the rows of the placeholder rectangle a
    rendered image is the background: when a request passes the checks
    of [RenderMap], its background colour parses to [(r, g, b, a)], its
    styles parse and have stroke widths of at most 2^30, then in the
    buffer handed to the encoder every pixel that lies in neither band
    holds exactly [r, g, b, a], however many layers were drawn. *)
Theorem rendered_margin_is_background (eng : RenderEngine) (request : MapRequest D)
    (fr : Frame) (r g b a px py k : Z) :
  passes_render_checks eng request ->
  background_rgba (m_strBackgroundColor request) = inl (r, g, b, a) ->
  Forall (fun st => style_ok st = true) (styles_of request) ->
  Forall (fun st => m_nStrokeWidth st <= 1073741824) (styles_of request) ->
  0 <= px < m_nWidth request -> 0 <= py < m_nHeight request -> 0 <= k <= 3 ->
  px < rect_start (m_nWidth request) \/ rect_end (m_nWidth request) < px ->
  py < rect_start (m_nHeight request) \/ rect_end (m_nHeight request) < py ->
  vecImageData (snd (RenderMap EncodeToMemory fresh_encoder_error eng request fr))
    !! Z.to_nat (4 * (py * m_nWidth request + px) + k) =
  [r; g; b; a] !! Z.to_nat k.
Proof.
  intros Hchk Hbg Hok Hsw Hpx Hpy Hk Hx Hy.
  assert (Hparse : parses (background_rgba (m_strBackgroundColor request)) = true)
    by (rewrite Hbg; reflexivity).
  rewrite (RenderMap_run EncodeToMemory fresh_encoder_error eng request fr
             Hchk Hparse Hok).
  destruct Hchk as (_ & _ & Hw & Hh & Hmw & Hmh).
  set (image := fold_left _ _ _).
  assert (Himg : image !! Z.to_nat (4 * (py * m_nWidth request + px) + k) =
                 [r; g; b; a] !! Z.to_nat k).
  { unfold image. rewrite paint_outside; try assumption; try lia.
    unfold blank_image. rewrite Hbg.
    assert (0 <= py * m_nWidth request) by nia.
    replace (Z.to_nat (4 * (py * m_nWidth request + px) + k))
      with (4 * Z.to_nat (py * m_nWidth request + px) + Z.to_nat k)%nat by lia.
    apply blank_lookup; [| lia].
    apply Z2Nat.inj_lt; nia. }
  destruct (EncodeToMemory image _ _); cbn [snd vecImageData]; exact Himg.
Qed.

End Margin.

Lemma rendered_margin_is_background_witness :
  vecImageData (snd (RenderMap identity_encoder "" default_engine unstyled_request
                       empty_frame))
    !! Z.to_nat (4 * (0 * m_nWidth unstyled_request + 0) + 0) =
  [255; 255; 255; 255] !! Z.to_nat 0.
Proof.
  assert (Hchk : passes_render_checks default_engine unstyled_request).
  { unfold passes_render_checks, INT_MAX. simpl. repeat split; lia. }
  assert (Hok : Forall (fun st => style_ok st = true) (styles_of unstyled_request)).
  { repeat constructor. }
  assert (Hsw : Forall (fun st => m_nStrokeWidth st <= 1073741824)
                  (styles_of unstyled_request)).
  { repeat constructor. vm_compute. discriminate. }
  assert (H0 : 0 <= 0 < 8) by lia.
  assert (Hk : 0 <= 0 <= 3) by lia.
  assert (Hout : 0 < rect_start 8 \/ rect_end 8 < 0) by (left; reflexivity).
  exact (rendered_margin_is_background identity_encoder "" default_engine
           unstyled_request empty_frame 255 255 255 255 0 0 0
           Hchk eq_refl Hok Hsw H0 H0 Hk Hout Hout).
Defined.

(** ** What drawing code writes *)

Lemma repaint_lookup (P : nat -> option colour) (img : list Z) (i : nat) :
  repaint P img !! i =
  (fun v => match P (i / 4)%nat with
            | Some c => channel c (i mod 4)%nat
            | None => v
            end) <$> img !! i.
Proof. unfold repaint. apply list_lookup_imap. Qed.

Lemma repaint_length (P : nat -> option colour) (img : list Z) :
  length (repaint P img) = length img.
Proof. unfold repaint. apply length_imap. Qed.

Lemma repaint_ext (P P' : nat -> option colour) (img : list Z) :
  (forall q, P q = P' q) -> repaint P img = repaint P' img.
Proof.
  intros Heq. apply list_eq. intros i. rewrite !repaint_lookup, Heq. reflexivity.
Qed.

Lemma repaint_none (img : list Z) : repaint (fun _ => None) img = img.
Proof.
  apply list_eq. intros i. rewrite repaint_lookup.
  destruct (img !! i); reflexivity.
Qed.

Lemma repaint_over (P2 P1 : nat -> option colour) (img : list Z) :
  repaint P2 (repaint P1 img) = repaint (over P2 P1) img.
Proof.
  apply list_eq. intros i. rewrite !repaint_lookup. unfold over.
  destruct (img !! i); destruct (P2 (i / 4)%nat); reflexivity.
Qed.

Lemma writes_ret {A} n (a : A) : writes n a (fun _ => None) (ret a).
Proof. intros e img _. rewrite repaint_none. reflexivity. Qed.

Lemma writes_bind {A B} n (a : A) (b : B) P1 P2 (m : Canvas A) (k : A -> Canvas B) :
  writes n a P1 m -> writes n b P2 (k a) -> writes n b (over P2 P1) (bind m k).
Proof.
  intros Hm Hk e img Hn. rewrite bind_run, (Hm e img Hn).
  rewrite (Hk e (repaint P1 img)) by (rewrite repaint_length; exact Hn).
  rewrite repaint_over. reflexivity.
Qed.

Lemma writes_ext {A} n (r : A) P P' (m : Canvas A) :
  writes n r P m -> (forall q, P q = P' q) -> writes n r P' m.
Proof.
  intros Hm Heq e img Hn. rewrite (Hm e img Hn), (repaint_ext P P' img Heq).
  reflexivity.
Qed.

Lemma writes_for_each {A} n (l : list A) (P : A -> nat -> option colour)
    (body : A -> Canvas unit) :
  (forall x, In x l -> writes n tt (P x) (body x)) ->
  writes n tt (loop_paint l P) (for_each l body).
Proof.
  induction l as [| x l IH]; intros Hb; simpl.
  - apply writes_ret.
  - apply writes_bind with (a := tt).
    + apply Hb. left. reflexivity.
    + apply IH. intros y Hy. apply Hb. right. exact Hy.
Qed.

(** The four stores of pixel [j], inside the buffer. *)
Lemma writes_store n (j r g b a : Z) :
  0 <= j -> 4 * j + 3 < Z.of_nat n -> 4 * j + 3 < 18446744073709551616 ->
  writes n tt (fun q => if (q =? Z.to_nat j)%nat then Some (r, g, b, a) else None)
    (store_pixel (4 * j) r g b a).
Proof.
  intros Hj Hin Hsz e img Hn.
  assert (W : forall d, 0 <= d <= 3 -> size_wrap (4 * j + d) = 4 * j + d).
  { intros d Hd. unfold size_wrap. apply Z.mod_small. lia. }
  unfold store_pixel. rewrite (W 1), (W 2), (W 3) by lia.
  rewrite bind_run, vec_set_inside by lia.
  rewrite bind_run, vec_set_inside by (rewrite !length_insert; lia).
  rewrite bind_run, vec_set_inside by (rewrite !length_insert; lia).
  rewrite vec_set_inside by (rewrite !length_insert; lia).
  f_equal. f_equal. apply list_eq. intros i. rewrite repaint_lookup.
  set (p := Z.to_nat j).
  replace (Z.to_nat (4 * j + 3)) with (4 * p + 3)%nat by lia.
  replace (Z.to_nat (4 * j + 2)) with (4 * p + 2)%nat by lia.
  replace (Z.to_nat (4 * j + 1)) with (4 * p + 1)%nat by lia.
  replace (Z.to_nat (4 * j)) with (4 * p)%nat by lia.
  assert (Hp : (4 * p + 3 < length img)%nat) by lia.
  pose proof (Nat.div_mod_eq i 4) as Hdm.
  pose proof (Nat.mod_upper_bound i 4 ltac:(lia)) as Hm.
  destruct (Nat.eqb_spec (i / 4) p) as [Hq | Hq].
  - assert (Hi : (i < length img)%nat) by lia.
    destruct (lookup_lt_is_Some_2 img i Hi) as [v Hv]. rewrite Hv.
    destruct (i mod 4)%nat as [| [| [| [| k]]]] eqn:Hk; try lia.
    + replace i with (4 * p)%nat by lia.
      rewrite !list_lookup_insert_ne by lia.
      rewrite list_lookup_insert_eq by lia. reflexivity.
    + replace i with (4 * p + 1)%nat by lia.
      rewrite !list_lookup_insert_ne by lia.
      rewrite list_lookup_insert_eq by (rewrite !length_insert; lia). reflexivity.
    + replace i with (4 * p + 2)%nat by lia.
      rewrite !list_lookup_insert_ne by lia.
      rewrite list_lookup_insert_eq by (rewrite !length_insert; lia). reflexivity.
    + replace i with (4 * p + 3)%nat by lia.
      rewrite list_lookup_insert_eq by (rewrite !length_insert; lia). reflexivity.
  - rewrite !list_lookup_insert_ne by lia.
    destruct (img !! i); reflexivity.
Qed.

(** The guarded store of pixel [j]: nothing when the guard fails. *)
Lemma writes_put n (j r g b a : Z) :
  0 <= j < 4611686018427387904 ->
  writes n tt
    (fun q => if (q =? Z.to_nat j)%nat && (4 * j + 3 <? Z.of_nat n)
              then Some (r, g, b, a) else None)
    (put_pixel (4 * j) r g b a).
Proof.
  intros Hj e img Hn.
  unfold put_pixel. rewrite bind_run. unfold vec_size. cbn [vecImageData].
  replace (size_wrap (4 * j + 3)) with (4 * j + 3)
    by (unfold size_wrap; rewrite Z.mod_small; lia).
  rewrite Hn. destruct (4 * j + 3 <? Z.of_nat n) eqn:Hg.
  - apply Z.ltb_lt in Hg.
    rewrite (writes_store n j r g b a) by (try exact Hn; lia).
    f_equal. f_equal. apply repaint_ext. intros q. rewrite andb_true_r. reflexivity.
  - change (ret tt (mkFrame e img)) with (inl tt : unit + fault, mkFrame e img).
    f_equal. f_equal. rewrite <- (repaint_none img) at 1.
    apply repaint_ext. intros q. rewrite andb_false_r. reflexivity.
Qed.

Lemma twin_ret {A B} n (a : A) (b : B) : twin n (ret a) (ret b).
Proof.
  exists a, b, (fun _ => None), (fun _ => None).
  split; [apply writes_ret | split; [apply writes_ret | tauto]].
Qed.

Lemma twin_bind {A A' B B'} n (m1 : Canvas A) (m2 : Canvas A')
    (k1 : A -> Canvas B) (k2 : A' -> Canvas B') :
  twin n m1 m2 -> (forall a1 a2, twin n (k1 a1) (k2 a2)) ->
  twin n (bind m1 k1) (bind m2 k2).
Proof.
  intros (a1 & a2 & P1 & P2 & H1 & H2 & Hd) Hk.
  destruct (Hk a1 a2) as (b1 & b2 & Q1 & Q2 & K1 & K2 & Kd).
  exists b1, b2, (over Q1 P1), (over Q2 P2).
  split; [eapply writes_bind; eauto |].
  split; [eapply writes_bind; eauto |].
  intros q. unfold over. specialize (Hd q). specialize (Kd q).
  destruct (Q1 q), (Q2 q).
  - split; intros E; discriminate E.
  - exfalso. destruct Kd as [_ Kd]. discriminate (Kd eq_refl).
  - exfalso. destruct Kd as [Kd _]. discriminate (Kd eq_refl).
  - exact Hd.
Qed.

Lemma twin_for_each {A} n (l : list A) (b1 b2 : A -> Canvas unit) :
  (forall x, twin n (b1 x) (b2 x)) -> twin n (for_each l b1) (for_each l b2).
Proof.
  intros Hb. induction l as [| x l IH]; simpl.
  - apply twin_ret.
  - apply twin_bind; [apply Hb | intros _ _; exact IH].
Qed.

Lemma twin_pixel n (y w x r g b a r' g' b' a' : Z) :
  twin n (put_pixel (pixel_index y w x) r g b a)
    (put_pixel (pixel_index y w x) r' g' b' a').
Proof.
  destruct (pixel_index_mult4 y w x) as (j & -> & Hj).
  eexists tt, tt, _, _.
  split; [apply writes_put; exact Hj |].
  split; [apply writes_put; exact Hj |].
  intros q. simpl. destruct ((q =? Z.to_nat j)%nat && (4 * j + 3 <? Z.of_nat n)).
  - split; intros E; discriminate E.
  - tauto.
Qed.

Lemma twin_lift {A A' B B'} n (r1 : A + exn) (r2 : A' + exn)
    (k1 : A -> Canvas B) (k2 : A' -> Canvas B') :
  parses r1 = true -> parses r2 = true ->
  (forall a1 a2, twin n (k1 a1) (k2 a2)) ->
  twin n (bind (lift r1) k1) (bind (lift r2) k2).
Proof.
  intros H1 H2 Hk. destruct r1 as [a1 |]; [| discriminate].
  destruct r2 as [a2 |]; [| discriminate].
  apply twin_bind; [apply twin_ret | exact Hk].
Qed.

(** Two styles whose colours parse and whose stroke is as wide paint the
    same pixels. *)
Lemma twin_DrawFeatures {D} n (st1 st2 : LayerStyle) (w h : Z) (bbox : BoundingBox D) :
  style_ok st1 = true -> style_ok st2 = true ->
  Z.max 1 (m_nStrokeWidth st1) = Z.max 1 (m_nStrokeWidth st2) ->
  twin n (DrawFeatures st1 w h bbox) (DrawFeatures st2 w h bbox).
Proof.
  intros Hok1 Hok2 Hsw.
  apply andb_prop in Hok1 as [Hf1 Hs1]. apply andb_prop in Hok2 as [Hf2 Hs2].
  unfold DrawFeatures. rewrite Hsw.
  apply twin_lift; [exact Hf1 | exact Hf2 |].
  intros [[r1 g1] b1] [[r2 g2] b2]. cbv zeta.
  apply twin_bind.
  { apply twin_for_each. intros y. apply twin_for_each. intros x. apply twin_pixel. }
  intros _ _. apply twin_lift; [exact Hs1 | exact Hs2 |].
  intros [[sr1 sg1] sb1] [[sr2 sg2] sb2].
  repeat (apply twin_bind;
          [ apply twin_for_each; intros d;
            match goal with
            | |- context [if ?c then _ else _] => destruct c
            end;
            [ apply twin_for_each; intros v; apply twin_pixel | apply twin_ret ]
          | intros _ _ ]).
  apply twin_ret.
Qed.

Lemma paint_hides {D} (w h : Z) (bbox : BoundingBox D)
    (st1 st2 : LayerStyle) (img : list Z) :
  style_ok st1 = true -> style_ok st2 = true ->
  Z.max 1 (m_nStrokeWidth st1) = Z.max 1 (m_nStrokeWidth st2) ->
  paint w h bbox (paint w h bbox img st1) st2 = paint w h bbox img st2.
Proof.
  intros Hok1 Hok2 Hsw.
  destruct (twin_DrawFeatures (length img) st1 st2 w h bbox Hok1 Hok2 Hsw)
    as (r1 & r2 & P1 & P2 & H1 & H2 & Hd).
  unfold paint. rewrite (H1 "" img eq_refl). cbn [snd vecImageData].
  rewrite (H2 "" (repaint P1 img)) by apply repaint_length.
  rewrite (H2 "" img eq_refl). cbn [snd vecImageData].
  rewrite repaint_over. apply repaint_ext. intros q. unfold over.
  destruct (P2 q) eqn:E2; [reflexivity |]. apply Hd. exact E2.
Qed.

(** X10.  The last layer wins: when two styles parse and have the same
    effective stroke width, [DrawFeatures] with the second after
    [DrawFeatures] with the first leaves exactly the buffer that the
    second alone leaves, on every buffer and for every image size.  In
    particular drawing a style twice is drawing it once. *)
Theorem later_layer_hides_earlier {D} (w h : Z) (bbox : BoundingBox D)
    (st1 st2 : LayerStyle) (e : string) (img : list Z) :
  style_ok st1 = true -> style_ok st2 = true ->
  Z.max 1 (m_nStrokeWidth st1) = Z.max 1 (m_nStrokeWidth st2) ->
  (let* _ := DrawFeatures st1 w h bbox in DrawFeatures st2 w h bbox) (mkFrame e img) =
  DrawFeatures st2 w h bbox (mkFrame e img).
Proof.
  intros Hok1 Hok2 Hsw.
  rewrite bind_run, (DrawFeatures_paint st1) by assumption. cbv beta iota.
  rewrite !(DrawFeatures_paint st2) by assumption.
  rewrite paint_hides by assumption. reflexivity.
Qed.

Lemma later_layer_hides_earlier_witness :
  (let* _ := DrawFeatures (filled_with "#112233") 8 8 small_box in
   DrawFeatures LayerStyle_default 8 8 small_box) (mkFrame "" [1; 2; 3]) =
  DrawFeatures LayerStyle_default 8 8 small_box (mkFrame "" [1; 2; 3]).
Proof.
  assert (Hsw : Z.max 1 (m_nStrokeWidth (filled_with "#112233")) =
                Z.max 1 (m_nStrokeWidth LayerStyle_default)) by reflexivity.
  exact (later_layer_hides_earlier 8 8 small_box (filled_with "#112233")
           LayerStyle_default "" [1; 2; 3] eq_refl eq_refl Hsw).
Defined.

Lemma fold_paint_last {D} (w h : Z) (bbox : BoundingBox D) (sw : Z)
    (styles : list LayerStyle) (st : LayerStyle) (img : list Z) :
  Forall (fun s => style_ok s = true) (st :: styles) ->
  Forall (fun s => Z.max 1 (m_nStrokeWidth s) = sw) (st :: styles) ->
  fold_left (paint w h bbox) (st :: styles) img =
  paint w h bbox img (List.last (st :: styles) defaultStyle).
Proof.
  revert st img. induction styles as [| s2 styles IH]; intros st img Hok Hsw.
  - reflexivity.
  - inversion Hok as [| ? ? Hst Hok']; subst.
    inversion Hsw as [| ? ? Hw1 Hsw']; subst.
    change (fold_left (paint w h bbox) (st :: s2 :: styles) img)
      with (fold_left (paint w h bbox) (s2 :: styles) (paint w h bbox img st)).
    rewrite (IH s2 _ Hok' Hsw').
    change (List.last (st :: s2 :: styles) defaultStyle)
      with (List.last (s2 :: styles) defaultStyle).
    assert (Hin : In (List.last (s2 :: styles) defaultStyle) (s2 :: styles)).
    { clear. generalize s2. induction styles as [| s3 styles IH]; intros s.
      - left. reflexivity.
      - right. apply IH. }
    apply paint_hides.
    + exact Hst.
    + exact (proj1 (List.Forall_forall _ _) Hok' _ Hin).
    + rewrite (proj1 (List.Forall_forall _ _) Hsw' _ Hin). reflexivity.
Qed.

Section LastLayer.
Context {D : Type} `{DoubleArith D}.
Variable EncodeToMemory : list Z -> Z -> Z -> option (list Z).
Variable fresh_encoder_error : string.

(** X11.  Of the layers of a request only the last one shows: when the
    request passes the checks of [RenderMap], its colours parse and its
    styles have the same effective stroke width [sw], the buffer handed
    to the encoder is the blank image with the style of the last layer
    drawn on it, as if the other layers had not been named. *)
Theorem render_shows_last_layer (eng : RenderEngine) (request : MapRequest D)
    (fr : Frame) (sw : Z) :
  passes_render_checks eng request ->
  parses (background_rgba (m_strBackgroundColor request)) = true ->
  Forall (fun st => style_ok st = true) (styles_of request) ->
  Forall (fun st => Z.max 1 (m_nStrokeWidth st) = sw) (styles_of request) ->
  vecImageData (snd (RenderMap EncodeToMemory fresh_encoder_error eng request fr)) =
  paint (m_nWidth request) (m_nHeight request) (m_bbox request)
    (blank_image (m_nWidth request) (m_nHeight request) (m_strBackgroundColor request))
    (List.last (styles_of request) defaultStyle).
Proof.
  intros Hchk Hbg Hok Hsw.
  rewrite (RenderMap_run EncodeToMemory fresh_encoder_error eng request fr
             Hchk Hbg Hok).
  set (image := fold_left _ _ _).
  assert (Himg : image =
    paint (m_nWidth request) (m_nHeight request) (m_bbox request)
      (blank_image (m_nWidth request) (m_nHeight request)
         (m_strBackgroundColor request))
      (List.last (styles_of request) defaultStyle)).
  { unfold image. destruct (styles_of request) as [| st styles] eqn:Est.
    - exfalso. unfold styles_of in Est.
      destruct (m_vecLayers request); discriminate Est.
    - apply (fold_paint_last _ _ _ sw); assumption. }
  destruct (EncodeToMemory image _ _); cbn [snd vecImageData]; exact Himg.
Qed.

End LastLayer.

Lemma render_shows_last_layer_witness :
  vecImageData (snd (RenderMap identity_encoder "" default_engine
                       (layered_request ["roads"; "rivers"]) empty_frame)) =
  paint (m_nWidth (layered_request ["roads"; "rivers"]))
    (m_nHeight (layered_request ["roads"; "rivers"]))
    (m_bbox (layered_request ["roads"; "rivers"]))
    (blank_image (m_nWidth (layered_request ["roads"; "rivers"]))
       (m_nHeight (layered_request ["roads"; "rivers"]))
       (m_strBackgroundColor (layered_request ["roads"; "rivers"])))
    (List.last (styles_of (layered_request ["roads"; "rivers"])) defaultStyle).
Proof.
  assert (Hchk : passes_render_checks default_engine
                   (layered_request ["roads"; "rivers"])).
  { unfold passes_render_checks, INT_MAX. simpl. repeat split; lia. }
  assert (Hok : Forall (fun st => style_ok st = true)
                  (styles_of (layered_request ["roads"; "rivers"]))).
  { repeat constructor. }
  assert (Hsw : Forall (fun st => Z.max 1 (m_nStrokeWidth st) = 1)
                  (styles_of (layered_request ["roads"; "rivers"]))).
  { repeat constructor. }
  exact (render_shows_last_layer identity_encoder "" default_engine
           (layered_request ["roads"; "rivers"]) empty_frame 1
           Hchk eq_refl Hok Hsw).
Defined.

(** ** The test tile *)

Lemma int_range_in (lo hi v : Z) : lo <= v <= hi -> In v (int_range lo hi).
Proof.
  intros Hv. unfold int_range. apply List.in_map_iff.
  exists (Z.to_nat (v - lo)). split; [lia |]. apply List.in_seq. lia.
Qed.

Lemma loop_paint_none {A} (l : list A) (P : A -> nat -> option colour) (q : nat) :
  loop_paint l P q = None <-> forall x, In x l -> P x q = None.
Proof.
  induction l as [| x l IH]; simpl.
  - split; [intros _ y [] | reflexivity].
  - unfold over. destruct (loop_paint l P q) eqn:E.
    + split; [discriminate |]. intros Hall.
      assert (Hn : Some c = None); [| discriminate Hn].
      apply IH. intros y Hy. apply Hall. right. exact Hy.
    + split.
      * intros Hx y [<- | Hy]; [exact Hx | apply (proj1 IH eq_refl y Hy)].
      * intros Hall. apply Hall. left. reflexivity.
Qed.

Lemma loop_paint_some {A} (l : list A) (P : A -> nat -> option colour) (q : nat)
    (c : colour) :
  loop_paint l P q = Some c -> exists x, In x l /\ P x q = Some c.
Proof.
  induction l as [| x l IH]; simpl; [discriminate |].
  unfold over. destruct (loop_paint l P q) eqn:E.
  - intros [= <-]. destruct (IH eq_refl) as (y & Hy & Hc).
    exists y. split; [right; exact Hy | exact Hc].
  - intros Hx. exists x. split; [left; reflexivity | exact Hx].
Qed.

(** A loop that paints in one colour only. *)
Lemma loop_paint_one {A} (l : list A) (P : A -> nat -> option colour) (q : nat)
    (c : colour) (x : A) :
  (forall y c', In y l -> P y q = Some c' -> c' = c) ->
  In x l -> P x q <> None ->
  loop_paint l P q = Some c.
Proof.
  intros Hone Hx Hp. destruct (loop_paint l P q) as [c' |] eqn:E.
  - destruct (loop_paint_some l P q c' E) as (y & Hy & Hc).
    rewrite (Hone y c' Hy Hc). reflexivity.
  - exfalso. apply Hp. apply (proj1 (loop_paint_none l P q) E x Hx).
Qed.

Lemma tile_shade_paint_all (x y px py : Z) :
  0 <= px < 256 -> 0 <= py < 256 ->
  tile_shade_paint x y (Z.to_nat (py * 256 + px)) =
  Some (tile_shade x y, tile_shade x y, tile_shade x y, 255).
Proof.
  intros Hpx Hpy. unfold tile_shade_paint.
  assert (Hinner : forall v c', 
            loop_paint (int_range 0 255) (fun px0 q =>
              if (q =? Z.to_nat (v * 256 + px0))%nat
              then Some (tile_shade x y, tile_shade x y, tile_shade x y, 255)
              else None) (Z.to_nat (py * 256 + px)) = Some c' ->
            c' = (tile_shade x y, tile_shade x y, tile_shade x y, 255)).
  { intros v c' Hc. apply loop_paint_some in Hc as (u & _ & Hu).
    destruct (_ =? _)%nat; [| discriminate Hu]. injection Hu as <-. reflexivity. }
  apply (loop_paint_one _ _ _ _ py).
  - intros v c' _ Hc. exact (Hinner v c' Hc).
  - apply int_range_in. lia.
  - intros Hn.
    pose proof (proj1 (loop_paint_none _ _ _) Hn px (int_range_in 0 255 px ltac:(lia)))
      as Hq.
    simpl in Hq. rewrite Nat.eqb_refl in Hq. discriminate Hq.
Qed.

Lemma tile_label_paint_spec (z x y px py : Z) :
  0 <= px < 256 -> 0 <= py < 256 ->
  tile_label_paint z x y (Z.to_nat (py * 256 + px)) =
  if (20 <=? py) && (py <? 28) && (10 <=? px) &&
     (px <? 10 + 8 * Z.min (strlen (tile_text z x y)) 20)
  then Some (255, 0, 0, 255) else None.
Proof.
  intros Hpx Hpy. unfold tile_label_paint.
  set (len := Z.min (strlen (tile_text z x y)) 20).
  assert (Hlen : len <= 20) by (unfold len; lia).
  destruct ((20 <=? py) && (py <? 28) && (10 <=? px) && (px <? 10 + 8 * len)) eqn:Hin.
  - rewrite !andb_true_iff, !Z.leb_le, !Z.ltb_lt in Hin.
    destruct Hin as [[[H1 H2] H3] H4].
    assert (Hone : forall P q c, 
              (forall (u : Z) c', P u q = Some c' -> c' = (255, 0, 0, 255)) ->
              loop_paint (A := Z) (int_range 0 7) P q = Some c -> c = (255, 0, 0, 255)).
    { intros P q c HP Hc. apply loop_paint_some in Hc as (u & _ & Hu).
      exact (HP u c Hu). }
    set (i := (px - 10) / 8). set (dx := (px - 10) mod 8).
    assert (Hi : px - 10 = 8 * i + dx /\ 0 <= dx < 8 /\ 0 <= i <= len - 1).
    { unfold i, dx. pose proof (Z.div_mod (px - 10) 8 ltac:(lia)).
      pose proof (Z.mod_pos_bound (px - 10) 8 ltac:(lia)).
      repeat split; try lia. }
    destruct Hi as (Hpxi & Hdx & Hi).
    apply (loop_paint_one _ _ _ _ i).
    + intros u c' _ Hc. revert Hc. apply Hone. intros dy c1. apply Hone.
      intros dx' c2 Hc2.
      destruct (_ && _); [| discriminate Hc2].
      destruct (_ =? _)%nat; [| discriminate Hc2].
      injection Hc2 as <-. reflexivity.
    + apply int_range_in. lia.
    + intros Hn.
      pose proof (proj1 (loop_paint_none _ _ _) Hn (py - 20)
                    (int_range_in 0 7 (py - 20) ltac:(lia))) as Hn1.
      pose proof (proj1 (loop_paint_none _ _ _) Hn1 dx
                    (int_range_in 0 7 dx ltac:(lia))) as Hn2.
      cbv beta in Hn2.
      replace (10 + i * 8 + dx <? 256) with true in Hn2 by (symmetry; apply Z.ltb_lt; lia).
      replace (20 + (py - 20) <? 256) with true in Hn2 by (symmetry; apply Z.ltb_lt; lia).
      replace ((20 + (py - 20)) * 256 + (10 + i * 8 + dx)) with (py * 256 + px) in Hn2
        by lia.
      rewrite Nat.eqb_refl in Hn2. discriminate Hn2.
  - apply loop_paint_none. intros i Hi. apply in_int_range in Hi.
    apply loop_paint_none. intros dy Hdy. apply in_int_range in Hdy.
    apply loop_paint_none. intros dx Hdx. apply in_int_range in Hdx.
    cbv beta.
    destruct ((10 + i * 8 + dx <? 256) && (20 + dy <? 256)); [| reflexivity].
    destruct (Nat.eqb_spec (Z.to_nat (py * 256 + px))
                (Z.to_nat ((20 + dy) * 256 + (10 + i * 8 + dx)))) as [Heq |];
      [| reflexivity].
    exfalso. apply Z2Nat.inj in Heq; lia.
Qed.

(** The two loops on a buffer of a tile. *)
Lemma tile_loops_write (z x y : Z) :
  writes (Z.to_nat 262144) tt
    (over (over (fun _ => None) (tile_label_paint z x y)) (tile_shade_paint x y))
    (let* _ := for_each (int_range 0 (256 - 1)) (fun py =>
                 for_each (int_range 0 (256 - 1)) (fun px =>
                   store_pixel ((py * 256 + px) * 4)
                     (tile_shade x y) (tile_shade x y) (tile_shade x y) 255)) in
     let* _ := for_each (int_range 0 (Z.min (strlen (tile_text z x y)) 20 - 1))
                 (fun i =>
                    for_each (int_range 0 7) (fun dy =>
                      for_each (int_range 0 7) (fun dx =>
                        if (10 + i * 8 + dx <? 256) && (20 + dy <? 256) then
                          store_pixel (((20 + dy) * 256 + (10 + i * 8 + dx)) * 4)
                            255 0 0 255
                        else ret tt))) in
     ret tt).
Proof.
  change (256 - 1) with 255.
  apply writes_bind with (a := tt).
  - apply writes_for_each. intros py Hpy. apply in_int_range in Hpy.
    apply writes_for_each. intros px Hpx. apply in_int_range in Hpx.
    replace ((py * 256 + px) * 4) with (4 * (py * 256 + px)) by lia.
    apply writes_store; lia.
  - apply writes_bind with (a := tt); [| apply writes_ret].
    apply writes_for_each. intros i Hi. apply in_int_range in Hi.
    apply writes_for_each. intros dy Hdy. apply in_int_range in Hdy.
    apply writes_for_each. intros dx Hdx. apply in_int_range in Hdx.
    destruct ((10 + i * 8 + dx <? 256) && (20 + dy <? 256)) eqn:Hg.
    + apply andb_prop in Hg as [Hg1 Hg2]. apply Z.ltb_lt in Hg1, Hg2.
      replace (((20 + dy) * 256 + (10 + i * 8 + dx)) * 4)
        with (4 * ((20 + dy) * 256 + (10 + i * 8 + dx))) by lia.
      apply writes_store; lia.
    + apply writes_ret.
Qed.

Lemma TileImage_run (z x y : Z) (fr : Frame) :
  TileImage z x y fr =
  (inl tt,
   mkFrame (m_strError fr)
     (repaint (over (over (fun _ => None) (tile_label_paint z x y))
                 (tile_shade_paint x y))
        (replicate (Z.to_nat 262144) 0))).
Proof.
  unfold TileImage. cbv zeta. fold (tile_shade x y).
  rewrite bind_run.
  change (vec_new fr) with (inl tt : unit + fault, mkFrame (m_strError fr) []).
  cbv beta iota. rewrite bind_run. unfold vec_resize.
  cbn [vecImageData m_strError]. cbv beta iota.
  change (256 * 256 * 4) with 262144.
  rewrite take_nil, Nat.sub_0_r, app_nil_l.
  apply (tile_loops_write z x y). apply length_replicate.
Qed.

(** X12.  The test tile, pixel by pixel: [TileImage] never fails, keeps
    the error string, leaves a buffer of 256*256*4 bytes, and in it the
    pixel in column [px] and row [py] is opaque red when it lies in the
    label block (rows 20 to 27, eight columns from column 10 on for each
    of the first twenty characters of the label) and otherwise has the
    shade of the tile, 100 when [x + y] is even and 200 when it is odd,
    with alpha 255. *)
Theorem TileImage_pixels (z x y : Z) (fr : Frame) (px py : Z) (k : nat) :
  0 <= px < 256 -> 0 <= py < 256 -> (k < 4)%nat ->
  fst (TileImage z x y fr) = inl tt /\
  m_strError (snd (TileImage z x y fr)) = m_strError fr /\
  Z.of_nat (length (vecImageData (snd (TileImage z x y fr)))) = 256 * 256 * 4 /\
  vecImageData (snd (TileImage z x y fr)) !! (Z.to_nat (4 * (py * 256 + px)) + k)%nat =
  Some (channel (tile_pixel z x y px py) k).
Proof.
  intros Hpx Hpy Hk. rewrite TileImage_run. cbn [fst snd m_strError vecImageData].
  split; [reflexivity |]. split; [reflexivity |].
  split; [rewrite repaint_length, length_replicate; lia |].
  rewrite repaint_lookup.
  set (p := Z.to_nat (py * 256 + px)).
  replace (Z.to_nat (4 * (py * 256 + px))) with (4 * p)%nat by lia.
  assert (Hdiv : ((4 * p + k) / 4 = p)%nat).
  { symmetry. apply (Nat.div_unique _ 4 p k); lia. }
  assert (Hmod : ((4 * p + k) mod 4 = k)%nat).
  { symmetry. apply (Nat.mod_unique _ 4 p k); lia. }
  rewrite Hdiv, Hmod.
  rewrite lookup_replicate_2 by lia.
  unfold over, p. rewrite tile_label_paint_spec, tile_shade_paint_all by assumption.
  unfold tile_pixel.
  destruct ((20 <=? py) && (py <? 28) && (10 <=? px) &&
            (px <? 10 + 8 * Z.min (strlen (tile_text z x y)) 20)); reflexivity.
Qed.

Lemma TileImage_pixels_witness :
  fst (TileImage 3 1 2 empty_frame) = inl tt /\
  m_strError (snd (TileImage 3 1 2 empty_frame)) = m_strError empty_frame /\
  Z.of_nat (length (vecImageData (snd (TileImage 3 1 2 empty_frame)))) = 256 * 256 * 4 /\
  vecImageData (snd (TileImage 3 1 2 empty_frame))
    !! (Z.to_nat (4 * (20 * 256 + 10)) + 1)%nat =
  Some (channel (tile_pixel 3 1 2 10 20) 1).
Proof.
  assert (Hx : 0 <= 10 < 256) by lia.
  assert (Hy : 0 <= 20 < 256) by lia.
  assert (Hk : (1 < 4)%nat) by lia.
  exact (TileImage_pixels 3 1 2 empty_frame 10 20 1 Hx Hy Hk).
Defined.

Section TileHandler.
Variable EncodeToMemory : list Z -> Z -> Z -> option (list Z).

(** X13.  A tile request never fails: the handler rejects an address the
    validator rejects without touching the buffer, and for every other
    address it hands the encoder a buffer of exactly 256*256*4 bytes
    with the dimensions 256 by 256 and answers the encoded bytes with
    the bounding box of the tile, or an empty body when the encoder
    fails; no store leaves the buffer and nothing is thrown. *)
Theorem HandleTileRequest_total (z x y : Z) (fr : Frame) :
  exists reply fr',
    HandleTileRequest EncodeToMemory z x y fr = (inl reply, fr') /\
    m_strError fr' = m_strError fr /\
    match ValidateTileParameters z x y with
    | Invalid validationError =>
        reply = TileRejected validationError /\ fr' = fr
    | Valid =>
        Z.of_nat (length (vecImageData fr')) = 256 * 256 * 4 /\
        reply = match EncodeToMemory (vecImageData fr') 256 256 with
                | Some png => TilePng png (tile_bbox z x y)
                | None => TileEmpty
                end
    end.
Proof.
  unfold HandleTileRequest.
  destruct (ValidateTileParameters z x y) as [| validationError].
  - rewrite bind_run, TileImage_run. cbv beta iota.
    rewrite bind_run. unfold vec_data. cbn [vecImageData]. cbv beta iota.
    set (img := repaint _ _).
    assert (Hlen : Z.of_nat (length img) = 256 * 256 * 4).
    { unfold img. rewrite repaint_length, length_replicate. lia. }
    destruct (EncodeToMemory img 256 256) as [png |] eqn:E.
    + exists (TilePng png (tile_bbox z x y)), (mkFrame (m_strError fr) img).
      split; [reflexivity |]. split; [reflexivity |]. split; [exact Hlen |].
      cbn [vecImageData]. rewrite E. reflexivity.
    + exists TileEmpty, (mkFrame (m_strError fr) img).
      split; [reflexivity |]. split; [reflexivity |]. split; [exact Hlen |].
      cbn [vecImageData]. rewrite E. reflexivity.
  - exists (TileRejected validationError), fr.
    split; [reflexivity |]. split; [reflexivity |]. split; reflexivity.
Qed.

End TileHandler.

(** ** The JSON helpers *)

Lemma substring_span (stop : ascii -> bool) (s : string) (pos : nat) :
  substring pos
    (match find_first_of stop s pos with
     | Some e => e
     | None => String.length s
     end - pos) s =
  span stop (string_drop pos s).
Proof.
  revert pos. induction s as [| c t IH]; intros pos.
  - destruct pos; reflexivity.
  - destruct pos as [| p]; simpl find_first_of.
    + simpl string_drop. simpl span. destruct (stop c); [reflexivity |].
      specialize (IH 0%nat). simpl string_drop in IH.
      destruct (find_first_of stop t 0) as [e |].
      * rewrite Nat.sub_0_r in *. simpl. rewrite IH. reflexivity.
      * rewrite Nat.sub_0_r in *. simpl. rewrite IH. reflexivity.
    + specialize (IH p). simpl string_drop.
      destruct (find_first_of stop t p) as [e |]; simpl; exact IH.
Qed.

Lemma span_none_of (stop : ascii -> bool) (s : string) :
  none_of stop (span stop s) = true.
Proof.
  unfold none_of. induction s as [| c t IH]; simpl; [reflexivity |].
  destruct (stop c) eqn:E; simpl; [reflexivity |]. rewrite E. exact IH.
Qed.

Lemma span_app (stop : ascii -> bool) (v rest : string) :
  none_of stop v = true -> stops_at stop rest = true ->
  span stop (v +:+ rest) = v.
Proof.
  unfold none_of. induction v as [| c v IH]; simpl; intros Hv Hr.
  - destruct rest as [| d rest]; [reflexivity |]. simpl in *. rewrite Hr. reflexivity.
  - apply andb_prop in Hv as [Hc Hv]. apply negb_true_iff in Hc. rewrite Hc.
    rewrite (IH Hv Hr). reflexivity.
Qed.

Lemma string_drop_app (p s : string) :
  string_drop (String.length p) (p +:+ s) = s.
Proof. induction p as [| c p IH]; simpl; [reflexivity | exact IH]. Qed.

Lemma length_append (a b : string) :
  String.length (a +:+ b) = (String.length a + String.length b)%nat.
Proof. induction a as [| c a IH]; simpl; [reflexivity | rewrite IH; reflexivity]. Qed.

(** The quotes are never stripped: what is cut out holds no quote. *)
Lemma GetJsonString_span (strJson strKey : string) :
  GetJsonString strJson strKey =
  match find (json_needle strKey) strJson with
  | None => ""
  | Some pos =>
      span is_json_delim (string_drop (pos + String.length strKey + 3) strJson)
  end.
Proof.
  unfold GetJsonString, json_needle.
  destruct (find _ strJson) as [pos |]; [| reflexivity].
  cbv zeta. rewrite substring_span.
  set (value := span is_json_delim _).
  assert (Hfirst : char_is 0 value dquote = false).
  { pose proof (span_none_of is_json_delim
                  (string_drop (pos + String.length strKey + 3) strJson)) as Hn.
    fold value in Hn. unfold none_of in Hn. unfold char_is.
    destruct value as [| c v]; [reflexivity |]. simpl in Hn |- *.
    apply andb_prop in Hn as [Hc _]. apply negb_true_iff in Hc.
    unfold is_json_delim in Hc. apply orb_false_iff in Hc as [Hc _].
    apply orb_false_iff in Hc as [_ Hc]. exact Hc. }
  rewrite Hfirst, andb_false_r. reflexivity.
Qed.

(** X14.  What [GetJsonString] returns never holds a comma, a double
    quote or a closing brace, whatever the document and the key: the
    value is cut at the first of these characters, so the removal of
    surrounding quotes never applies and a value is returned with none
    of its text after the first quote. *)
Theorem GetJsonString_delimiter_free (strJson strKey : string) :
  none_of is_json_delim (GetJsonString strJson strKey) = true.
Proof.
  rewrite GetJsonString_span.
  destruct (find _ strJson); [apply span_none_of | reflexivity].
Qed.

Lemma drop_past_needle (pre strKey tail : string) :
  string_drop (String.length pre + String.length strKey + 3)
    (pre +:+ json_needle strKey +:+ tail) = tail.
Proof.
  replace (String.length pre + String.length strKey + 3)%nat
    with (String.length (pre +:+ json_needle strKey)).
  2:{ unfold json_needle. rewrite length_append. simpl.
      rewrite length_append. simpl. lia. }
  assert (Hassoc : pre +:+ json_needle strKey +:+ tail =
                   (pre +:+ json_needle strKey) +:+ tail).
  { clear. induction pre as [| c pre IH]; [reflexivity |].
    change (String c (pre +:+ json_needle strKey +:+ tail) =
            String c ((pre +:+ json_needle strKey) +:+ tail)).
    rewrite IH. reflexivity. }
  rewrite Hassoc. apply string_drop_app.
Qed.

(** X15.  [GetJsonString] reads a bare value and loses a quoted one:
    when the first occurrence of the key, written between double quotes
    and followed by a colon, is followed in the document by a text [v]
    without comma, quote and brace, and then by one of these characters
    or by the end of the document, the value returned is [v].  With an
    empty [v] this is the case of every JSON string: the value starts
    with a double quote and is returned as the empty string. *)
Theorem GetJsonString_reads_value (pre strKey v rest : string) :
  find (json_needle strKey) (pre +:+ json_needle strKey +:+ v +:+ rest) =
    Some (String.length pre) ->
  none_of is_json_delim v = true ->
  stops_at is_json_delim rest = true ->
  GetJsonString (pre +:+ json_needle strKey +:+ v +:+ rest) strKey = v.
Proof.
  intros Hfind Hv Hrest.
  rewrite GetJsonString_span, Hfind, drop_past_needle.
  apply span_app; assumption.
Qed.

Lemma GetJsonString_reads_value_witness :
  GetJsonString ("{" +:+ json_needle "background_color" +:+ "" +:+
                 String dquote ("#ff0000" +:+ String dquote "}"))
    "background_color" = "".
Proof.
  exact (GetJsonString_reads_value "{" "background_color" ""
           (String dquote ("#ff0000" +:+ String dquote "}"))
           eq_refl eq_refl eq_refl).
Defined.

Lemma dec_run_acc (d : Decimal.uint) (acc : positive) :
  dec_run (Zpos acc) (list_ascii_of_string (NilEmpty.string_of_uint d)) =
  Zpos (Pos.of_uint_acc d acc).
Proof.
  revert acc. induction d as [| d IH | d IH | d IH | d IH | d IH | d IH | d IH
                              | d IH | d IH | d IH]; intros acc;
    [reflexivity | ..];
    cbn [NilEmpty.string_of_uint list_ascii_of_string dec_run Pos.of_uint_acc];
    match goal with
    | |- context [dec_digit ?c] =>
        let v := eval vm_compute in (dec_digit c) in change (dec_digit c) with v
    end;
    cbv beta iota; rewrite <- IH; f_equal; lia.
Qed.

Lemma dec_run_uint (d : Decimal.uint) :
  dec_run 0 (list_ascii_of_string (NilEmpty.string_of_uint d)) =
  Z.of_N (Pos.of_uint d).
Proof.
  induction d as [| d IH | d IH | d IH | d IH | d IH | d IH | d IH
                  | d IH | d IH | d IH];
    [reflexivity | ..];
    cbn [NilEmpty.string_of_uint list_ascii_of_string dec_run Pos.of_uint];
    match goal with
    | |- context [dec_digit ?c] =>
        let v := eval vm_compute in (dec_digit c) in change (dec_digit c) with v
    end;
    cbv beta iota; [exact IH | ..];
    match goal with
    | |- dec_run ?a _ = _ =>
        let p := eval vm_compute in (Z.to_pos a) in
        change a with (Zpos p); rewrite dec_run_acc; reflexivity
    end.
Qed.

(** The characters [std::to_string] writes for a positive number: at
    least one, the first a digit, none a space. *)
Lemma pos_chars (p : positive) :
  exists c t,
    list_ascii_of_string (NilEmpty.string_of_uint (Pos.to_uint p)) = c :: t /\
    dec_digit c <> None.
Proof.
  pose proof (DecimalPos.Unsigned.to_uint_nonnil p) as Hnil.
  destruct (Pos.to_uint p); [contradiction | ..];
    cbn [NilEmpty.string_of_uint list_ascii_of_string];
    eexists _, _; (split; [reflexivity | vm_compute; discriminate]).
Qed.

Lemma digit_plain (c : ascii) :
  dec_digit c <> None ->
  isspace c = false /\ (code c =? 45) = false /\ (code c =? 43) = false.
Proof.
  unfold dec_digit, isspace. intros Hd.
  destruct ((48 <=? code c) && (code c <=? 57)) eqn:E; [| contradiction].
  lia.
Qed.

(** [std::stoi] reads back what [std::to_string] writes. *)
Lemma stoi_string_of_int (n : Z) :
  INT_MIN <= n <= INT_MAX -> stoi (string_of_int n) = inl n.
Proof.
  intros Hn. unfold string_of_int. destruct n as [| p | p].
  - reflexivity.
  - cbn [Z.to_int NilZero.string_of_int]. unfold NilZero.string_of_uint.
    assert (Hs : match Pos.to_uint p with
                 | Decimal.Nil => "0"
                 | _ => NilEmpty.string_of_uint (Pos.to_uint p)
                 end = NilEmpty.string_of_uint (Pos.to_uint p)).
    { pose proof (DecimalPos.Unsigned.to_uint_nonnil p).
      destruct (Pos.to_uint p); [contradiction | reflexivity ..]. }
    rewrite Hs. unfold stoi.
    pose proof (dec_run_uint (Pos.to_uint p)) as Hrun.
    rewrite DecimalPos.Unsigned.of_to in Hrun.
    destruct (pos_chars p) as (c & t & Hc & Hd). rewrite Hc in *.
    destruct (digit_plain c Hd) as (Hsp & Hm & Hp).
    cbn [skip_space]. rewrite Hsp, Hm, Hp.
    destruct (dec_digit c) eqn:Ed; [| contradiction].
    rewrite Hrun. cbn [Z.of_N].
    replace ((INT_MIN <=? Z.pos p) && (Z.pos p <=? INT_MAX)) with true by lia.
    reflexivity.
  - cbn [Z.to_int NilZero.string_of_int]. unfold NilZero.string_of_uint.
    assert (Hs : match Pos.to_uint p with
                 | Decimal.Nil => "0"
                 | _ => NilEmpty.string_of_uint (Pos.to_uint p)
                 end = NilEmpty.string_of_uint (Pos.to_uint p)).
    { pose proof (DecimalPos.Unsigned.to_uint_nonnil p).
      destruct (Pos.to_uint p); [contradiction | reflexivity ..]. }
    rewrite Hs. unfold stoi.
    pose proof (dec_run_uint (Pos.to_uint p)) as Hrun.
    rewrite DecimalPos.Unsigned.of_to in Hrun.
    destruct (pos_chars p) as (c & t & Hc & Hd).
    cbn [list_ascii_of_string skip_space].
    change (isspace "-") with false. cbv beta iota.
    match goal with
    | |- context [Z.eqb (code ?m) 45] => change (Z.eqb (code m) 45) with true
    end.
    rewrite Hc in *. cbv beta iota.
    destruct (dec_digit c) eqn:Ed; [| contradiction].
    rewrite Hrun. cbn [Z.of_N Z.opp].
    change (- Z.pos p) with (Z.neg p).
    rewrite (proj2 (Z.leb_le _ _) (proj1 Hn)), (proj2 (Z.leb_le _ _) (proj2 Hn)).
    reflexivity.
Qed.

Lemma string_of_int_no_delim (n : Z) :
  none_of is_json_delim (string_of_int n) = true.
Proof.
  unfold none_of.
  apply (forallb_impl digit_or_minus); [| apply string_of_int_chars].
  intros c Hc. unfold digit_or_minus in Hc. unfold is_json_delim. lia.
Qed.

(** X16.  [GetJsonInt] reads back what [std::to_string] writes: when the
    first occurrence of the key, between double quotes and followed by a
    colon, is followed by the decimal text of an [int] [n] and then by a
    comma, a quote, a brace or the end of the document, the value
    returned is [n]. *)
Theorem GetJsonInt_reads_int (pre strKey rest : string) (n : Z) :
  INT_MIN <= n <= INT_MAX ->
  find (json_needle strKey)
    (pre +:+ json_needle strKey +:+ string_of_int n +:+ rest) =
    Some (String.length pre) ->
  stops_at is_json_delim rest = true ->
  GetJsonInt (pre +:+ json_needle strKey +:+ string_of_int n +:+ rest) strKey = n.
Proof.
  intros Hn Hfind Hrest. unfold GetJsonInt.
  rewrite GetJsonString_span, Hfind, drop_past_needle.
  rewrite (span_app _ _ _ (string_of_int_no_delim n) Hrest).
  pose proof (stoi_string_of_int n Hn) as Hstoi.
  destruct (string_of_int n) as [| c s].
  - discriminate Hstoi.
  - rewrite Hstoi. reflexivity.
Qed.

Lemma GetJsonInt_reads_int_witness :
  GetJsonInt ("{" +:+ json_needle "width" +:+ string_of_int 256 +:+
              "," +:+ json_needle "height" +:+ "128}") "width" = 256.
Proof.
  assert (Hn : INT_MIN <= 256 <= INT_MAX) by (unfold INT_MIN, INT_MAX; lia).
  exact (GetJsonInt_reads_int "{" "width"
           ("," +:+ json_needle "height" +:+ "128}") 256 Hn eq_refl eq_refl).
Defined.

(** ** The request parser *)

Lemma append_nil_r (s : string) : s +:+ "" = s.
Proof.
  induction s as [| c s IH]; [reflexivity |].
  change (String c (s +:+ "") = String c s). rewrite IH. reflexivity.
Qed.

Lemma append_snoc (cur s : string) (c : ascii) :
  (cur +:+ String c "") +:+ s = cur +:+ String c s.
Proof.
  induction cur as [| d cur IH]; [reflexivity |].
  change (String d ((cur +:+ String c "") +:+ s) = String d (cur +:+ String c s)).
  rewrite IH. reflexivity.
Qed.

Lemma getlines_begun (cur s : string) :
  none_of is_json_delim s = true ->
  getlines 44 (Some cur) s = [cur +:+ s].
Proof.
  unfold none_of. revert cur. induction s as [| c s IH]; intros cur Hs.
  - cbn [getlines]. rewrite append_nil_r. reflexivity.
  - cbn [list_ascii_of_string forallb] in Hs. apply andb_prop in Hs as [Hc Hs].
    apply negb_true_iff in Hc. unfold is_json_delim in Hc.
    apply orb_false_iff in Hc as [Hc _]. apply orb_false_iff in Hc as [Hc _].
    cbn [getlines]. rewrite Hc, (IH _ Hs), append_snoc. reflexivity.
Qed.

Lemma getlines_single (s : string) :
  none_of is_json_delim s = true -> s <> "" -> getlines 44 None s = [s].
Proof.
  intros Hs Hne. destruct s as [| c s]; [contradiction |].
  unfold none_of in Hs. simpl in Hs. apply andb_prop in Hs as [Hc Hs].
  apply negb_true_iff in Hc. unfold is_json_delim in Hc.
  apply orb_false_iff in Hc as [Hc _]. apply orb_false_iff in Hc as [Hc _].
  cbn [getlines]. rewrite Hc. apply (getlines_begun (String c "") s Hs).
Qed.

Section ParseFacts.
Context {D : Type} `{DoubleArith D}.
Variable stod : string -> option D.
Variable read_bbox : string -> BoundingBox D -> BoundingBox D.
Variable EncodeToMemory : list Z -> Z -> Z -> option (list Z).
Variable fresh_encoder_error : string.

Lemma parsed_layers (strBody : string) :
  let parsed := ParseMapRequest stod read_bbox strBody MapRequest_default in
  fst parsed = true /\ m_mapStyles (snd parsed) = ∅ /\
  (m_vecLayers (snd parsed) = [] \/ exists layer, m_vecLayers (snd parsed) = [layer]).
Proof.
  intros parsed. unfold parsed, ParseMapRequest.
  destruct strBody as [| c0 body].
  - cbn [fst snd m_mapStyles m_vecLayers MapRequest_default].
    split; [reflexivity |]. split; [reflexivity | left; reflexivity].
  - set (json := String c0 body).
    cbn [fst snd m_mapStyles m_vecLayers MapRequest_default].
    split; [reflexivity |]. split; [reflexivity |].
    assert (Hl : none_of is_json_delim (GetJsonString json "layers") = true).
    { rewrite GetJsonString_span.
      destruct (find _ json); [apply span_none_of | reflexivity]. }
    destruct (GetJsonString json "layers") as [| c l] eqn:El.
    + left. reflexivity.
    + right. exists (String c l). cbn [app].
      apply getlines_single; [exact Hl | discriminate].
Qed.

(** X17.  What the request parser can produce from a body, whatever the
    body: it reports success, the style map and the filter are empty,
    the background colour is not empty and holds no comma, quote or
    brace, and there is at most one layer, whose name is not empty and
    holds none of these characters either. *)
Theorem ParseMapRequest_shape (strBody : string) :
  let parsed := ParseMapRequest stod read_bbox strBody MapRequest_default in
  fst parsed = true /\
  m_mapStyles (snd parsed) = ∅ /\
  m_strFilter (snd parsed) = "" /\
  m_strBackgroundColor (snd parsed) <> "" /\
  none_of is_json_delim (m_strBackgroundColor (snd parsed)) = true /\
  (m_vecLayers (snd parsed) = [] \/
   exists layer, m_vecLayers (snd parsed) = [layer] /\ layer <> "" /\
                 none_of is_json_delim layer = true).
Proof.
  intros parsed. unfold parsed, ParseMapRequest.
  destruct strBody as [| c0 body].
  - cbn [fst snd m_mapStyles m_strFilter m_strBackgroundColor m_vecLayers
         MapRequest_default].
    split; [reflexivity |]. split; [reflexivity |]. split; [reflexivity |].
    split; [discriminate |]. split; [reflexivity | left; reflexivity].
  - set (json := String c0 body).
    cbn [fst snd m_mapStyles m_strFilter m_strBackgroundColor m_vecLayers
         MapRequest_default].
    split; [reflexivity |]. split; [reflexivity |]. split; [reflexivity |].
    assert (Hfree : forall key, none_of is_json_delim (GetJsonString json key) = true).
    { intros key. rewrite GetJsonString_span.
      destruct (find _ json); [apply span_none_of | reflexivity]. }
    pose proof (Hfree "background_color") as Hbg.
    pose proof (Hfree "layers") as Hl.
    split; [| split].
    + destruct (GetJsonString json "background_color"); discriminate.
    + destruct (GetJsonString json "background_color"); [reflexivity | exact Hbg].
    + destruct (GetJsonString json "layers") as [| c l] eqn:El.
      * left. reflexivity.
      * right. exists (String c l). split; [| split; [discriminate | exact Hl]].
        cbn [app]. apply getlines_single; [exact Hl | discriminate].
Qed.

(** X18.  No body makes the handler of a map request throw: whatever
    the body, on an initialised engine with the limits of the
    configuration (within [int]), [HandleGenerateRequest] answers
    INVALID_REQUEST with the message of the validator when the parsed
    request is rejected, and otherwise the PNG of the blank image with
    one placeholder on it, drawn in the style of a request without
    layers when the body names none and in the default layer style when
    it names one, or RENDER_FAILED when the encoder fails. *)
Theorem HandleGenerateBody_replies (strBody : string) (config : ServerConfig)
    (eng : RenderEngine) (fr : Frame) :
  m_config eng = config -> m_bInitialized eng = true ->
  m_nMaxImageWidth config <= INT_MAX -> m_nMaxImageHeight config <= INT_MAX ->
  HandleGenerateBody stod read_bbox EncodeToMemory fresh_encoder_error
    strBody config eng fr =
  match ValidateMapRequestParameters config
          (snd (ParseMapRequest stod read_bbox strBody MapRequest_default)) with
  | Invalid validationError => ErrorReply "INVALID_REQUEST" validationError
  | Valid =>
      match
        EncodeToMemory
          (paint
             (m_nWidth (snd (ParseMapRequest stod read_bbox strBody MapRequest_default)))
             (m_nHeight (snd (ParseMapRequest stod read_bbox strBody MapRequest_default)))
             (m_bbox (snd (ParseMapRequest stod read_bbox strBody MapRequest_default)))
             (blank_image
                (m_nWidth (snd (ParseMapRequest stod read_bbox strBody MapRequest_default)))
                (m_nHeight (snd (ParseMapRequest stod read_bbox strBody MapRequest_default)))
                (m_strBackgroundColor
                   (snd (ParseMapRequest stod read_bbox strBody MapRequest_default))))
             match m_vecLayers
                     (snd (ParseMapRequest stod read_bbox strBody MapRequest_default)) with
             | [] => defaultStyle
             | _ :: _ => LayerStyle_default
             end)
          (m_nWidth (snd (ParseMapRequest stod read_bbox strBody MapRequest_default)))
          (m_nHeight (snd (ParseMapRequest stod read_bbox strBody MapRequest_default)))
      with
      | Some png => PngReply png
      | None =>
          ErrorReply "RENDER_FAILED" ("Failed to encode PNG: " +:+ fresh_encoder_error)
      end
  end.
Proof.
  intros Hc Hi Hmw Hmh. unfold HandleGenerateBody.
  destruct (parsed_layers strBody) as (Hok & Hstyles & Hlayers).
  destruct (ParseMapRequest stod read_bbox strBody MapRequest_default)
    as [ok request].
  cbn [fst snd] in *. subst ok. cbn [negb].
  unfold HandleGenerateRequest.
  destruct (ValidateMapRequestParameters config request) eqn:Hv; [| reflexivity].
  assert (Hp : passes_render_checks eng request).
  { destruct (validated_dimensions config request Hv) as (Hb & Hw & Hh).
    unfold passes_render_checks. rewrite Hc. repeat split; try assumption; lia. }
  assert (Hbg : parses (background_rgba (m_strBackgroundColor request)) = true).
  { destruct (validated_parts config request Hv) as [Hb _].
    destruct (validated_background_cases _ Hb)
      as [[_ Hw] | (c1 & c2 & c3 & c4 & c5 & c6 & _ & _ & Hw)];
      rewrite Hw; reflexivity. }
  assert (Hst : styles_of request =
                [match m_vecLayers request with
                 | [] => defaultStyle
                 | _ :: _ => LayerStyle_default
                 end]).
  { unfold styles_of. destruct Hlayers as [-> | [layer ->]]; [reflexivity |].
    cbn [map]. unfold style_for. rewrite Hstyles, lookup_empty. reflexivity. }
  assert (Hall : Forall (fun st => style_ok st = true) (styles_of request)).
  { rewrite Hst. constructor; [| constructor].
    destruct (m_vecLayers request); reflexivity. }
  rewrite (RenderMap_run EncodeToMemory fresh_encoder_error eng request fr Hp Hbg Hall).
  rewrite Hst. cbn [fold_left].
  destruct (EncodeToMemory _ _ _); reflexivity.
Qed.

End ParseFacts.

Lemma HandleGenerateBody_replies_witness :
  HandleGenerateBody no_stod no_read_bbox identity_encoder "" "" GetDefaultConfig
    default_engine empty_frame =
  match ValidateMapRequestParameters GetDefaultConfig
          (snd (ParseMapRequest no_stod no_read_bbox "" MapRequest_default)) with
  | Invalid validationError => ErrorReply "INVALID_REQUEST" validationError
  | Valid =>
      match
        identity_encoder
          (paint
             (m_nWidth (snd (ParseMapRequest no_stod no_read_bbox "" MapRequest_default)))
             (m_nHeight (snd (ParseMapRequest no_stod no_read_bbox "" MapRequest_default)))
             (m_bbox (snd (ParseMapRequest no_stod no_read_bbox "" MapRequest_default)))
             (blank_image
                (m_nWidth (snd (ParseMapRequest no_stod no_read_bbox "" MapRequest_default)))
                (m_nHeight (snd (ParseMapRequest no_stod no_read_bbox "" MapRequest_default)))
                (m_strBackgroundColor
                   (snd (ParseMapRequest no_stod no_read_bbox "" MapRequest_default))))
             match m_vecLayers
                     (snd (ParseMapRequest no_stod no_read_bbox "" MapRequest_default)) with
             | [] => defaultStyle
             | _ :: _ => LayerStyle_default
             end)
          (m_nWidth (snd (ParseMapRequest no_stod no_read_bbox "" MapRequest_default)))
          (m_nHeight (snd (ParseMapRequest no_stod no_read_bbox "" MapRequest_default)))
      with
      | Some png => PngReply png
      | None => ErrorReply "RENDER_FAILED" ("Failed to encode PNG: " +:+ "")
      end
  end.
Proof.
  assert (Hmax : 4096 <= INT_MAX) by (unfold INT_MAX; lia).
  exact (HandleGenerateBody_replies no_stod no_read_bbox identity_encoder ""
           "" GetDefaultConfig default_engine empty_frame eq_refl eq_refl Hmax Hmax).
Defined.

(** ** The configuration file *)





















(** ** The command line *)

Section CommandLineFacts.
Variable read_file : string -> option string.

(** X20.  Options are read from left to right and each one is complete
    in itself: when [ParseCommandLine] accepts the arguments [args1] and
    leaves the configuration [config1], parsing [args1] followed by
    [args2] is parsing [args2] from [config1].  So a later option
    overrides an earlier one, and an argument list is rejected exactly
    where its first bad option stands. *)
Theorem ParseCommandLine_app (args1 args2 : list string)
    (config config1 : ConfigFile.ServerConfig) :
  ParseCommandLine read_file args1 config = inl (true, config1) ->
  ParseCommandLine read_file (args1 ++ args2) config =
  ParseCommandLine read_file args2 config1.
Proof.
  remember (length args1) as n eqn:Hn.
  revert args1 config Hn.
  induction n as [n IH] using lt_wf_ind. intros args1 config Hn Hparse.
  destruct args1 as [| arg rest].
  - injection Hparse as <-. reflexivity.
  - cbn [app ParseCommandLine] in *.
    destruct (String.eqb arg "-h" || String.eqb arg "--help"); [discriminate Hparse |].
    destruct (String.eqb arg "-c" || String.eqb arg "--config").
    { destruct rest as [| configFile rest']; [discriminate Hparse |]. cbn [app].
      destruct (ConfigFile.LoadConfigFromFile (read_file configFile) config)
        as [[[|] config'] | e]; try discriminate Hparse.
      apply (IH (length rest')); [simpl in Hn; lia | reflexivity | exact Hparse]. }
    destruct (String.eqb arg "-p" || String.eqb arg "--port").
    { destruct rest as [| port rest']; [discriminate Hparse |]. cbn [app].
      destruct (stoi port) as [v | e]; [| discriminate Hparse].
      apply (IH (length rest')); [simpl in Hn; lia | reflexivity | exact Hparse]. }
    destruct (String.eqb arg "-o" || String.eqb arg "--output").
    { destruct rest as [| dir rest']; [discriminate Hparse |]. cbn [app].
      apply (IH (length rest')); [simpl in Hn; lia | reflexivity | exact Hparse]. }
    destruct (String.eqb arg "-d" || String.eqb arg "--database").
    { destruct rest as [| path rest']; [discriminate Hparse |]. cbn [app].
      apply (IH (length rest')); [simpl in Hn; lia | reflexivity | exact Hparse]. }
    destruct (String.eqb arg "-v" || String.eqb arg "--verbose");
      [| discriminate Hparse].
    apply (IH (length rest)); [simpl in Hn; lia | reflexivity | exact Hparse].
Qed.

(** X21.  The port option is not range checked: for every [int] [n],
    the arguments [-p n] (or [--port n]) are accepted and set the port
    to [n] modulo 65536, so that 70000 gives 4464 and -1 gives 65535;
    nothing else of the configuration changes. *)
Theorem port_option_wraps (opt : string) (n : Z) (config : ConfigFile.ServerConfig) :
  opt = "-p" \/ opt = "--port" ->
  INT_MIN <= n <= INT_MAX ->
  ParseCommandLine read_file [opt; string_of_int n] config =
  inl (true, ConfigFile.set_m_nPort (n mod 65536) config).
Proof.
  intros Hopt Hn. cbn [ParseCommandLine].
  rewrite (stoi_string_of_int n Hn).
  destruct Hopt as [-> | ->]; reflexivity.
Qed.

End CommandLineFacts.

Lemma ParseCommandLine_app_witness :
  ParseCommandLine no_files (["-p"; "80"] ++ ["-v"]) ConfigFile.GetDefaultConfig =
  ParseCommandLine no_files ["-v"]
    (ConfigFile.set_m_nPort 80 ConfigFile.GetDefaultConfig).
Proof.
  exact (ParseCommandLine_app no_files ["-p"; "80"] ["-v"] ConfigFile.GetDefaultConfig
           (ConfigFile.set_m_nPort 80 ConfigFile.GetDefaultConfig) eq_refl).
Defined.

Lemma port_option_wraps_witness :
  ParseCommandLine no_files ["--port"; string_of_int 70000] ConfigFile.GetDefaultConfig =
  inl (true, ConfigFile.set_m_nPort (70000 mod 65536) ConfigFile.GetDefaultConfig).
Proof.
  assert (Hn : INT_MIN <= 70000 <= INT_MAX) by (unfold INT_MIN, INT_MAX; lia).
  exact (port_option_wraps no_files "--port" 70000 ConfigFile.GetDefaultConfig
           (or_intror eq_refl) Hn).
Defined.

(** ** The encoder *)

(** X22.  The compression level of an encoder is always one libpng
    accepts: from a new encoder, after any sequence of calls of
    [SetCompressionLevel] and [SetInterlaced] with any arguments, the
    level is between 0 and 9; a call with a level outside this range
    changes nothing. *)
Theorem compression_level_in_range (calls : list PngEncoder.call) :
  0 <= PngEncoder.m_nCompressionLevel
         (fold_left (fun e c => PngEncoder.run c e) calls PngEncoder.fresh) <= 9.
Proof.
  assert (Hinv : forall e,
            0 <= PngEncoder.m_nCompressionLevel e <= 9 ->
            0 <= PngEncoder.m_nCompressionLevel
                   (fold_left (fun e c => PngEncoder.run c e) calls e) <= 9).
  { induction calls as [| c calls IH]; intros e He; [exact He |].
    cbn [fold_left]. apply IH. destruct c as [nLevel | b]; cbn [PngEncoder.run].
    - unfold PngEncoder.SetCompressionLevel.
      destruct ((0 <=? nLevel) && (nLevel <=? 9)) eqn:Hg; [| exact He].
      cbn [PngEncoder.m_nCompressionLevel]. lia.
    - exact He. }
  apply Hinv. cbn. lia.
Qed.

Lemma rows_concat (m : nat) (data : list Z) (k s : nat) :
  concat (map (fun y => take m (drop (y * m) data)) (seq s k)) =
  take (k * m) (drop (s * m) data).
Proof.
  revert s. induction k as [| k IH]; intros s; [reflexivity |].
  cbn [seq map concat]. rewrite IH.
  replace (Datatypes.S s * m)%nat with (s * m + m)%nat by lia.
  rewrite <- drop_drop, take_take_drop. reflexivity.
Qed.

(** X23.  The encoder reads the canvas row by row and nothing else:
    for positive dimensions with [nWidth * nHeight * 4] within [int]
    and a buffer of exactly that many bytes, every row pointer of
    [EncodeRGBA] lies inside the buffer together with the [nWidth * 4]
    bytes of its row, there are [nHeight] rows, and the rows put one
    after the other are the buffer. *)
Theorem encoder_rows_are_the_canvas (pData : list Z) (nWidth nHeight : Z) :
  0 < nWidth -> 0 < nHeight -> nWidth * nHeight * 4 <= INT_MAX ->
  Z.of_nat (length pData) = nWidth * nHeight * 4 ->
  exists chunks,
    PngEncoder.rows pData nWidth nHeight = map Some chunks /\
    Z.of_nat (length chunks) = nHeight /\
    Forall (fun r => Z.of_nat (length r) = nWidth * 4) chunks /\
    concat chunks = pData.
Proof.
  intros Hw Hh Hmax Hlen.
  set (m := Z.to_nat (nWidth * 4)). set (k := Z.to_nat nHeight).
  exists (map (fun y => take m (drop (y * m) pData)) (seq 0 k)).
  assert (Hrange : int_range 0 (nHeight - 1) = map Z.of_nat (seq 0 k)).
  { unfold int_range. replace (Z.to_nat (nHeight - 1 - 0 + 1)) with k by lia.
    apply map_ext. intros a. lia. }
  split; [| split; [| split]].
  - unfold PngEncoder.rows. rewrite Hrange, !map_map.
    apply map_ext_in. intros y Hy. apply List.in_seq in Hy.
    unfold PngEncoder.row_at, PngEncoder.row_offset.
    assert (Hy' : 0 <= Z.of_nat y < nHeight) by lia.
    assert (0 <= Z.of_nat y * nWidth <= (nHeight - 1) * nWidth) by nia.
    unfold INT_MAX in Hmax.
    rewrite (int_wrap_small (Z.of_nat y * nWidth)) by (unfold INT_MIN, INT_MAX; nia).
    rewrite (int_wrap_small (Z.of_nat y * nWidth * 4))
      by (unfold INT_MIN, INT_MAX; nia).
    replace ((0 <=? Z.of_nat y * nWidth * 4) &&
             (Z.of_nat y * nWidth * 4 + nWidth * 4 <=? Z.of_nat (length pData)))
      with true.
    2:{ symmetry. apply andb_true_intro. split; apply Z.leb_le; nia. }
    fold m. replace (Z.to_nat (Z.of_nat y * nWidth * 4)) with (y * m)%nat by (unfold m; nia).
    reflexivity.
  - rewrite length_map, length_seq. unfold k. lia.
  - apply List.Forall_forall. intros r Hr.
    apply List.in_map_iff in Hr as (y & <- & Hy). apply List.in_seq in Hy.
    rewrite length_take, length_drop. unfold m, k in *. nia.
  - rewrite rows_concat. cbn [Nat.mul drop]. apply take_ge. unfold m, k. nia.
Qed.

Lemma encoder_rows_are_the_canvas_witness :
  exists chunks,
    PngEncoder.rows [1; 2; 3; 4; 5; 6; 7; 8] 1 2 = map Some chunks /\
    Z.of_nat (length chunks) = 2 /\
    Forall (fun r => Z.of_nat (length r) = 1 * 4) chunks /\
    concat chunks = [1; 2; 3; 4; 5; 6; 7; 8].
Proof.
  assert (Hmax : 1 * 2 * 4 <= INT_MAX) by (unfold INT_MAX; lia).
  exact (encoder_rows_are_the_canvas [1; 2; 3; 4; 5; 6; 7; 8] 1 2
           ltac:(lia) ltac:(lia) Hmax eq_refl).
Defined.

(** ** The connection pool *)

Section PoolFacts.
Context {D : Type} `{DoubleArith D}.
Variable can_open : bool.
Variable all_rows : option (list (DatabaseManager.Row (D := D))).
Variable row_of_id : string -> option (option (DatabaseManager.Row (D := D))).
Variable select_one : option bool.

Lemma open_connections_pool (n : nat) (db : DatabaseManager.t) :
  DatabaseManager.m_connectionPool (DatabaseManager.open_connections true n db) =
  DatabaseManager.m_connectionPool db ++ seq (DatabaseManager.next_handle db) n.
Proof.
  revert db. induction n as [| n IH]; intros db.
  - cbn. rewrite app_nil_r. reflexivity.
  - cbn [DatabaseManager.open_connections seq]. rewrite IH. cbn.
    rewrite <- app_assoc. reflexivity.
Qed.

Lemma step_rotates (co : bool) (o : DatabaseManager.op) (db : DatabaseManager.t)
    (conn : nat) (rest : list nat) :
  DatabaseManager.m_initialized db = true ->
  DatabaseManager.m_connectionPool db = conn :: rest ->
  DatabaseManager.step co all_rows row_of_id select_one o db =
  DatabaseManager.mk (DatabaseManager.m_poolSize db) (rest ++ [conn]) true
    (DatabaseManager.next_handle db).
Proof.
  intros Hi Hp. destruct db as [size pool init next]. cbn in Hi, Hp. subst.
  destruct o as [| layerId |]; cbn.
  - destruct all_rows as [rows |]; reflexivity.
  - destruct (row_of_id layerId) as [[r |] |]; reflexivity.
  - reflexivity.
Qed.

(** X24.  The pool loses no connection: a manager made for a database
    that can be opened holds [poolSize] distinct connections (five when
    [poolSize] is not positive) and is initialised, and after any
    sequence of [GetAllLayers], [GetLayerById] and [IsHealthy] it is
    still initialised and holds the same connections, each exactly once,
    in the order of a rotation; no further connection is ever opened. *)
Theorem pool_is_conserved (poolSize : Z) (ops : list DatabaseManager.op) :
  let n := Z.to_nat (if 0 <? poolSize then poolSize else 5) in
  let db := fold_left
              (fun db o => DatabaseManager.step true all_rows row_of_id select_one o db)
              ops (DatabaseManager.create true poolSize) in
  DatabaseManager.m_initialized db = true /\
  DatabaseManager.next_handle db = n /\
  DatabaseManager.m_connectionPool db =
    drop (length ops mod n) (seq 0 n) ++ take (length ops mod n) (seq 0 n).
Proof.
  intros n db.
  assert (Hn : (0 < n)%nat).
  { unfold n. destruct (0 <? poolSize) eqn:Hp; [apply Z.ltb_lt in Hp |]; lia. }
  assert (Hcreate : DatabaseManager.create true poolSize =
            DatabaseManager.mk (if 0 <? poolSize then poolSize else 5) (seq 0 n) true n).
  { unfold DatabaseManager.create, DatabaseManager.InitializePool.
    cbn [DatabaseManager.m_poolSize].
    pose proof (open_connections_pool n
                  (DatabaseManager.mk (if 0 <? poolSize then poolSize else 5) [] false 0))
      as Hpool.
    cbn [DatabaseManager.m_connectionPool DatabaseManager.next_handle app] in Hpool.
    fold n.
    assert (Hrest : forall k db0,
              DatabaseManager.m_poolSize (DatabaseManager.open_connections true k db0) =
                DatabaseManager.m_poolSize db0 /\
              DatabaseManager.next_handle (DatabaseManager.open_connections true k db0) =
                (DatabaseManager.next_handle db0 + k)%nat).
    { induction k as [| k IH]; intros db0; [cbn; split; [reflexivity | lia] |].
      cbn [DatabaseManager.open_connections].
      destruct (IH (DatabaseManager.mk (DatabaseManager.m_poolSize db0)
                      (DatabaseManager.m_connectionPool db0 ++
                       [DatabaseManager.next_handle db0])
                      (DatabaseManager.m_initialized db0)
                      (Datatypes.S (DatabaseManager.next_handle db0)))) as [-> ->].
      cbn. split; [reflexivity | lia]. }
    destruct (Hrest n (DatabaseManager.mk (if 0 <? poolSize then poolSize else 5)
                         [] false 0)) as [Hsize Hnext].
    rewrite Hpool, Hsize, Hnext. cbn [DatabaseManager.m_poolSize DatabaseManager.next_handle].
    destruct n as [| n']; [lia |]. reflexivity. }
  unfold db. rewrite Hcreate. clear db Hcreate.
  set (size := if 0 <? poolSize then poolSize else 5).
  assert (Hgen : forall ops0 k,
            (k < n)%nat ->
            let db0 := fold_left
                         (fun db o =>
                            DatabaseManager.step true all_rows row_of_id select_one o db)
                         ops0
                         (DatabaseManager.mk size
                            (drop k (seq 0 n) ++ take k (seq 0 n)) true n) in
            DatabaseManager.m_initialized db0 = true /\
            DatabaseManager.next_handle db0 = n /\
            DatabaseManager.m_connectionPool db0 =
              drop ((k + length ops0) mod n) (seq 0 n) ++
              take ((k + length ops0) mod n) (seq 0 n)).
  { induction ops0 as [| o ops0 IH]; intros k Hk.
    - cbn [fold_left length]. rewrite Nat.add_0_r, Nat.mod_small by exact Hk.
      repeat split.
    - cbn [fold_left length].
      assert (Hpool : drop k (seq 0 n) ++ take k (seq 0 n) =
                      k :: (drop (Datatypes.S k) (seq 0 n) ++ take k (seq 0 n))).
      { rewrite (drop_S (seq 0 n) k k); [reflexivity |].
        rewrite lookup_seq. split; [reflexivity | exact Hk]. }
      rewrite (step_rotates true o
                 (DatabaseManager.mk size (drop k (seq 0 n) ++ take k (seq 0 n)) true n)
                 k (drop (Datatypes.S k) (seq 0 n) ++ take k (seq 0 n))
                 eq_refl Hpool).
      cbn [DatabaseManager.m_poolSize DatabaseManager.next_handle].
      assert (Hnext : (drop (Datatypes.S k) (seq 0 n) ++ take k (seq 0 n)) ++ [k] =
                drop (Datatypes.S k mod n) (seq 0 n) ++ take (Datatypes.S k mod n) (seq 0 n)).
      { rewrite <- app_assoc.
        assert (Htake : take k (seq 0 n) ++ [k] = take (Datatypes.S k) (seq 0 n)).
        { rewrite (take_S_r (seq 0 n) k k); [reflexivity |].
          rewrite lookup_seq. split; [reflexivity | exact Hk]. }
        rewrite Htake.
        destruct (Nat.eq_dec (Datatypes.S k) n) as [Heq | Hne].
        - rewrite Heq, Nat.Div0.mod_same.
          rewrite drop_ge by (rewrite length_seq; lia).
          rewrite take_ge by (rewrite length_seq; lia).
          cbn. rewrite app_nil_r. reflexivity.
        - rewrite Nat.mod_small by lia. reflexivity. }
      rewrite Hnext.
      destruct (IH (Datatypes.S k mod n)%nat ltac:(apply Nat.mod_upper_bound; lia))
        as (Hi & Hh & Hp).
      split; [exact Hi |]. split; [exact Hh |]. rewrite Hp.
      replace ((Datatypes.S k mod n + length ops0) mod n)%nat
        with ((k + Datatypes.S (length ops0)) mod n)%nat; [reflexivity |].
      rewrite Nat.Div0.add_mod_idemp_l. f_equal. lia. }
  destruct (Hgen ops 0%nat Hn) as (Hi & Hh & Hp).
  cbn [drop take app] in Hi, Hh, Hp. rewrite app_nil_r in Hi, Hh, Hp.
  split; [exact Hi |]. split; [exact Hh |]. exact Hp.
Qed.

End PoolFacts.

(** ** The route of the tiles *)

Lemma dec_run_nonneg (l : list ascii) (acc : Z) : 0 <= acc -> 0 <= dec_run acc l.
Proof.
  revert acc. induction l as [| c l IH]; intros acc Hacc; [exact Hacc |].
  cbn [dec_run]. unfold dec_digit.
  destruct ((48 <=? code c) && (code c <=? 57)) eqn:Hd; [| exact Hacc].
  apply IH. lia.
Qed.

(** [std::stoi] on a text of digits: the number, or [std::out_of_range]. *)
Lemma stoi_digits (s : string) :
  all_digits s = true ->
  stoi s = if dec_run 0 (list_ascii_of_string s) <=? INT_MAX
           then inl (dec_run 0 (list_ascii_of_string s))
           else inr std_out_of_range.
Proof.
  unfold all_digits. intros Hs. apply andb_prop in Hs as [Hne Hd].
  destruct s as [| c s]; [discriminate Hne |].
  cbn [list_ascii_of_string forallb] in Hd. apply andb_prop in Hd as [Hc _].
  assert (Hdc : dec_digit c <> None) by (destruct (dec_digit c); [discriminate | discriminate Hc]).
  destruct (digit_plain c Hdc) as (Hsp & Hm & Hp).
  unfold stoi. cbn [list_ascii_of_string skip_space]. rewrite Hsp, Hm, Hp.
  destruct (dec_digit c) eqn:Ed; [| contradiction].
  pose proof (dec_run_nonneg (c :: list_ascii_of_string s) 0 ltac:(lia)) as Hnn.
  replace (INT_MIN <=? dec_run 0 (c :: list_ascii_of_string s)) with true
    by (symmetry; apply Z.leb_le; unfold INT_MIN; lia).
  reflexivity.
Qed.

Section TileRouteFacts.
Variable EncodeToMemory : list Z -> Z -> Z -> option (list Z).

(** X25.  What the route of the tiles answers to a path it matches.
    The three numbers of the path are read without a guard, so a number
    above [INT_MAX] leaves the route as [std::out_of_range]; nothing
    else is thrown.  Otherwise the answer is the encoded tile with its
    bounding box when the validator accepts the address and the encoder
    produces at least one byte, and in every other case status 404 with
    [Tile not found]: the status 400 of a rejected address never
    reaches the client. *)
Theorem TileRoute_reply (zs xs ys : string) (fr : Frame) :
  all_digits zs = true -> all_digits xs = true -> all_digits ys = true ->
  fst (TileRoute EncodeToMemory zs xs ys fr) =
  let z := dec_run 0 (list_ascii_of_string zs) in
  let x := dec_run 0 (list_ascii_of_string xs) in
  let y := dec_run 0 (list_ascii_of_string ys) in
  if (z <=? INT_MAX) && (x <=? INT_MAX) && (y <=? INT_MAX) then
    match ValidateTileParameters z x y with
    | Invalid _ => inl RouteNotFound
    | Valid =>
        match EncodeToMemory (vecImageData (snd (TileImage z x y fr))) 256 256 with
        | Some (b :: png) => inl (RouteContent (b :: png) (tile_bbox z x y))
        | _ => inl RouteNotFound
        end
    end
  else inr (Throw std_out_of_range).
Proof.
  intros Hz Hx Hy. cbv zeta. unfold TileRoute.
  rewrite bind_run, (stoi_digits zs Hz).
  destruct (dec_run 0 (list_ascii_of_string zs) <=? INT_MAX); [| reflexivity].
  cbn [lift ret andb]. rewrite bind_run, (stoi_digits xs Hx).
  destruct (dec_run 0 (list_ascii_of_string xs) <=? INT_MAX); [| reflexivity].
  cbn [lift ret andb]. rewrite bind_run, (stoi_digits ys Hy).
  destruct (dec_run 0 (list_ascii_of_string ys) <=? INT_MAX); [| reflexivity].
  cbn [lift ret andb]. rewrite bind_run.
  set (z := dec_run 0 (list_ascii_of_string zs)).
  set (x := dec_run 0 (list_ascii_of_string xs)).
  set (y := dec_run 0 (list_ascii_of_string ys)).
  unfold HandleTileRequest.
  destruct (ValidateTileParameters z x y) as [| validationError]; [| reflexivity].
  rewrite bind_run, TileImage_run. cbv beta iota.
  rewrite bind_run. unfold vec_data. cbn [vecImageData snd]. cbv beta iota.
  destruct (EncodeToMemory _ 256 256) as [[| b png] |]; reflexivity.
Qed.

End TileRouteFacts.

Lemma TileRoute_reply_witness :
  fst (TileRoute identity_encoder "99" "0" "0" empty_frame) =
  let z := dec_run 0 (list_ascii_of_string "99") in
  let x := dec_run 0 (list_ascii_of_string "0") in
  let y := dec_run 0 (list_ascii_of_string "0") in
  if (z <=? INT_MAX) && (x <=? INT_MAX) && (y <=? INT_MAX) then
    match ValidateTileParameters z x y with
    | Invalid _ => inl RouteNotFound
    | Valid =>
        match identity_encoder (vecImageData (snd (TileImage z x y empty_frame)))
                256 256 with
        | Some (b :: png) => inl (RouteContent (b :: png) (tile_bbox z x y))
        | _ => inl RouteNotFound
        end
    end
  else inr (Throw std_out_of_range).
Proof.
  exact (TileRoute_reply identity_encoder "99" "0" "0" empty_frame
           eq_refl eq_refl eq_refl).
Defined.

(** ** The handlers of the layers *)

Section LayerHandlerFacts.
Context {D : Type} `{DoubleArith D}.
Variable can_open : bool.

(** X26.  The sample layers of the two endpoints agree only when the
    table exists.  On an initialised manager with a connection in the
    pool: when the table of the layers exists and is empty, the layers
    that [HandleLayersRequest] lists are found by
    [HandleLayerInfoRequest] under their [id], with the same name, type
    and description; when the table is missing, so that neither
    statement can be prepared, the same three layers are listed and each
    of them is answered with LAYER_NOT_FOUND. *)
Theorem sample_layers_agreement (db : DatabaseManager.t)
    (all_rows : option (list (DatabaseManager.Row (D := D))))
    (row_of_id : string -> option (option (DatabaseManager.Row (D := D))))
    (layer : DatabaseManager.LayerInfo (D := D)) :
  DatabaseManager.m_initialized db = true ->
  DatabaseManager.m_connectionPool db <> [] ->
  (all_rows = Some [] /\ (forall layerId, row_of_id layerId = Some None)) \/
  (all_rows = None /\ (forall layerId, row_of_id layerId = None)) ->
  forall listed,
    fst (HandleLayersRequest can_open all_rows (Some db)) = LayersDocument listed ->
    In layer listed ->
    match all_rows with
    | Some _ =>
        exists found,
          fst (HandleLayerInfoRequest can_open row_of_id
                 (DatabaseManager.id layer) (Some db)) = LayersDocument [found] /\
          DatabaseManager.id found = DatabaseManager.id layer /\
          DatabaseManager.name found = DatabaseManager.name layer /\
          DatabaseManager.type found = DatabaseManager.type layer /\
          DatabaseManager.description found = DatabaseManager.description layer
    | None =>
        fst (HandleLayerInfoRequest can_open row_of_id
               (DatabaseManager.id layer) (Some db)) =
        LayersError "LAYER_NOT_FOUND"
          ("Layer '" +:+ DatabaseManager.id layer +:+ "' not found")
    end.
Proof.
  intros Hi Hp Hcase listed Hlisted Hin.
  destruct db as [size pool init next]. cbn in Hi, Hp. subst init.
  destruct pool as [| conn rest]; [contradiction |].
  assert (Hmock : listed = DatabaseManager.mock_layers).
  { destruct Hcase as [[-> _] | [-> _]]; cbn in Hlisted; congruence. }
  subst listed.
  unfold HandleLayerInfoRequest, DatabaseManager.GetLayerById.
  cbn [DatabaseManager.m_initialized negb DatabaseManager.GetConnection
       DatabaseManager.m_connectionPool].
  destruct Hcase as [[-> Hrow] | [-> Hrow]]; rewrite Hrow.
  - destruct Hin as [<- | [<- | [<- | []]]]; cbn;
      eexists; (split; [reflexivity |]); repeat split.
  - destruct Hin as [<- | [<- | [<- | []]]]; reflexivity.
Qed.

End LayerHandlerFacts.

Lemma sample_layers_agreement_witness :
  fst (HandleLayerInfoRequest (D := Q) true (fun _ => None) "roads"
         (Some (DatabaseManager.create true 1))) =
  LayersError "LAYER_NOT_FOUND" ("Layer '" +:+ "roads" +:+ "' not found").
Proof.
  assert (Hp : DatabaseManager.m_connectionPool (DatabaseManager.create true 1) <> [])
    by discriminate.
  exact (sample_layers_agreement (D := Q) true (DatabaseManager.create true 1)
           None (fun _ => None)
           (DatabaseManager.mkLayerInfo "roads" "Roads" "vector"
              "Road network including highways, streets, and paths"
              DatabaseManager.BoundingBox_default [])
           eq_refl Hp (or_intror (conj eq_refl (fun _ => eq_refl)))
           DatabaseManager.mock_layers eq_refl (or_introl eq_refl)).
Defined.

(** ** Bodies the parser misreads *)

Lemma GetJsonString_absent (strJson strKey : string) :
  find (json_needle strKey) strJson = None -> GetJsonString strJson strKey = "".
Proof. intros Hf. rewrite GetJsonString_span, Hf. reflexivity. Qed.

Lemma span_at_stop (stop : ascii -> bool) (s : string) (n : nat) (c : ascii) :
  String.get n s = Some c -> stop c = true -> span stop (string_drop n s) = "".
Proof.
  revert n. induction s as [| a s IH]; intros n Hget Hc.
  - destruct n; discriminate Hget.
  - destruct n as [| n].
    + cbn in Hget. injection Hget as ->. cbn. rewrite Hc. reflexivity.
    + cbn [string_drop]. apply (IH n); [exact Hget | exact Hc].
Qed.

Section BodyFacts.
Context {D : Type} `{DoubleArith D}.
Variable stod : string -> option D.
Variable read_bbox : string -> BoundingBox D -> BoundingBox D.
Variable EncodeToMemory : list Z -> Z -> Z -> option (list Z).
Variable fresh_encoder_error : string.

(** X27.  A body has to give the latitudes: when a body that is not
    empty holds neither the key [miny] nor the key [maxy] nor the key
    [bbox] (each between double quotes and followed by a colon), both
    latitudes are read as zero and the request is answered
    INVALID_REQUEST with the message of the invalid bounding box,
    whatever else the body holds.  (The empty body is the one exception:
    it is the request for the whole world.) *)
Theorem body_without_latitudes_is_rejected (strBody : string)
    (config : ServerConfig) (eng : RenderEngine) (fr : Frame) :
  d_ltb (d_of_int 0) (d_of_int 0) = false ->
  strBody <> "" ->
  find (json_needle "miny") strBody = None ->
  find (json_needle "maxy") strBody = None ->
  find (json_needle "bbox") strBody = None ->
  HandleGenerateBody stod read_bbox EncodeToMemory fresh_encoder_error
    strBody config eng fr =
  ErrorReply "INVALID_REQUEST"
    "Invalid bounding box. minX must be less than maxX and minY less than maxY".
Proof.
  intros Hirr Hne Hminy Hmaxy Hbbox.
  destruct strBody as [| c0 body]; [contradiction |].
  unfold HandleGenerateBody, ParseMapRequest, GetJsonDouble.
  rewrite (GetJsonString_absent _ "miny" Hminy),
    (GetJsonString_absent _ "maxy" Hmaxy),
    (GetJsonString_absent _ "bbox" Hbbox).
  cbv beta iota zeta. cbn [negb].
  unfold HandleGenerateRequest, ValidateMapRequestParameters.
  cbn [m_bbox]. unfold IsValid. cbn [m_dMinX m_dMaxX m_dMinY m_dMaxY].
  rewrite Hirr, andb_false_r. reflexivity.
Qed.

(** X28.  A background colour written as a JSON string is ignored: when
    the first occurrence of the key [background_color], between double
    quotes and followed by a colon, is followed at once by a double
    quote, the request is parsed with the background [#ffffff],
    whatever colour the string names. *)
Theorem quoted_background_is_ignored (strBody : string) (pos : nat) :
  find (json_needle "background_color") strBody = Some pos ->
  String.get (pos + 19) strBody = Some dquote ->
  m_strBackgroundColor
    (snd (ParseMapRequest stod read_bbox strBody MapRequest_default)) = "#ffffff".
Proof.
  intros Hfind Hget.
  assert (Hbg : GetJsonString strBody "background_color" = "").
  { rewrite GetJsonString_span, Hfind.
    change (pos + String.length "background_color" + 3)%nat with (pos + 16 + 3)%nat.
    replace (pos + 16 + 3)%nat with (pos + 19)%nat by lia.
    apply (span_at_stop is_json_delim strBody (pos + 19) dquote Hget). reflexivity. }
  destruct strBody as [| c0 body]; [discriminate Hfind |].
  unfold ParseMapRequest. cbv beta iota zeta. cbn [snd m_strBackgroundColor].
  rewrite Hbg. reflexivity.
Qed.

End BodyFacts.

Lemma body_without_latitudes_is_rejected_witness :
  HandleGenerateBody no_stod no_read_bbox identity_encoder ""
    ("{" +:+ json_needle "width" +:+ "256}") GetDefaultConfig default_engine
    empty_frame =
  ErrorReply "INVALID_REQUEST"
    "Invalid bounding box. minX must be less than maxX and minY less than maxY".
Proof.
  assert (Hne : "{" +:+ json_needle "width" +:+ "256}" <> "") by discriminate.
  exact (body_without_latitudes_is_rejected no_stod no_read_bbox identity_encoder ""
           ("{" +:+ json_needle "width" +:+ "256}") GetDefaultConfig default_engine
           empty_frame eq_refl Hne eq_refl eq_refl eq_refl).
Defined.

Lemma quoted_background_is_ignored_witness :
  m_strBackgroundColor
    (snd (ParseMapRequest no_stod no_read_bbox
            ("{" +:+ json_needle "background_color" +:+
             String dquote ("#ff0000" +:+ String dquote "}"))
            MapRequest_default)) = "#ffffff".
Proof.
  exact (quoted_background_is_ignored no_stod no_read_bbox
           ("{" +:+ json_needle "background_color" +:+
            String dquote ("#ff0000" +:+ String dquote "}"))
           1 eq_refl eq_refl).
Defined.

(** ** What the placeholder paints *)

Lemma writes_pixel (n : nat) (w y x r g b a : Z) :
  0 <= y <= INT_MAX -> 0 <= x < w -> w <= INT_MAX ->
  writes n tt (pixel_paint n w y x (r, g, b, a))
    (put_pixel (pixel_index y w x) r g b a).
Proof.
  intros Hy Hx Hw. destruct (pixel_index_plain y w x Hy Hx Hw) as [-> Hj].
  apply (writes_put n (y * w + x) r g b a Hj).
Qed.

Lemma writes_DrawFeatures {D} (n : nat) (style : LayerStyle) (w h : Z)
    (bbox : BoundingBox D) (r g b sr sg sb : Z) :
  0 < w <= INT_MAX -> 0 < h <= INT_MAX ->
  m_nStrokeWidth style <= 1073741824 ->
  style_rgb (m_strFillColor style) 255 0 0 = inl (r, g, b) ->
  style_rgb (m_strStrokeColor style) 0 0 0 = inl (sr, sg, sb) ->
  writes n true
    (placeholder_paint n w h (Z.max 1 (m_nStrokeWidth style))
       (r, g, b, to_uint8 (m_nOpacity style))
       (sr, sg, sb, to_uint8 (m_nOpacity style)))
    (DrawFeatures style w h bbox).
Proof.
  intros Hw Hh Hsw Hfill Hstroke.
  destruct (rect_bounds w Hw) as (Hsx & Hex & Hex').
  destruct (rect_bounds h Hh) as (Hsy & Hey & Hey').
  assert (Hqw : Z.quot w 2 <= 1073741823).
  { unfold INT_MAX in Hw. rewrite Z.quot_div_nonneg by lia.
    Z.div_mod_to_equations. lia. }
  assert (Hqh : Z.quot h 2 <= 1073741823).
  { unfold INT_MAX in Hh. rewrite Z.quot_div_nonneg by lia.
    Z.div_mod_to_equations. lia. }
  assert (Wrap : forall z, -2147483648 <= z <= 2147483647 -> int_wrap z = z).
  { intros z Hz. apply int_wrap_small. unfold INT_MIN, INT_MAX. lia. }
  unfold DrawFeatures, placeholder_paint. rewrite Hfill, Hstroke.
  set (a := to_uint8 (m_nOpacity style)).
  cbv zeta. fold (rect_start w) (rect_start h) (rect_end w) (rect_end h).
  unfold INT_MAX in Hw, Hh.
  apply writes_bind with (a := (r, g, b)); [apply writes_ret |].
  cbv beta iota.
  apply writes_bind with (a := tt).
  { apply writes_for_each. intros y Hy. apply in_int_range in Hy.
    apply writes_for_each. intros x Hx. apply in_int_range in Hx.
    apply writes_pixel; unfold INT_MAX; lia. }
  apply writes_bind with (a := (sr, sg, sb)); [apply writes_ret |].
  cbv beta iota.
  apply writes_bind with (a := tt).
  { apply writes_for_each. intros d Hd. apply in_int_range in Hd.
    rewrite Wrap by lia.
    destruct (rect_start h + d <? h) eqn:Hg; [| apply writes_ret].
    apply Z.ltb_lt in Hg.
    apply writes_for_each. intros x Hx. apply in_int_range in Hx.
    apply writes_pixel; unfold INT_MAX; lia. }
  apply writes_bind with (a := tt).
  { apply writes_for_each. intros d Hd. apply in_int_range in Hd.
    rewrite Wrap by lia.
    destruct (0 <=? rect_end h - d) eqn:Hg; [| apply writes_ret].
    apply Z.leb_le in Hg.
    apply writes_for_each. intros x Hx. apply in_int_range in Hx.
    apply writes_pixel; unfold INT_MAX; lia. }
  apply writes_bind with (a := tt).
  { apply writes_for_each. intros d Hd. apply in_int_range in Hd.
    rewrite Wrap by lia.
    destruct (rect_start w + d <? w) eqn:Hg; [| apply writes_ret].
    apply Z.ltb_lt in Hg.
    apply writes_for_each. intros y Hy. apply in_int_range in Hy.
    apply writes_pixel; unfold INT_MAX; lia. }
  apply writes_bind with (a := tt).
  { apply writes_for_each. intros d Hd. apply in_int_range in Hd.
    rewrite Wrap by lia.
    destruct (0 <=? rect_end w - d) eqn:Hg; [| apply writes_ret].
    apply Z.leb_le in Hg.
    apply writes_for_each. intros y Hy. apply in_int_range in Hy.
    apply writes_pixel; unfold INT_MAX; lia. }
  apply writes_ret.
Qed.

Section AtAPixel.
Variables (n : nat) (w h x y : Z).
Hypothesis Hn : Z.of_nat n = 4 * w * h.
Hypothesis Hx : 0 <= x < w.
Hypothesis Hy : 0 <= y < h.

Lemma pixel_paint_at (y' x' : Z) (col : colour) :
  0 <= x' < w -> 0 <= y' < h ->
  pixel_paint n w y' x' col (Z.to_nat (y * w + x)) =
  if (y' =? y) && (x' =? x) then Some col else None.
Proof.
  intros Hx' Hy'. unfold pixel_paint.
  assert (0 <= y * w) by nia. assert (0 <= y' * w) by nia.
  assert (Hg : (4 * (y' * w + x') + 3 <? Z.of_nat n) = true).
  { apply Z.ltb_lt. nia. }
  rewrite Hg, andb_true_r.
  destruct (Nat.eqb_spec (Z.to_nat (y * w + x)) (Z.to_nat (y' * w + x'))) as [Heq | Hne].
  - apply Z2Nat.inj in Heq; try lia.
    assert (y' = y) by nia. subst y'. assert (x' = x) by lia. subst x'.
    rewrite !Z.eqb_refl. reflexivity.
  - destruct (Z.eqb_spec y' y) as [-> |]; [| reflexivity].
    destruct (Z.eqb_spec x' x) as [-> |]; [| reflexivity].
    contradiction Hne. reflexivity.
Qed.

Lemma row_paint_at (lo hi y' : Z) (col : colour) :
  0 <= lo -> hi < w -> 0 <= y' < h ->
  row_paint n w (int_range lo hi) y' col (Z.to_nat (y * w + x)) =
  if (y' =? y) && (lo <=? x) && (x <=? hi) then Some col else None.
Proof.
  intros Hlo Hhi Hy'. unfold row_paint.
  destruct ((y' =? y) && (lo <=? x) && (x <=? hi)) eqn:Hc.
  - apply (loop_paint_one _ _ _ _ x).
    + intros x' c' Hin Hp. apply in_int_range in Hin.
      rewrite pixel_paint_at in Hp by lia.
      destruct ((y' =? y) && (x' =? x)); [congruence | discriminate Hp].
    + apply int_range_in. lia.
    + rewrite pixel_paint_at by lia.
      replace ((y' =? y) && (x =? x)) with true by lia. discriminate.
  - apply loop_paint_none. intros x' Hin. apply in_int_range in Hin.
    rewrite pixel_paint_at by lia.
    replace ((y' =? y) && (x' =? x)) with false by lia. reflexivity.
Qed.

Lemma col_paint_at (lo hi x' : Z) (col : colour) :
  0 <= lo -> hi < h -> 0 <= x' < w ->
  col_paint n w (int_range lo hi) x' col (Z.to_nat (y * w + x)) =
  if (x' =? x) && (lo <=? y) && (y <=? hi) then Some col else None.
Proof.
  intros Hlo Hhi Hx'. unfold col_paint.
  destruct ((x' =? x) && (lo <=? y) && (y <=? hi)) eqn:Hc.
  - apply (loop_paint_one _ _ _ _ y).
    + intros y' c' Hin Hp. apply in_int_range in Hin.
      rewrite pixel_paint_at in Hp by lia.
      destruct ((y' =? y) && (x' =? x)); [congruence | discriminate Hp].
    + apply int_range_in. lia.
    + rewrite pixel_paint_at by lia.
      replace ((y =? y) && (x' =? x)) with true by lia. discriminate.
  - apply loop_paint_none. intros y' Hin. apply in_int_range in Hin.
    rewrite pixel_paint_at by lia.
    replace ((y' =? y) && (x' =? x)) with false by lia. reflexivity.
Qed.

(** A loop whose turns paint the pixel in [col] or not at all. *)
Lemma loop_paint_if {A} (l : list A) (P : A -> nat -> option colour)
    (hit : A -> bool) (col : colour) (q : nat) :
  (forall a, In a l -> P a q = if hit a then Some col else None) ->
  loop_paint l P q = if existsb hit l then Some col else None.
Proof.
  intros HP. destruct (existsb hit l) eqn:He.
  - apply existsb_exists in He as (a & Hin & Ha).
    apply (loop_paint_one _ _ _ _ a).
    + intros a' c' Hin' Hp. rewrite (HP a' Hin') in Hp.
      destruct (hit a'); [congruence | discriminate Hp].
    + exact Hin.
    + rewrite (HP a Hin), Ha. discriminate.
  - apply loop_paint_none. intros a Hin. rewrite (HP a Hin).
    destruct (hit a) eqn:Ha; [| reflexivity].
    assert (Hex : existsb hit l = true) by (apply existsb_exists; eauto).
    congruence.
Qed.

Lemma existsb_range (lo hi : Z) (hit : Z -> bool) (b : bool) :
  (b = true <-> exists d, lo <= d <= hi /\ hit d = true) ->
  existsb hit (int_range lo hi) = b.
Proof.
  intros Hb. destruct b.
  - apply existsb_exists. destruct (proj1 Hb eq_refl) as (d & Hd & Hh).
    exists d. split; [apply int_range_in; exact Hd | exact Hh].
  - destruct (existsb hit (int_range lo hi)) eqn:He; [| reflexivity].
    apply existsb_exists in He as (d & Hin & Hh). apply in_int_range in Hin.
    symmetry. apply Hb. exists d. split; assumption.
Qed.

(** The pixel of the rectangle at [(x, y)] after the placeholder. *)
Lemma placeholder_paint_at (sw : Z) (fill stroke : colour) :
  0 < w <= INT_MAX -> 0 < h <= INT_MAX -> 1 <= sw ->
  rect_start w <= x <= rect_end w -> rect_start h <= y <= rect_end h ->
  placeholder_paint n w h sw fill stroke (Z.to_nat (y * w + x)) =
  Some (placeholder_colour w h sw x y fill stroke).
Proof.
  intros Hw Hh Hsw Hcol Hrow.
  destruct (rect_bounds w Hw) as (Hsx & Hex & Hex').
  destruct (rect_bounds h Hh) as (Hsy & Hey & Hey').
  unfold placeholder_paint. cbv zeta.
  set (q := Z.to_nat (y * w + x)).
  assert (Hinside :
    loop_paint (int_range (rect_start h) (rect_end h))
      (fun y0 => row_paint n w (int_range (rect_start w) (rect_end w)) y0 fill) q =
    Some fill).
  { rewrite (loop_paint_if _ _ (fun y0 => y0 =? y) fill).
    - rewrite (existsb_range _ _ _ true); [reflexivity |].
      split; [| reflexivity]. intros _. exists y. split; [lia | apply Z.eqb_refl].
    - intros y0 Hin. apply in_int_range in Hin. unfold q.
      rewrite row_paint_at by lia.
      destruct (y0 =? y); [| reflexivity]. cbn [andb].
      replace ((rect_start w <=? x) && (x <=? rect_end w)) with true by lia.
      reflexivity. }
  assert (Htop :
    loop_paint (int_range 0 (sw - 1))
      (fun d => if rect_start h + d <? h
                then row_paint n w (int_range (rect_start w) (rect_end w))
                       (rect_start h + d) stroke
                else none_paint) q =
    if y <? rect_start h + sw then Some stroke else None).
  { rewrite (loop_paint_if _ _ (fun d => rect_start h + d =? y) stroke).
    - rewrite (existsb_range _ _ _ (y <? rect_start h + sw)); [reflexivity |].
      rewrite Z.ltb_lt. split.
      + intros Hlt. exists (y - rect_start h). split; [lia | apply Z.eqb_eq; lia].
      + intros (d & Hd & Heq). apply Z.eqb_eq in Heq. lia.
    - intros d Hin. apply in_int_range in Hin. unfold q.
      destruct (rect_start h + d <? h) eqn:Hg.
      + apply Z.ltb_lt in Hg. rewrite row_paint_at by lia.
        destruct (rect_start h + d =? y); [| reflexivity]. cbn [andb].
        replace ((rect_start w <=? x) && (x <=? rect_end w)) with true by lia.
        reflexivity.
      + apply Z.ltb_ge in Hg. unfold none_paint.
        replace (rect_start h + d =? y) with false by lia. reflexivity. }
  assert (Hbottom :
    loop_paint (int_range 0 (sw - 1))
      (fun d => if 0 <=? rect_end h - d
                then row_paint n w (int_range (rect_start w) (rect_end w))
                       (rect_end h - d) stroke
                else none_paint) q =
    if rect_end h - sw <? y then Some stroke else None).
  { rewrite (loop_paint_if _ _ (fun d => rect_end h - d =? y) stroke).
    - rewrite (existsb_range _ _ _ (rect_end h - sw <? y)); [reflexivity |].
      rewrite Z.ltb_lt. split.
      + intros Hlt. exists (rect_end h - y). split; [lia | apply Z.eqb_eq; lia].
      + intros (d & Hd & Heq). apply Z.eqb_eq in Heq. lia.
    - intros d Hin. apply in_int_range in Hin. unfold q.
      destruct (0 <=? rect_end h - d) eqn:Hg.
      + apply Z.leb_le in Hg. rewrite row_paint_at by lia.
        destruct (rect_end h - d =? y); [| reflexivity]. cbn [andb].
        replace ((rect_start w <=? x) && (x <=? rect_end w)) with true by lia.
        reflexivity.
      + apply Z.leb_gt in Hg. unfold none_paint.
        replace (rect_end h - d =? y) with false by lia. reflexivity. }
  assert (Hleft :
    loop_paint (int_range 0 (sw - 1))
      (fun d => if rect_start w + d <? w
                then col_paint n w (int_range (rect_start h) (rect_end h))
                       (rect_start w + d) stroke
                else none_paint) q =
    if x <? rect_start w + sw then Some stroke else None).
  { rewrite (loop_paint_if _ _ (fun d => rect_start w + d =? x) stroke).
    - rewrite (existsb_range _ _ _ (x <? rect_start w + sw)); [reflexivity |].
      rewrite Z.ltb_lt. split.
      + intros Hlt. exists (x - rect_start w). split; [lia | apply Z.eqb_eq; lia].
      + intros (d & Hd & Heq). apply Z.eqb_eq in Heq. lia.
    - intros d Hin. apply in_int_range in Hin. unfold q.
      destruct (rect_start w + d <? w) eqn:Hg.
      + apply Z.ltb_lt in Hg. rewrite col_paint_at by lia.
        destruct (rect_start w + d =? x); [| reflexivity]. cbn [andb].
        replace ((rect_start h <=? y) && (y <=? rect_end h)) with true by lia.
        reflexivity.
      + apply Z.ltb_ge in Hg. unfold none_paint.
        replace (rect_start w + d =? x) with false by lia. reflexivity. }
  assert (Hright :
    loop_paint (int_range 0 (sw - 1))
      (fun d => if 0 <=? rect_end w - d
                then col_paint n w (int_range (rect_start h) (rect_end h))
                       (rect_end w - d) stroke
                else none_paint) q =
    if rect_end w - sw <? x then Some stroke else None).
  { rewrite (loop_paint_if _ _ (fun d => rect_end w - d =? x) stroke).
    - rewrite (existsb_range _ _ _ (rect_end w - sw <? x)); [reflexivity |].
      rewrite Z.ltb_lt. split.
      + intros Hlt. exists (rect_end w - x). split; [lia | apply Z.eqb_eq; lia].
      + intros (d & Hd & Heq). apply Z.eqb_eq in Heq. lia.
    - intros d Hin. apply in_int_range in Hin. unfold q.
      destruct (0 <=? rect_end w - d) eqn:Hg.
      + apply Z.leb_le in Hg. rewrite col_paint_at by lia.
        destruct (rect_end w - d =? x); [| reflexivity]. cbn [andb].
        replace ((rect_start h <=? y) && (y <=? rect_end h)) with true by lia.
        reflexivity.
      + apply Z.leb_gt in Hg. unfold none_paint.
        replace (rect_end w - d =? x) with false by lia. reflexivity. }
  unfold over. rewrite Hright, Hleft, Hbottom, Htop, Hinside.
  unfold none_paint, placeholder_colour.
  destruct (rect_end w - sw <? x) eqn:E1;
    [replace ((rect_start w + sw <=? x) && (x <=? rect_end w - sw) &&
              (rect_start h + sw <=? y) && (y <=? rect_end h - sw)) with false by lia;
     reflexivity |].
  destruct (x <? rect_start w + sw) eqn:E2;
    [replace ((rect_start w + sw <=? x) && (x <=? rect_end w - sw) &&
              (rect_start h + sw <=? y) && (y <=? rect_end h - sw)) with false by lia;
     reflexivity |].
  destruct (rect_end h - sw <? y) eqn:E3;
    [replace ((rect_start w + sw <=? x) && (x <=? rect_end w - sw) &&
              (rect_start h + sw <=? y) && (y <=? rect_end h - sw)) with false by lia;
     reflexivity |].
  destruct (y <? rect_start h + sw) eqn:E4;
    [replace ((rect_start w + sw <=? x) && (x <=? rect_end w - sw) &&
              (rect_start h + sw <=? y) && (y <=? rect_end h - sw)) with false by lia;
     reflexivity |].
  replace ((rect_start w + sw <=? x) && (x <=? rect_end w - sw) &&
           (rect_start h + sw <=? y) && (y <=? rect_end h - sw)) with true by lia.
  reflexivity.
Qed.

End AtAPixel.

Lemma repaint_pixel (P : nat -> option colour) (img : list Z) (p k : nat)
    (col : colour) :
  (4 * p + k < length img)%nat -> (k < 4)%nat -> P p = Some col ->
  repaint P img !! (4 * p + k)%nat = Some (channel col k).
Proof.
  intros Hlen Hk HP. rewrite repaint_lookup.
  assert (Hdiv : ((4 * p + k) / 4 = p)%nat).
  { symmetry. apply (Nat.div_unique _ 4 p k); lia. }
  assert (Hmod : ((4 * p + k) mod 4 = k)%nat).
  { symmetry. apply (Nat.mod_unique _ 4 p k); lia. }
  rewrite Hdiv, Hmod, HP.
  destruct (lookup_lt_is_Some_2 img (4 * p + k) Hlen) as [v ->]. reflexivity.
Qed.

Lemma paint_rectangle {D} (style : LayerStyle) (w h : Z) (bbox : BoundingBox D)
    (img : list Z) (r g b sr sg sb x y : Z) (k : nat) :
  0 < w <= INT_MAX -> 0 < h <= INT_MAX ->
  m_nStrokeWidth style <= 1073741824 ->
  Z.of_nat (length img) = 4 * w * h ->
  style_rgb (m_strFillColor style) 255 0 0 = inl (r, g, b) ->
  style_rgb (m_strStrokeColor style) 0 0 0 = inl (sr, sg, sb) ->
  rect_start w <= x <= rect_end w -> rect_start h <= y <= rect_end h ->
  (k < 4)%nat ->
  paint w h bbox img style !! (Z.to_nat (4 * (y * w + x)) + k)%nat =
  Some (channel
          (placeholder_colour w h (Z.max 1 (m_nStrokeWidth style)) x y
             (r, g, b, to_uint8 (m_nOpacity style))
             (sr, sg, sb, to_uint8 (m_nOpacity style))) k).
Proof.
  intros Hw Hh Hsw Hlen Hfill Hstroke Hx Hy Hk.
  destruct (rect_bounds w Hw) as (Hsx & Hex & _).
  destruct (rect_bounds h Hh) as (Hsy & Hey & _).
  unfold paint.
  rewrite (writes_DrawFeatures (length img) style w h bbox r g b sr sg sb
             Hw Hh Hsw Hfill Hstroke "" img eq_refl).
  cbn [snd vecImageData].
  assert (0 <= y * w) by nia.
  replace (Z.to_nat (4 * (y * w + x))) with (4 * Z.to_nat (y * w + x))%nat by lia.
  apply repaint_pixel; [nia | exact Hk |].
  apply (placeholder_paint_at (length img) w h x y Hlen); try lia; assumption.
Qed.

(** X29.  What the placeholder looks like: on a buffer of
    [4 * w * h] bytes, with positive [int] dimensions, colours that
    parse and a stroke of at most 2^30 pixels, [DrawFeatures] returns
    [true], keeps the error string, and leaves every pixel of its
    rectangle in the stroke colour when it lies within the stroke width
    (at least one pixel) of an edge of the rectangle and in the fill
    colour otherwise, each with the opacity of the style as alpha. *)
Theorem placeholder_pixels {D} (style : LayerStyle) (w h : Z) (bbox : BoundingBox D)
    (fr : Frame) (r g b sr sg sb x y : Z) (k : nat) :
  0 < w <= INT_MAX -> 0 < h <= INT_MAX ->
  m_nStrokeWidth style <= 1073741824 ->
  Z.of_nat (length (vecImageData fr)) = 4 * w * h ->
  style_rgb (m_strFillColor style) 255 0 0 = inl (r, g, b) ->
  style_rgb (m_strStrokeColor style) 0 0 0 = inl (sr, sg, sb) ->
  rect_start w <= x <= rect_end w -> rect_start h <= y <= rect_end h ->
  (k < 4)%nat ->
  fst (DrawFeatures style w h bbox fr) = inl true /\
  m_strError (snd (DrawFeatures style w h bbox fr)) = m_strError fr /\
  vecImageData (snd (DrawFeatures style w h bbox fr))
    !! (Z.to_nat (4 * (y * w + x)) + k)%nat =
  Some (channel
          (placeholder_colour w h (Z.max 1 (m_nStrokeWidth style)) x y
             (r, g, b, to_uint8 (m_nOpacity style))
             (sr, sg, sb, to_uint8 (m_nOpacity style))) k).
Proof.
  intros Hw Hh Hsw Hlen Hfill Hstroke Hx Hy Hk.
  destruct fr as [e img]. cbn [vecImageData m_strError] in *.
  pose proof (paint_rectangle style w h bbox img r g b sr sg sb x y k
                Hw Hh Hsw Hlen Hfill Hstroke Hx Hy Hk) as Hpix.
  unfold paint in Hpix.
  pose proof (writes_DrawFeatures (length img) style w h bbox r g b sr sg sb
                Hw Hh Hsw Hfill Hstroke) as Hrun.
  rewrite (Hrun "" img eq_refl) in Hpix. rewrite (Hrun e img eq_refl).
  cbn [fst snd vecImageData m_strError] in *.
  split; [reflexivity |]. split; [reflexivity | exact Hpix].
Qed.

Lemma placeholder_pixels_witness :
  fst (DrawFeatures (filled_with "#112233") 8 8 small_box
         (mkFrame "" (blank_image 8 8 "#ffffff"))) = inl true /\
  m_strError (snd (DrawFeatures (filled_with "#112233") 8 8 small_box
                     (mkFrame "" (blank_image 8 8 "#ffffff")))) =
    m_strError (mkFrame "" (blank_image 8 8 "#ffffff")) /\
  vecImageData (snd (DrawFeatures (filled_with "#112233") 8 8 small_box
                       (mkFrame "" (blank_image 8 8 "#ffffff"))))
    !! (Z.to_nat (4 * (4 * 8 + 4)) + 0)%nat =
  Some (channel
          (placeholder_colour 8 8 (Z.max 1 (m_nStrokeWidth (filled_with "#112233")))
             4 4
             (17, 34, 51, to_uint8 (m_nOpacity (filled_with "#112233")))
             (0, 0, 0, to_uint8 (m_nOpacity (filled_with "#112233")))) 0).
Proof.
  assert (H8 : 0 < 8 <= INT_MAX) by (unfold INT_MAX; lia).
  assert (Hsw : m_nStrokeWidth (filled_with "#112233") <= 1073741824)
    by (cbn; lia).
  assert (Hlen : Z.of_nat (length (vecImageData (mkFrame "" (blank_image 8 8 "#ffffff")))) =
                 4 * 8 * 8) by reflexivity.
  assert (Hin : rect_start 8 <= 4 <= rect_end 8) by (vm_compute; split; discriminate).
  assert (Hk : (0 < 4)%nat) by lia.
  exact (placeholder_pixels (filled_with "#112233") 8 8 small_box
           (mkFrame "" (blank_image 8 8 "#ffffff")) 17 34 51 0 0 0 4 4 0
           H8 H8 Hsw Hlen eq_refl eq_refl Hin Hin Hk).
Defined.

Lemma paint_length {D} (style : LayerStyle) (w h : Z) (bbox : BoundingBox D)
    (img : list Z) :
  style_ok style = true -> length (paint w h bbox img style) = length img.
Proof.
  intros Hok.
  destruct (draws_DrawFeatures false style w h bbox (fun _ => Hok) img)
    as (r & img' & Hlen & Hrun & _).
  unfold paint. rewrite (Hrun ""). exact Hlen.
Qed.

Lemma fold_paint_length {D} (w h : Z) (bbox : BoundingBox D) (styles : list LayerStyle)
    (img : list Z) :
  Forall (fun st => style_ok st = true) styles ->
  length (fold_left (paint w h bbox) styles img) = length img.
Proof.
  intros Hok. revert img. induction Hok as [| st styles Hst _ IH]; intros img.
  - reflexivity.
  - cbn [fold_left]. rewrite IH. apply paint_length. exact Hst.
Qed.

Section Rectangle.
Context {D : Type} `{DoubleArith D}.
Variable EncodeToMemory : list Z -> Z -> Z -> option (list Z).
Variable fresh_encoder_error : string.

(** X30.  What a rendered image shows in the rectangle: when a request
    passes the checks of [RenderMap], its colours parse and the style
    drawn last (the style of the last layer, or the default style of a
    request without layers) has a stroke width of at most 2^30, every
    pixel of the placeholder rectangle in the buffer handed to the
    encoder has the colours of that style: its stroke colour within the
    stroke width of an edge and its fill colour further inside, with its
    opacity as alpha, whatever the layers before it drew. *)
Theorem rendered_rectangle (eng : RenderEngine) (request : MapRequest D)
    (fr : Frame) (r g b sr sg sb x y : Z) (k : nat) :
  passes_render_checks eng request ->
  parses (background_rgba (m_strBackgroundColor request)) = true ->
  Forall (fun st => style_ok st = true) (styles_of request) ->
  let style := List.last (styles_of request) defaultStyle in
  m_nStrokeWidth style <= 1073741824 ->
  style_rgb (m_strFillColor style) 255 0 0 = inl (r, g, b) ->
  style_rgb (m_strStrokeColor style) 0 0 0 = inl (sr, sg, sb) ->
  rect_start (m_nWidth request) <= x <= rect_end (m_nWidth request) ->
  rect_start (m_nHeight request) <= y <= rect_end (m_nHeight request) ->
  (k < 4)%nat ->
  vecImageData (snd (RenderMap EncodeToMemory fresh_encoder_error eng request fr))
    !! (Z.to_nat (4 * (y * m_nWidth request + x)) + k)%nat =
  Some (channel
          (placeholder_colour (m_nWidth request) (m_nHeight request)
             (Z.max 1 (m_nStrokeWidth style)) x y
             (r, g, b, to_uint8 (m_nOpacity style))
             (sr, sg, sb, to_uint8 (m_nOpacity style))) k).
Proof.
  intros Hchk Hbg Hok style Hsw Hfill Hstroke Hx Hy Hk.
  rewrite (RenderMap_run EncodeToMemory fresh_encoder_error eng request fr
             Hchk Hbg Hok).
  destruct Hchk as (_ & _ & Hw & Hh & Hmw & Hmh).
  set (image := fold_left _ _ _).
  assert (Himg : image !! (Z.to_nat (4 * (y * m_nWidth request + x)) + k)%nat =
    Some (channel
            (placeholder_colour (m_nWidth request) (m_nHeight request)
               (Z.max 1 (m_nStrokeWidth style)) x y
               (r, g, b, to_uint8 (m_nOpacity style))
               (sr, sg, sb, to_uint8 (m_nOpacity style))) k)).
  { unfold image.
    assert (Hne : styles_of request <> []).
    { unfold styles_of. destruct (m_vecLayers request); discriminate. }
    destruct (exists_last Hne) as (before & st & Hsplit).
    assert (Hlast : style = st).
    { unfold style. rewrite Hsplit. apply last_last. }
    rewrite Hsplit in Hok |- *. rewrite fold_left_app. cbn [fold_left].
    apply Forall_app in Hok as [Hbefore _].
    rewrite <- Hlast.
    apply paint_rectangle; try assumption; try lia.
    rewrite (fold_paint_length _ _ _ _ _ Hbefore).
    unfold blank_image.
    destruct (background_rgba (m_strBackgroundColor request))
      as [[[[r0 g0] b0] a0] |]; [| discriminate Hbg].
    rewrite length_pixels. nia. }
  destruct (EncodeToMemory image _ _); cbn [snd vecImageData]; exact Himg.
Qed.

End Rectangle.

Lemma rendered_rectangle_witness :
  styles_of two_layer_request = [LayerStyle_default; filled_with "#112233"] /\
  vecImageData (snd (RenderMap identity_encoder "" default_engine two_layer_request
                       empty_frame))
    !! (Z.to_nat (4 * (4 * m_nWidth two_layer_request + 4)) + 1)%nat =
  Some (channel
          (placeholder_colour (m_nWidth two_layer_request) (m_nHeight two_layer_request)
             (Z.max 1 (m_nStrokeWidth
                         (List.last (styles_of two_layer_request) defaultStyle))) 4 4
             (17, 34, 51,
              to_uint8 (m_nOpacity (List.last (styles_of two_layer_request) defaultStyle)))
             (0, 0, 0,
              to_uint8 (m_nOpacity (List.last (styles_of two_layer_request) defaultStyle))))
          1).
Proof.
  assert (Hchk : passes_render_checks default_engine two_layer_request).
  { unfold passes_render_checks, INT_MAX. simpl. repeat split; lia. }
  assert (Hok : Forall (fun st => style_ok st = true) (styles_of two_layer_request)).
  { repeat constructor. }
  assert (Hsw : m_nStrokeWidth (List.last (styles_of two_layer_request) defaultStyle)
                <= 1073741824) by (vm_compute; discriminate).
  assert (Hin : rect_start 8 <= 4 <= rect_end 8) by (vm_compute; split; discriminate).
  assert (Hk : (1 < 4)%nat) by lia.
  split; [reflexivity |].
  exact (rendered_rectangle identity_encoder "" default_engine two_layer_request
           empty_frame 17 34 51 0 0 0 4 4 1 Hchk eq_refl Hok Hsw eq_refl eq_refl
           Hin Hin Hk).
Defined.

(** * Colours that do not convert *)

Lemma substring_one (hex : string) (pos : nat) :
  substring pos 1 hex =
  match String.get pos hex with Some c => String c "" | None => "" end.
Proof.
  revert pos. induction hex as [| c hex IH]; intros [| pos]; simpl; try reflexivity.
  - destruct hex; reflexivity.
  - apply IH.
Qed.

Lemma substring_two (hex : string) (pos : nat) (c1 : ascii) :
  String.get pos hex = Some c1 ->
  substring pos 2 hex =
  String c1 match String.get (S pos) hex with Some c2 => String c2 "" | None => "" end.
Proof.
  revert pos. induction hex as [| c hex IH]; intros [| pos]; simpl; try discriminate.
  - intros [= ->]. f_equal. rewrite (substring_one hex 0).
    destruct hex; reflexivity.
  - intros Hg. rewrite (IH pos Hg). reflexivity.
Qed.

Lemma hex_channel_two (hex : string) (pos : nat) (c1 c2 : ascii) :
  String.get pos hex = Some c1 -> String.get (S pos) hex = Some c2 ->
  hex_channel hex pos = hex_channel (String c1 (String c2 "")) 0.
Proof.
  intros H1 H2. unfold hex_channel. rewrite (substring_two hex pos c1 H1), H2.
  reflexivity.
Qed.

(** A channel that does not start a number throws, whatever follows. *)
Lemma hex_channel_malformed (hex : string) (pos : nat) (c1 : ascii) :
  String.get pos hex = Some c1 -> starts_number c1 = false ->
  hex_channel hex pos = inr std_invalid_argument.
Proof.
  intros H1 Hs. unfold starts_number in Hs.
  apply orb_false_elim in Hs as [Hs P1]. apply orb_false_elim in Hs as [Hs M1].
  apply orb_false_elim in Hs as [X1 S1].
  destruct (String.get (S pos) hex) as [c2 |] eqn:H2.
  - rewrite (hex_channel_two hex pos c1 c2 H1 H2).
    apply hex_channel_throws; assumption.
  - unfold hex_channel. rewrite (substring_two hex pos c1 H1), H2.
    unfold stoi16. simpl list_ascii_of_string. simpl skip_space. rewrite S1.
    rewrite M1, P1. rewrite X1. reflexivity.
Qed.

Lemma hex_run_bound (s : list ascii) (acc : Z) :
  0 <= acc -> 0 <= hex_run acc s < (acc + 1) * 16 ^ Z.of_nat (length s).
Proof.
  revert acc. induction s as [| c s IH]; intros acc Hacc.
  - simpl. lia.
  - cbn [hex_run length]. rewrite Nat2Z.inj_succ, Z.pow_succ_r by lia.
    assert (0 < 16 ^ Z.of_nat (length s)) by (apply Z.pow_pos_nonneg; lia).
    destruct (hex_digit c) as [d |] eqn:Hd.
    + destruct (hex_digit_facts c d Hd) as (Rd & _).
      specialize (IH (16 * acc + d) ltac:(lia)). nia.
    + nia.
Qed.

Lemma skip_space_length (s : list ascii) : (length (skip_space s) <= length s)%nat.
Proof.
  induction s as [| c s IH]; simpl; [lia |].
  destruct (isspace c); simpl; lia.
Qed.

(** A conversion of at most seven characters stays within [int]. *)
Lemma stoi16_short (s : string) (e : exn) :
  (String.length s <= 7)%nat -> stoi16 s = inr e -> e = std_invalid_argument.
Proof.
  intros Hlen. unfold stoi16.
  assert (Hl : (length (list_ascii_of_string s) <= 7)%nat).
  { clear e. revert Hlen. generalize 7%nat. induction s as [| c s IH]; intros n Hn;
      simpl in *; [lia |]. destruct n; [lia |]. specialize (IH n). lia. }
  pose proof (skip_space_length (list_ascii_of_string s)) as Hs.
  set (s1 := skip_space (list_ascii_of_string s)) in *.
  assert (H1 : (length s1 <= 7)%nat) by lia. clearbody s1. clear Hs Hl Hlen.
  assert (Hfinal : forall (neg : bool) (s3 : list ascii), (length s3 <= 7)%nat ->
            match s3 with
            | c :: _ =>
                if is_hex c then
                  let v := if neg then - hex_run 0 s3 else hex_run 0 s3 in
                  if (INT_MIN <=? v) && (v <=? INT_MAX) then inl v
                  else inr std_out_of_range
                else inr std_invalid_argument
            | [] => inr std_invalid_argument
            end = inr e -> e = std_invalid_argument).
  { intros neg s3 H3. destruct s3 as [| c t]; [congruence |].
    destruct (is_hex c); [| congruence].
    pose proof (hex_run_bound (c :: t) 0 ltac:(lia)) as Hb.
    assert (16 ^ Z.of_nat (length (c :: t)) <= 16 ^ 7)
      by (apply Z.pow_le_mono_r; lia).
    change (16 ^ 7) with 268435456 in *. cbv zeta.
    unfold INT_MIN, INT_MAX.
    destruct neg.
    - destruct (Z.leb_spec (-2147483648) (- hex_run 0 (c :: t))); [| lia].
      destruct (Z.leb_spec (- hex_run 0 (c :: t)) 2147483647); [| lia].
      discriminate.
    - destruct (Z.leb_spec (-2147483648) (hex_run 0 (c :: t))); [| lia].
      destruct (Z.leb_spec (hex_run 0 (c :: t)) 2147483647); [| lia].
      discriminate. }
  assert (Hprefix : forall (neg : bool) (s2 : list ascii), (length s2 <= 7)%nat ->
            match
              match s2 with
              | z :: x :: h :: t =>
                  if (code z =? 48) && ((code x =? 120) || (code x =? 88)) && is_hex h
                  then h :: t else s2
              | _ => s2
              end
            with
            | c :: _ =>
                if is_hex c then
                  let v := if neg
                           then - hex_run 0
                                    match s2 with
                                    | z :: x :: h :: t =>
                                        if (code z =? 48) &&
                                           ((code x =? 120) || (code x =? 88)) && is_hex h
                                        then h :: t else s2
                                    | _ => s2
                                    end
                           else hex_run 0
                                  match s2 with
                                  | z :: x :: h :: t =>
                                      if (code z =? 48) &&
                                         ((code x =? 120) || (code x =? 88)) && is_hex h
                                      then h :: t else s2
                                  | _ => s2
                                  end in
                  if (INT_MIN <=? v) && (v <=? INT_MAX) then inl v
                  else inr std_out_of_range
                else inr std_invalid_argument
            | [] => inr std_invalid_argument
            end = inr e -> e = std_invalid_argument).
  { intros neg s2 H2.
    destruct s2 as [| z [| x [| h t]]]; try (intros He; exact (Hfinal neg _ H2 He)).
    destruct ((code z =? 48) && ((code x =? 120) || (code x =? 88)) && is_hex h);
      intros He;
      [refine (Hfinal neg (h :: t) _ He) | refine (Hfinal neg (z :: x :: h :: t) _ He)];
      simpl in *; lia. }
  destruct s1 as [| c t]; [intros He; refine (Hprefix false [] _ He); simpl; lia |].
  destruct (code c =? 45); [intros He; refine (Hprefix true t _ He); simpl in *; lia |].
  destruct (code c =? 43); intros He;
    [refine (Hprefix false t _ He) | refine (Hprefix false (c :: t) _ He)];
    simpl in *; lia.
Qed.

Lemma length_substring (s : string) (n m : nat) :
  (String.length (substring n m s) <= m)%nat.
Proof.
  revert n m. induction s as [| c s IH]; intros [| n] [| m]; simpl; try lia.
  - specialize (IH 0%nat m). lia.
  - apply (IH n 0%nat).
  - apply (IH n (S m)).
Qed.

(** The only exception a channel throws is [std::invalid_argument]. *)
Lemma hex_channel_exn (hex : string) (pos : nat) (e : exn) :
  hex_channel hex pos = inr e -> e = std_invalid_argument.
Proof.
  unfold hex_channel. intros He.
  destruct (stoi16 (substring pos 2 hex)) as [v | e'] eqn:Hs; [discriminate |].
  injection He as <-. apply (stoi16_short (substring pos 2 hex)); [| exact Hs].
  pose proof (length_substring hex pos 2). lia.
Qed.

(** A channel that throws ends the parse of a background colour, whichever
    of the channels read it is. *)
Lemma background_rgba_malformed (hex : string) (pos : nat) :
  (strlen hex = 6 /\ In pos [0; 2; 4]%nat) \/
  (strlen hex = 8 /\ In pos [0; 2; 4; 6]%nat) ->
  parses (hex_channel hex pos) = false ->
  background_rgba (String "#" hex) = inr std_invalid_argument.
Proof.
  intros Hpos Hbad. unfold background_rgba.
  cbn [substr1 starts_with_hash]. change (code "#" =? 35) with true.
  assert (Hlen : (strlen hex =? 6) || (strlen hex =? 8) = true).
  { apply orb_true_iff. destruct Hpos as [[-> _] | [-> _]]; [left | right]; reflexivity. }
  rewrite Hlen. cbn [andb].
  destruct (hex_channel hex 0) as [r | e] eqn:E0;
    [| rewrite (hex_channel_exn hex 0 e E0); reflexivity].
  destruct (hex_channel hex 2) as [g | e] eqn:E2;
    [| rewrite (hex_channel_exn hex 2 e E2); reflexivity].
  destruct (hex_channel hex 4) as [b | e] eqn:E4;
    [| rewrite (hex_channel_exn hex 4 e E4); reflexivity].
  destruct Hpos as [[H6 Hin] | [H8 Hin]].
  - exfalso. simpl in Hin.
    destruct Hin as [<- | [<- | [<- | []]]]; rewrite ?E0, ?E2, ?E4 in Hbad;
      discriminate Hbad.
  - rewrite H8. change (8 =? 8) with true. cbv iota.
    destruct (hex_channel hex 6) as [a | e] eqn:E6;
      [| rewrite (hex_channel_exn hex 6 e E6); reflexivity].
    exfalso. simpl in Hin.
    destruct Hin as [<- | [<- | [<- | [<- | []]]]]; rewrite ?E0, ?E2, ?E4, ?E6 in Hbad;
      discriminate Hbad.
Qed.

(** The same for a colour of a style. *)
Lemma style_rgb_malformed (hex : string) (pos : nat) (r0 g0 b0 : Z) :
  6 <= strlen hex -> In pos [0; 2; 4]%nat ->
  parses (hex_channel hex pos) = false ->
  style_rgb (String "#" hex) r0 g0 b0 = inr std_invalid_argument.
Proof.
  intros Hlen Hin Hbad. unfold style_rgb.
  cbn [substr1 starts_with_hash]. change (code "#" =? 35) with true.
  destruct (Z.leb_spec 6 (strlen hex)) as [_ | Hlt]; [| lia]. cbn [andb].
  destruct (hex_channel hex 0) as [r | e] eqn:E0;
    [| rewrite (hex_channel_exn hex 0 e E0); reflexivity].
  destruct (hex_channel hex 2) as [g | e] eqn:E2;
    [| rewrite (hex_channel_exn hex 2 e E2); reflexivity].
  destruct (hex_channel hex 4) as [b | e] eqn:E4;
    [| rewrite (hex_channel_exn hex 4 e E4); reflexivity].
  exfalso. simpl in Hin.
  destruct Hin as [<- | [<- | [<- | []]]]; rewrite ?E0, ?E2, ?E4 in Hbad;
    discriminate Hbad.
Qed.

(** What the loop over the rectangle paints at one pixel. *)
Lemma fill_paint_at (n : nat) (w h x y : Z) (fill : colour) :
  Z.of_nat n = 4 * w * h -> 0 < w <= INT_MAX -> 0 < h <= INT_MAX ->
  0 <= x < w -> 0 <= y < h ->
  loop_paint (int_range (rect_start h) (rect_end h))
    (fun y' => row_paint n w (int_range (rect_start w) (rect_end w)) y' fill)
    (Z.to_nat (y * w + x)) =
  if in_rectangle w h x y then Some fill else None.
Proof.
  intros Hn Hw Hh Hx Hy.
  destruct (rect_bounds w Hw) as (Hsx & Hex & _).
  destruct (rect_bounds h Hh) as (Hsy & Hey & _).
  rewrite (loop_paint_if _ _
             (fun y' => (y' =? y) && (rect_start w <=? x) && (x <=? rect_end w))
             fill).
  - rewrite (existsb_range _ _ _ (in_rectangle w h x y)); [reflexivity |].
    unfold in_rectangle. split.
    + intros Hin. exists y. split; lia.
    + intros (d & Hd & Hhit). lia.
  - intros y' Hin. apply in_int_range in Hin.
    apply (row_paint_at n w h x y Hn Hx Hy); lia.
Qed.

(** A stroke colour that throws: the rectangle has been filled by then,
    and nothing else is drawn. *)
Lemma DrawFeatures_stroke_throws {D} (style : LayerStyle) (w h : Z)
    (bbox : BoundingBox D) (e : string) (img : list Z) (r g b : Z) (x : exn) :
  0 < w <= INT_MAX -> 0 < h <= INT_MAX ->
  style_rgb (m_strFillColor style) 255 0 0 = inl (r, g, b) ->
  style_rgb (m_strStrokeColor style) 0 0 0 = inr x ->
  DrawFeatures style w h bbox (mkFrame e img) =
  (inr (Throw x),
   mkFrame e
     (repaint
        (loop_paint (int_range (rect_start h) (rect_end h))
           (fun y' => row_paint (length img) w (int_range (rect_start w) (rect_end w)) y'
                        (r, g, b, to_uint8 (m_nOpacity style))))
        img)).
Proof.
  intros Hw Hh Hfill Hstroke.
  destruct (rect_bounds w Hw) as (Hsx & Hex & Hex').
  destruct (rect_bounds h Hh) as (Hsy & Hey & Hey').
  unfold DrawFeatures. rewrite Hfill, Hstroke.
  set (a := to_uint8 (m_nOpacity style)).
  cbv zeta. fold (rect_start w) (rect_start h) (rect_end w) (rect_end h).
  unfold INT_MAX in Hw, Hh.
  rewrite bind_run. cbn [lift ret]. rewrite bind_run.
  assert (Hloop : writes (length img) tt
            (loop_paint (int_range (rect_start h) (rect_end h))
               (fun y' => row_paint (length img) w
                            (int_range (rect_start w) (rect_end w)) y' (r, g, b, a)))
            (for_each (int_range (rect_start h) (rect_end h)) (fun y =>
               for_each (int_range (rect_start w) (rect_end w)) (fun x =>
                 put_pixel (pixel_index y w x) r g b a)))).
  { apply writes_for_each. intros y Hy. apply in_int_range in Hy.
    apply writes_for_each. intros x' Hx'. apply in_int_range in Hx'.
    apply writes_pixel; unfold INT_MAX; lia. }
  rewrite (Hloop e img eq_refl). reflexivity.
Qed.

(** It throws on every buffer and with any dimensions, and keeps the
    length of the buffer. *)
Lemma DrawFeatures_stroke_throws_any {D} (style : LayerStyle) (w h : Z)
    (bbox : BoundingBox D) (r g b : Z) (x : exn) (img : list Z) :
  style_rgb (m_strFillColor style) 255 0 0 = inl (r, g, b) ->
  style_rgb (m_strStrokeColor style) 0 0 0 = inr x ->
  exists img',
    length img' = length img /\
    forall e, DrawFeatures style w h bbox (mkFrame e img) =
              (inr (Throw x), mkFrame e img').
Proof.
  intros Hfill Hstroke.
  assert (Hloop : draws false
            (for_each (int_range (rect_start h) (rect_end h)) (fun y =>
               for_each (int_range (rect_start w) (rect_end w)) (fun x' =>
                 put_pixel (pixel_index y w x') r g b (to_uint8 (m_nOpacity style)))))
            (fun _ => True)).
  { apply draws_for_each. intros y _. apply draws_for_each. intros x' _.
    apply draws_pixel. }
  destruct (Hloop img) as (res & img' & Hlen & Hrun & Hres).
  destruct res as [[] | [ex |]]; [| discriminate Hres | contradiction].
  exists img'. split; [exact Hlen |]. intros e.
  unfold DrawFeatures. rewrite Hfill, Hstroke. cbv zeta.
  fold (rect_start w) (rect_start h) (rect_end w) (rect_end h).
  rewrite bind_run. cbn [lift ret]. rewrite bind_run, (Hrun e). reflexivity.
Qed.

(** C6 (as amended).  Each channel of a colour is [std::stoi], in base
    16, of two characters of the hex part.  A channel that starts with a
    hexadecimal digit converts and nothing is signalled: to the byte of
    its two digits, or, when its second character is not a hexadecimal
    digit, to the value of the first digit alone.  A channel whose first
    character is neither a hexadecimal digit, white space nor a sign makes
    [std::stoi] throw [std::invalid_argument], and nothing catches it,
    whichever channel it is.  In a background colour (hex part of length
    6 or 8: red, green, blue, and alpha when the length is 8) the
    exception leaves [CreateBlankImage], called with positive
    dimensions, before the buffer is touched.  In a fill colour (hex
    part of length 6 or more) it leaves [DrawFeatures] before anything
    is drawn.  In a stroke colour, when the fill colour parses, it leaves
    [DrawFeatures] after the rectangle has been filled: the length of the
    buffer is kept, and on a buffer of [4 * w * h] bytes with positive
    [int] dimensions every pixel of the rectangle then has the fill
    colour, every other pixel is as it was, and no edge is drawn.  In
    none of these cases does the operation return. *)
Theorem malformed_channel (hex : string) (pos : nat) (c1 : ascii) :
  String.get pos hex = Some c1 ->
  (is_hex c1 = true ->
   forall c2, String.get (S pos) hex = Some c2 ->
     hex_channel hex pos = inl (if is_hex c2 then hex_byte c1 c2 else hex_value c1)) /\
  (starts_number c1 = false ->
   hex_channel hex pos = inr std_invalid_argument /\
   ((strlen hex = 6 /\ In pos [0; 2; 4]%nat) \/
    (strlen hex = 8 /\ In pos [0; 2; 4; 6]%nat) ->
    forall w h fr, 0 < w -> 0 < h ->
      CreateBlankImage w h (String "#" hex) fr =
      (inr (Throw std_invalid_argument), fr)) /\
   (6 <= strlen hex -> In pos [0; 2; 4]%nat ->
    forall D (style : LayerStyle) w h (bbox : BoundingBox D),
      (m_strFillColor style = String "#" hex ->
       forall fr,
         DrawFeatures style w h bbox fr = (inr (Throw std_invalid_argument), fr)) /\
      (m_strStrokeColor style = String "#" hex ->
       forall r g b e img,
         style_rgb (m_strFillColor style) 255 0 0 = inl (r, g, b) ->
         exists img',
           DrawFeatures style w h bbox (mkFrame e img) =
             (inr (Throw std_invalid_argument), mkFrame e img') /\
           length img' = length img /\
           (0 < w <= INT_MAX -> 0 < h <= INT_MAX ->
            Z.of_nat (length img) = 4 * w * h ->
            forall x y (k : nat), 0 <= x < w -> 0 <= y < h -> (k < 4)%nat ->
              img' !! (Z.to_nat (4 * (y * w + x)) + k)%nat =
              if in_rectangle w h x y
              then Some (channel (r, g, b, to_uint8 (m_nOpacity style)) k)
              else img !! (Z.to_nat (4 * (y * w + x)) + k)%nat)))).
Proof.
  intros H1. split.
  - intros X1 c2 H2. rewrite (hex_channel_two hex pos c1 c2 H1 H2).
    destruct (is_hex c2) eqn:X2.
    + apply hex_channel_digits; assumption.
    + apply hex_channel_partial; assumption.
  - intros Hs.
    pose proof (hex_channel_malformed hex pos c1 H1 Hs) as Hthrow.
    assert (Hbad : parses (hex_channel hex pos) = false) by (rewrite Hthrow; reflexivity).
    split; [exact Hthrow |]. split.
    + intros Hpos w h fr Hw Hh. unfold CreateBlankImage.
      destruct (Z.leb_gt w 0) as [_ Hw']. destruct (Z.leb_gt h 0) as [_ Hh'].
      rewrite Hw', Hh' by lia. change (false || false) with false. cbv iota.
      rewrite (background_rgba_malformed hex pos Hpos Hbad). reflexivity.
    + intros Hlen Hin D style w h bbox. split.
      * intros Hfill fr. unfold DrawFeatures.
        rewrite Hfill, (style_rgb_malformed hex pos 255 0 0 Hlen Hin Hbad).
        reflexivity.
      * intros Hstroke r g b e img Hfill.
        pose proof (style_rgb_malformed hex pos 0 0 0 Hlen Hin Hbad) as Hx.
        rewrite <- Hstroke in Hx.
        destruct (DrawFeatures_stroke_throws_any style w h bbox r g b _ img Hfill Hx)
          as (img' & Hlen' & Hrun).
        exists img'. split; [apply Hrun |]. split; [exact Hlen' |].
        intros Hw Hh Hn.
        pose proof (DrawFeatures_stroke_throws style w h bbox e img r g b _
                      Hw Hh Hfill Hx) as Hrun'.
        rewrite (Hrun e) in Hrun'. injection Hrun' as ->.
        intros x y k Hxw Hyh Hk.
        assert (0 <= y * w) by nia.
        replace (Z.to_nat (4 * (y * w + x)))
          with (4 * Z.to_nat (y * w + x))%nat by lia.
        pose proof (fill_paint_at (length img) w h x y
                      (r, g, b, to_uint8 (m_nOpacity style)) Hn Hw Hh Hxw Hyh) as Hp.
        destruct (in_rectangle w h x y).
        -- apply repaint_pixel; [nia | exact Hk | exact Hp].
        -- rewrite repaint_lookup.
           assert (Hdiv : ((4 * Z.to_nat (y * w + x) + k) / 4 =
                           Z.to_nat (y * w + x))%nat).
           { symmetry. apply (Nat.div_unique _ 4 _ k); lia. }
           rewrite Hdiv, Hp.
           destruct (img !! (4 * Z.to_nat (y * w + x) + k)%nat); reflexivity.
Qed.

Lemma malformed_channel_witness :
  hex_channel "1g1g1g" 0 = inl 1 /\
  (forall fr,
     CreateBlankImage 1 1 "#12zz56" fr = (inr (Throw std_invalid_argument), fr)) /\
  (forall fr,
     DrawFeatures (filled_with "#1234zz") 4 4 box_0_4 fr =
     (inr (Throw std_invalid_argument), fr)) /\
  exists img',
    DrawFeatures (stroked_with "#zz0000") 4 4 box_0_4 (mkFrame "" (repeat 0 64)) =
      (inr (Throw std_invalid_argument), mkFrame "" img') /\
    img' !! (Z.to_nat (4 * (2 * 4 + 2)) + 0)%nat = Some 204 /\
    img' !! (Z.to_nat (4 * (0 * 4 + 0)) + 0)%nat = Some 0.
Proof.
  assert (H4 : 0 < 4 <= INT_MAX) by (unfold INT_MAX; lia).
  split; [| split; [| split]].
  - exact (proj1 (malformed_channel "1g1g1g" 0 "1"%char eq_refl) eq_refl
             "g"%char eq_refl).
  - intros fr.
    destruct (proj2 (malformed_channel "12zz56" 2 "z"%char eq_refl) eq_refl)
      as (_ & Hbg & _).
    apply Hbg; [left; split; [reflexivity | simpl; tauto] | lia | lia].
  - intros fr.
    destruct (proj2 (malformed_channel "1234zz" 4 "z"%char eq_refl) eq_refl)
      as (_ & _ & Hst).
    assert (Hlen : 6 <= strlen "1234zz") by (vm_compute; discriminate).
    assert (Hin : In 4%nat [0; 2; 4]%nat) by (simpl; tauto).
    exact (proj1 (Hst Hlen Hin Q (filled_with "#1234zz") 4 4 box_0_4) eq_refl fr).
  - destruct (proj2 (malformed_channel "zz0000" 0 "z"%char eq_refl) eq_refl)
      as (_ & _ & Hst).
    assert (Hlen : 6 <= strlen "zz0000") by (vm_compute; discriminate).
    assert (Hin : In 0%nat [0; 2; 4]%nat) by (simpl; tauto).
    destruct (proj2 (Hst Hlen Hin Q (stroked_with "#zz0000") 4 4 box_0_4) eq_refl
                204 204 204 "" (repeat 0 64) eq_refl)
      as (img' & Hrun & _ & Hpix).
    exists img'. split; [exact Hrun |]. split.
    + exact (Hpix H4 H4 eq_refl 2 2 0%nat ltac:(lia) ltac:(lia) ltac:(lia)).
    + exact (Hpix H4 H4 eq_refl 0 0 0%nat ltac:(lia) ltac:(lia) ltac:(lia)).
Defined.
